(** * ESG metrics extractor: chunked extraction, response reconciliation,
      normalisation, aggregation and the two flat-file caches.

    The development embeds the Python sources

      - app/extractor/gemini_extractor.py  (MetricsExtractor)
      - app/extractor/compare_metrics.py   (extract_json, compare_metrics_page,
                                            display_common_metrics_tables)
      - app/main.py                        (the extraction page, extract_json)
      - app/mainModel1.py                  (parse_gemini_output, flatten_metrics)

    together with the parts of the Python runtime they rest on (str
    methods, the re patterns that occur in the sources, json.loads and
    json.dumps), and proves properties of the embedded functions. *)

From Stdlib Require Import ZArith NArith List Lia Bool String Ascii.
From Stdlib Require Import Decimal DecimalN DecimalZ DecimalPos DecimalFacts.
From stdpp Require Import gmap.
Import ListNotations.

Set Warnings "-register-all".

Open Scope N_scope.

(* ===================================================================== *)
(** ** Python text *)
(* ===================================================================== *)

(** A Python [str] is a sequence of Unicode code points; a code point is
    an [N].  String literals of the sources are written [u "..."]. *)
Module Py.

Abbreviation str := (list N).

Definition u (s : string) : str :=
  map N_of_ascii (list_ascii_of_string s).

Definition str_eqb (a b : str) : bool :=
  bool_decide (a = b).

(** [str.isspace] on one code point (the table of CPython's
    [_PyUnicode_IsWhitespace]); the class [\s] of a str pattern is the
    same set. *)
Definition isspace (c : N) : bool :=
  ((9 <=? c) && (c <=? 13)) || ((28 <=? c) && (c <=? 32))
  || (c =? 133) || (c =? 160) || (c =? 5760)
  || ((8192 <=? c) && (c <=? 8202))
  || (c =? 8232) || (c =? 8233) || (c =? 8239) || (c =? 8287)
  || (c =? 12288).

Fixpoint lstrip (s : str) : str :=
  match s with
  | c :: s' => if isspace c then lstrip s' else s
  | [] => []
  end.

Definition rstrip (s : str) : str := rev (lstrip (rev s)).

(** [s.strip()] *)
Definition strip (s : str) : str := rstrip (lstrip s).

(** Case mapping.  The images are given wherever they are a single
    ASCII letter: the letters A-Z and a-z, U+212A (Kelvin sign, lowers
    to k), U+017F (long s, titlecases to S) and U+0131 (dotless i,
    titlecases to I).  Every other code point is kept as it is: its
    image under Python's mapping is not a single ASCII letter. *)
Definition lower_char (c : N) : N :=
  if (65 <=? c) && (c <=? 90) then c + 32
  else if c =? 8490 then 107
  else c.

Definition title_char (c : N) : N :=
  if (97 <=? c) && (c <=? 122) then c - 32
  else if c =? 383 then 83
  else if c =? 305 then 73
  else c.

(** [s.lower()] *)
Definition lower (s : str) : str := map lower_char s.

(** [s.capitalize()]: first character titlecased, the rest lowered. *)
Definition capitalize (s : str) : str :=
  match s with
  | [] => []
  | c :: s' => title_char c :: lower s'
  end.

(** [s.replace(old, new)] for a one-character [old]. *)
Definition replace_char (old : N) (new : str) (s : str) : str :=
  flat_map (fun c => if c =? old then new else [c]) s.

(** [sep.join(parts)] *)
Fixpoint join (sep : str) (parts : list str) : str :=
  match parts with
  | [] => []
  | [p] => p
  | p :: ps => p ++ sep ++ join sep ps
  end.

(** [s.startswith(p)], returning what follows the prefix. *)
Fixpoint strip_prefix (p s : str) : option str :=
  match p, s with
  | [], _ => Some s
  | a :: p', b :: s' => if a =? b then strip_prefix p' s' else None
  | _ :: _, [] => None
  end.

(** Decimal digits of an unsigned decimal number, most significant
    first. *)
Fixpoint digits (d : Decimal.uint) : str :=
  match d with
  | Nil => []
  | D0 d => 48 :: digits d
  | D1 d => 49 :: digits d
  | D2 d => 50 :: digits d
  | D3 d => 51 :: digits d
  | D4 d => 52 :: digits d
  | D5 d => 53 :: digits d
  | D6 d => 54 :: digits d
  | D7 d => 55 :: digits d
  | D8 d => 56 :: digits d
  | D9 d => 57 :: digits d
  end.

(** [str(z)] for an int. *)
Definition str_of_int (z : Z) : str :=
  match Z.to_int z with
  | Pos d => digits d
  | Neg d => 45 :: digits d
  end.

(** The exceptions that the embedded code can raise. *)
Inductive exn : Type :=
| JSONDecodeError
| ValueError
| AttributeError
| TypeError
| KeyError
| InvalidInputError
| OracleError.

(** A computation that returns or raises. *)
Inductive result (A : Type) : Type :=
| Ok (a : A)
| Raise (e : exn).
Arguments Ok {A} a.
Arguments Raise {A} e.

Definition bind {A B} (r : result A) (k : A -> result B) : result B :=
  match r with
  | Ok a => k a
  | Raise e => Raise e
  end.

End Py.

Import Py.

(* ===================================================================== *)
(** ** Regular expressions ([re.search]) *)
(* ===================================================================== *)

(** The patterns of the sources use literals, character classes, greedy
    stars over a one-character class, an optional group, ordered
    alternation and one capturing group.  [exec] is a backtracking
    matcher with Python's priorities: a star takes as many characters as
    it can and gives them back one at a time, an alternation tries its
    left branch first, an option tries to match before it tries to skip. *)
Module Re.

Inductive re : Type :=
| Eps
| Lit (c : N)
| Seq (r1 r2 : re)
| Alt (r1 r2 : re)
| Opt (r : re)
| Star (cls : N -> bool)
| Grp (r : re).

(** Greedy star over the class [cls], continuing with [k]. *)
Fixpoint star {R : Type} (cls : N -> bool) (s : str)
    (k : str -> option R) : option R :=
  match s with
  | c :: s' =>
      if cls c then
        match star cls s' k with
        | Some x => Some x
        | None => k s
        end
      else k s
  | [] => k []
  end.

(** [exec r s g k]: match [r] at the head of [s]; [g] is the text of
    group 1 so far; [k] receives what is left of [s] and the group. *)
Fixpoint exec {R : Type} (r : re) (s : str) (g : option str)
    (k : str -> option str -> option R) : option R :=
  match r with
  | Eps => k s g
  | Lit c =>
      match s with
      | x :: s' => if x =? c then k s' g else None
      | [] => None
      end
  | Seq r1 r2 => exec r1 s g (fun s' g' => exec r2 s' g' k)
  | Alt r1 r2 =>
      match exec r1 s g k with
      | Some x => Some x
      | None => exec r2 s g k
      end
  | Opt r1 =>
      match exec r1 s g k with
      | Some x => Some x
      | None => k s g
      end
  | Star cls => star cls s (fun s' => k s' g)
  | Grp r1 =>
      exec r1 s g
        (fun s' _ => k s' (Some (firstn (length s - length s') s)))
  end.

(** A match object: [group()] and [group(1)]. *)
Record match_obj : Type := MatchObj {
  group0 : str;
  group1 : option str
}.

(** [re.match(r, s)]: a match at the head of [s]. *)
Definition match_here (r : re) (s : str) : option match_obj :=
  exec r s None
    (fun s' g => Some (MatchObj (firstn (length s - length s') s) g)).

(** [re.search(r, s)]: the leftmost position with a match. *)
Fixpoint search (r : re) (s : str) : option match_obj :=
  match match_here r s with
  | Some m => Some m
  | None =>
      match s with
      | [] => None
      | _ :: s' => search r s'
      end
  end.

Fixpoint lits (s : str) : re :=
  match s with
  | [] => Eps
  | c :: s' => Seq (Lit c) (lits s')
  end.

(** [.] under [re.DOTALL], and [[\s\S]]. *)
Definition any (c : N) : bool := true.

(** [\s] *)
Definition ws : N -> bool := Py.isspace.

End Re.

(* ===================================================================== *)
(** ** JSON values, [json.loads] and [json.dumps] *)
(* ===================================================================== *)

Module Json.

(** What [json.loads] returns.  An int is a [Z].  A float is kept as the
    literal that denotes it (binary floating point is not modelled; the
    sources never compute with a value).  A [dict] is the list of its
    items in insertion order; its keys are strings and pairwise
    different. *)
Inductive json : Type :=
| JNull
| JBool (b : bool)
| JInt (z : Z)
| JFloat (lexeme : str)
| JStr (s : str)
| JArr (items : list json)
| JObj (members : list (str * json)).

Abbreviation dict := (list (str * json)).

(** [isinstance(v, dict)] and [isinstance(v, list)] *)
Definition is_dict (v : json) : bool :=
  match v with JObj _ => true | _ => false end.

Definition is_list (v : json) : bool :=
  match v with JArr _ => true | _ => false end.

(** [d.get(k)] *)
Fixpoint dict_get (k : str) (d : dict) : option json :=
  match d with
  | [] => None
  | (k', v) :: d' => if str_eqb k' k then Some v else dict_get k d'
  end.

(** [d[k] = v]: an existing key keeps its place, a new key goes last. *)
Fixpoint dict_set (k : str) (v : json) (d : dict) : dict :=
  match d with
  | [] => [(k, v)]
  | (k', v') :: d' =>
      if str_eqb k' k then (k', v) :: d' else (k', v') :: dict_set k v d'
  end.

Definition has_key (k : str) (d : dict) : bool :=
  match dict_get k d with Some _ => true | None => false end.

(** *** Decoding *)

Definition is_json_ws (c : N) : bool :=
  (c =? 32) || (c =? 9) || (c =? 10) || (c =? 13).

Fixpoint skip_ws (s : str) : str :=
  match s with
  | c :: s' => if is_json_ws c then skip_ws s' else s
  | [] => []
  end.

Definition is_digit (c : N) : bool := (48 <=? c) && (c <=? 57).

Definition hexval (c : N) : option N :=
  if (48 <=? c) && (c <=? 57) then Some (c - 48)
  else if (97 <=? c) && (c <=? 102) then Some (c - 87)
  else if (65 <=? c) && (c <=? 70) then Some (c - 55)
  else None.

(** The four hex digits of a [\uXXXX] escape. *)
Definition decode_hex4 (a b c d : N) : option N :=
  match hexval a, hexval b, hexval c, hexval d with
  | Some x3, Some x2, Some x1, Some x0 =>
      Some (N.lor (N.shiftl (N.lor (N.shiftl (N.lor (N.shiftl x3 4) x2) 4) x1) 4) x0)
  | _, _, _, _ => None
  end.

Definition is_high_surrogate (c : N) : bool := (55296 <=? c) && (c <=? 56319).
Definition is_low_surrogate (c : N) : bool := (56320 <=? c) && (c <=? 57343).

Definition join_surrogates (hi lo : N) : N :=
  65536 + N.lor (N.shiftl (hi - 55296) 10) (lo - 56320).

(** The one-character escapes: the table [BACKSLASH] of json.decoder. *)
Definition backslash (c : N) : option N :=
  if c =? 34 then Some 34          (* quote *)
  else if c =? 92 then Some 92     (* backslash *)
  else if c =? 47 then Some 47     (* slash *)
  else if c =? 98 then Some 8      (* b: backspace *)
  else if c =? 102 then Some 12    (* f: form feed *)
  else if c =? 110 then Some 10    (* n: line feed *)
  else if c =? 114 then Some 13    (* r: carriage return *)
  else if c =? 116 then Some 9     (* t: tab *)
  else None.

(** [scanstring] (strict): the text after an opening quote, up to the
    closing quote; [acc] holds the decoded characters, last one first. *)
Fixpoint scanstring (s : str) (acc : str) : option (str * str) :=
  match s with
  | [] => None
  | c :: r =>
      if c =? 34 then Some (rev acc, r)
      else if c =? 92 then
        match r with
        | [] => None
        | e :: r1 =>
            if e =? 117 then
              match r1 with
              | h1 :: h2 :: h3 :: h4 :: r2 =>
                  match decode_hex4 h1 h2 h3 h4 with
                  | None => None
                  | Some uni =>
                      if is_high_surrogate uni then
                        match r2 with
                        | b :: l :: g1 :: g2 :: g3 :: g4 :: r4 =>
                            if (b =? 92) && (l =? 117) then
                              match decode_hex4 g1 g2 g3 g4 with
                              | None => None
                              | Some uni2 =>
                                  if is_low_surrogate uni2
                                  then scanstring r4 (join_surrogates uni uni2 :: acc)
                                  else scanstring r2 (uni :: acc)
                              end
                            else scanstring r2 (uni :: acc)
                        | _ => scanstring r2 (uni :: acc)
                        end
                      else scanstring r2 (uni :: acc)
                  end
              | _ => None
              end
            else
              match backslash e with
              | Some ch => scanstring r1 (ch :: acc)
              | None => None
              end
        end
      else if c <? 32 then None
      else scanstring r (c :: acc)
  end.

(** The longest run of digits at the head of [s]. *)
Fixpoint span_digits (s : str) : str * str :=
  match s with
  | c :: r =>
      if is_digit c then let (d, r') := span_digits r in (c :: d, r')
      else ([], s)
  | [] => ([], [])
  end.

(** The inverse of [Py.digits]; a character that is no digit ends it. *)
Fixpoint uint_of_digits (s : str) : Decimal.uint :=
  match s with
  | [] => Nil
  | c :: r =>
      let d := uint_of_digits r in
      if c =? 48 then D0 d else if c =? 49 then D1 d
      else if c =? 50 then D2 d else if c =? 51 then D3 d
      else if c =? 52 then D4 d else if c =? 53 then D5 d
      else if c =? 54 then D6 d else if c =? 55 then D7 d
      else if c =? 56 then D8 d else if c =? 57 then D9 d
      else Nil
  end.

(** The integer part [0|[1-9]\d*]. *)
Definition scan_int_part (s : str) : option (str * str) :=
  match s with
  | c :: r =>
      if c =? 48 then Some ([48], r)
      else if is_digit c then
        let (d, r') := span_digits r in Some (c :: d, r')
      else None
  | [] => None
  end.

(** The fraction [\.\d+], if there is one. *)
Definition scan_frac (s : str) : str * str :=
  match s with
  | dot :: f :: r =>
      if (dot =? 46) && is_digit f then
        let (d, r') := span_digits r in (dot :: f :: d, r')
      else ([], s)
  | _ => ([], s)
  end.

(** The exponent [[eE][-+]?\d+], if there is one. *)
Definition scan_exp (s : str) : str * str :=
  match s with
  | e :: r =>
      if (e =? 101) || (e =? 69) then
        let (sign, r1) :=
          match r with
          | c :: r' => if (c =? 45) || (c =? 43) then ([c], r') else ([], r)
          | [] => ([], r)
          end in
        match span_digits r1 with
        | ([], _) => ([], s)
        | (d, r2) => (e :: sign ++ d, r2)
        end
      else ([], s)
  | [] => ([], s)
  end.

(** The digits of a number after its sign: an int when there is neither
    fraction nor exponent, else a float. *)
Definition scan_unsigned (sign : str) (s1 : str) : option (json * str) :=
  match scan_int_part s1 with
  | None => None
  | Some (ip, s2) =>
      let (fp, s3) := scan_frac s2 in
      let (ep, s4) := scan_exp s3 in
      match fp, ep with
      | [], [] =>
          let n := Z.of_N (N.of_uint (uint_of_digits ip)) in
          Some (JInt (match sign with [] => n | _ => (- n)%Z end), s4)
      | _, _ => Some (JFloat (sign ++ ip ++ fp ++ ep), s4)
      end
  end.

(** A number, with its optional minus sign. *)
Definition scan_number (s : str) : option (json * str) :=
  match s with
  | c :: r => if c =? 45 then scan_unsigned [45] r else scan_unsigned [] s
  | [] => None
  end.

Definition NULL : str := Eval cbv in u "null".
Definition TRUE : str := Eval cbv in u "true".
Definition FALSE : str := Eval cbv in u "false".
Definition NAN : str := Eval cbv in u "NaN".
Definition INFINITY : str := Eval cbv in u "Infinity".
Definition NEG_INFINITY : str := Eval cbv in u "-Infinity".

(** The constants, then the numbers. *)
Definition scan_literal (s : str) : option (json * str) :=
  match strip_prefix NULL s with Some r => Some (JNull, r) | None =>
  match strip_prefix TRUE s with Some r => Some (JBool true, r) | None =>
  match strip_prefix FALSE s with Some r => Some (JBool false, r) | None =>
  match strip_prefix NAN s with Some r => Some (JFloat NAN, r) | None =>
  match strip_prefix INFINITY s with Some r => Some (JFloat INFINITY, r) | None =>
  match strip_prefix NEG_INFINITY s with Some r => Some (JFloat NEG_INFINITY, r) | None =>
  scan_number s
  end end end end end end.

(** [scan_once]: one JSON value at the head of [s], and what follows it.
    [None] is the decoder's error.  Every call spends one unit of
    [fuel]; a value never needs more units than it has characters
    ([Fuel.fuel_bound] below), so that the fuel which [loads] hands out
    never runs out.  The limits of the interpreter (the recursion limit
    for deeply nested text, the limit on the digits of an int) are not
    part of the embedding. *)
Fixpoint scan_once (fuel : nat) (s : str) : option (json * str) :=
  match fuel with
  | O => None
  | S fuel' =>
      match s with
      | [] => None
      | c :: r =>
          if c =? 34 then
            match scanstring r [] with
            | Some (x, r') => Some (JStr x, r')
            | None => None
            end
          else if c =? 123 then
            match skip_ws r with
            | [] => None
            | c1 :: r1 =>
                if c1 =? 125 then Some (JObj [], r1)
                else parse_members fuel' (c1 :: r1) []
            end
          else if c =? 91 then
            match skip_ws r with
            | [] => None
            | c1 :: r1 =>
                if c1 =? 93 then Some (JArr [], r1)
                else parse_items fuel' (c1 :: r1) []
            end
          else scan_literal s
      end
  end

(** The items of an array after the bracket; [acc] holds the items read
    so far, last one first. *)
with parse_items (fuel : nat) (s : str) (acc : list json)
    : option (json * str) :=
  match fuel with
  | O => None
  | S fuel' =>
      match scan_once fuel' s with
      | None => None
      | Some (v, r) =>
          match skip_ws r with
          | [] => None
          | c :: r1 =>
              if c =? 93 then Some (JArr (rev (v :: acc)), r1)
              else if c =? 44 then parse_items fuel' (skip_ws r1) (v :: acc)
              else None
          end
      end
  end

(** The members of an object after the brace; [acc] is the dict built
    so far (a repeated key keeps its place and takes the later value). *)
with parse_members (fuel : nat) (s : str) (acc : dict)
    : option (json * str) :=
  match fuel with
  | O => None
  | S fuel' =>
      match s with
      | [] => None
      | q :: r =>
          if q =? 34 then
            match scanstring r [] with
            | None => None
            | Some (k, r1) =>
                match skip_ws r1 with
                | [] => None
                | colon :: r2 =>
                    if colon =? 58 then
                      match scan_once fuel' (skip_ws r2) with
                      | None => None
                      | Some (v, r3) =>
                          match skip_ws r3 with
                          | [] => None
                          | c :: r4 =>
                              if c =? 125
                              then Some (JObj (dict_set k v acc), r4)
                              else if c =? 44
                              then parse_members fuel' (skip_ws r4) (dict_set k v acc)
                              else None
                          end
                      end
                    else None
                end
            end
          else None
      end
  end.

(** [json.loads(s)]: one value between optional white space; [None] is
    [json.JSONDecodeError]. *)
Definition loads (s : str) : option json :=
  match scan_once (S (length s)) (skip_ws s) with
  | Some (v, r) =>
      match skip_ws r with
      | [] => Some v
      | _ :: _ => None
      end
  | None => None
  end.

(** *** Encoding *)

Definition hexdigit (n : N) : N := if n <? 10 then 48 + n else 87 + n.

(** ['{0:04x}'.format(n)] for [n] below 65536. *)
Definition hex4 (n : N) : str :=
  [hexdigit (n / 4096 mod 16); hexdigit (n / 256 mod 16);
   hexdigit (n / 16 mod 16); hexdigit (n mod 16)].

(** One character of a string under [ensure_ascii=True]
    ([py_encode_basestring_ascii]). *)
Definition encode_char (c : N) : str :=
  if c =? 34 then [92; 34]
  else if c =? 92 then [92; 92]
  else if c =? 10 then [92; 110]
  else if c =? 13 then [92; 114]
  else if c =? 9 then [92; 116]
  else if c =? 8 then [92; 98]
  else if c =? 12 then [92; 102]
  else if (32 <=? c) && (c <=? 126) then [c]
  else if c <? 65536 then 92 :: 117 :: hex4 c
  else
    let n := c - 65536 in
    let s1 := N.lor 55296 (N.land (N.shiftr n 10) 1023) in
    let s2 := N.lor 56320 (N.land n 1023) in
    (92 :: 117 :: hex4 s1) ++ (92 :: 117 :: hex4 s2).

Definition encode_string (s : str) : str :=
  34 :: flat_map encode_char s ++ [34].

Definition ITEM_SEP : str := [44; 32].
Definition KEY_SEP : str := [58; 32].

(** [json.dumps(v)] with its default arguments. *)
Fixpoint dumps (v : json) : str :=
  match v with
  | JNull => NULL
  | JBool true => TRUE
  | JBool false => FALSE
  | JInt z => str_of_int z
  | JFloat lexeme => lexeme
  | JStr s => encode_string s
  | JArr items => 91 :: join ITEM_SEP (map dumps items) ++ [93]
  | JObj members =>
      123 :: join ITEM_SEP
               (map (fun kv => encode_string (fst kv) ++ KEY_SEP ++ dumps (snd kv))
                    members) ++ [125]
  end.

(** *** Values that Python can hold *)

(** A character of a well-formed string: a code point that is no
    surrogate. *)
Definition is_scalar (c : N) : bool :=
  (c <? 1114112) && negb ((55296 <=? c) && (c <=? 57343)).

(** The literal of a float: what the decoder reads as a float, whole. *)
Definition is_float_literal (l : str) : bool :=
  match scan_literal l with
  | Some (JFloat l', []) => str_eqb l' l
  | _ => false
  end.

Fixpoint keys_distinct (d : list str) : bool :=
  match d with
  | [] => true
  | k :: d' => negb (existsb (str_eqb k) d') && keys_distinct d'
  end.

(** A value built from [None], [bool], [int], [float], [str], [list]
    and [dict] with string keys: every float is a float literal, every
    string is made of code points that are no surrogates, and the keys
    of a dict are pairwise different. *)
Fixpoint plain (v : json) : bool :=
  match v with
  | JNull | JBool _ | JInt _ => true
  | JFloat l => is_float_literal l
  | JStr s => forallb is_scalar s
  | JArr items => forallb plain items
  | JObj members =>
      forallb (fun kv => forallb is_scalar (fst kv) && plain (snd kv)) members
      && keys_distinct (map fst members)
  end.

(** *** Formatting *)

(** [str(v)], as an f-string or [str.format] renders a value.  The
    sources format page texts (a str or [None]) and page numbers (an
    int); for these the rendering is exact.  A float is rendered by its
    literal and a string inside a container is quoted without escapes. *)
Fixpoint py_repr (v : json) : str :=
  match v with
  | JNull => u "None"
  | JBool true => u "True"
  | JBool false => u "False"
  | JInt z => str_of_int z
  | JFloat lexeme => lexeme
  | JStr s => 39 :: s ++ [39]
  | JArr items => 91 :: join ITEM_SEP (map py_repr items) ++ [93]
  | JObj members =>
      123 :: join ITEM_SEP
               (map (fun kv => (39 :: fst kv ++ [39]) ++ KEY_SEP ++ py_repr (snd kv))
                    members) ++ [125]
  end.

Definition py_str (v : json) : str :=
  match v with
  | JStr s => s
  | _ => py_repr v
  end.

End Json.

(* ===================================================================== *)
(** ** The external collaborators *)
(* ===================================================================== *)

(** The oracle is [client.models.generate_content]: it receives the
    request and answers with a response whose [text] is a str or [None],
    or it raises.  The answer may depend on how many requests went
    before, so the oracle takes the number of earlier calls. *)
Module Oracle.

Import Json.

(** [contents]: the parts of one request.  The comparison page sends the
    prompt and the JSON text of the tables; the second part is given
    here as the value that text denotes. *)
Abbreviation contents := (list json).

Definition oracle : Type := nat -> contents -> result (option str).

End Oracle.

(* ===================================================================== *)
(** ** app/extractor/gemini_extractor.py *)
(* ===================================================================== *)

Module GeminiExtractor.

Import Json.

(** [MetricsExtractor.__init__]: [api_key] is the argument, [env] is
    [os.getenv("GOOGLE_API_KEY")].  The result is the key handed to
    [genai.Client]. *)
Definition init (api_key : option str) (env : option str) : result str :=
  let api_key := match api_key with None => env | Some k => Some k end in
  match api_key with
  | None => Raise ValueError
  | Some [] => Raise ValueError
  | Some k => Ok k
  end.

Definition PROMPT_HEAD : str := Eval cbv in
  u "
        You are an ESG data extraction assistant.
        Extract sustainability metrics from the text and return a **valid JSON array**.
        Each entry must include:
          - metric_name
          - value
          - unit
          - year
          - category (Environmental, Social, Governance)
        Do NOT include any explanations, markdown, or code fences. Return strictly JSON.

        Text:
        ".

Definition PROMPT_TAIL : str := Eval cbv in
  u "
        ".

(** [base_prompt.format(text=text)] *)
Definition base_prompt (text : json) : str :=
  PROMPT_HEAD ++ py_str text ++ PROMPT_TAIL.

Definition SOURCE_PAGE : str := Eval cbv in u "source_page".
Definition RAW_OUTPUT : str := Eval cbv in u "raw_output".
Definition PAGE_NUMBER : str := Eval cbv in u "page_number".
Definition TEXT : str := Eval cbv in u "text".

(** The pattern [(\[.*\]|\{.*\})] under [re.DOTALL]. *)
Definition SPAN : Re.re :=
  Re.Grp (Re.Alt
    (Re.Seq (Re.Lit 91) (Re.Seq (Re.Star Re.any) (Re.Lit 93)))
    (Re.Seq (Re.Lit 123) (Re.Seq (Re.Star Re.any) (Re.Lit 125)))).

(** [item["source_page"] = page_number] *)
Definition stamp (page_number : json) (item : dict) : dict :=
  dict_set SOURCE_PAGE page_number item.

(** The records a parsed value contributes (lines 52-59, again 64-71):
    the dicts of a list, or the dict itself; anything else nothing. *)
Definition records_of (parsed : json) (page_number : json) : list dict :=
  match parsed with
  | JArr items =>
      flat_map (fun item =>
                  match item with
                  | JObj d => [stamp page_number d]
                  | _ => []
                  end) items
  | JObj d => [stamp page_number d]
  | _ => []
  end.

(** The record that stands for a response without JSON (lines 73-76). *)
Definition unparsed (raw_text : str) (page_number : json) : dict :=
  [(RAW_OUTPUT, JStr raw_text); (SOURCE_PAGE, page_number)].

(** The reconciliation of one response, lines 50-76 of [extract_metrics]:
    what is appended to [all_metrics] for [raw_text], or the exception
    that leaves the [try] statement. *)
Definition reconcile (raw_text : str) (page_number : json)
    : result (list dict) :=
  match loads raw_text with
  | Some parsed => Ok (records_of parsed page_number)
  | None =>
      match Re.search SPAN raw_text with
      | Some m =>
          match loads (Re.group0 m) with
          | Some parsed => Ok (records_of parsed page_number)
          | None => Raise JSONDecodeError
          end
      | None => Ok [unparsed raw_text page_number]
      end
  end.

Section Extract.

Variable generate_content : Oracle.oracle.

(** [extract_metrics]: the loop over the chunks.  [calls] counts the
    requests made to the oracle; [all_metrics] is the list built so
    far.  An exception ends the loop and the list is lost. *)
Fixpoint extract_metrics_from (calls : nat) (all_metrics : list dict)
    (text_chunks : list dict) : nat * result (list dict) :=
  match text_chunks with
  | [] => (calls, Ok all_metrics)
  | chunk :: rest =>
      let page_number :=
        match dict_get PAGE_NUMBER chunk with Some v => v | None => JNull end in
      let text :=
        match dict_get TEXT chunk with Some v => v | None => JStr [] end in
      match generate_content calls [JStr (base_prompt text)] with
      | Raise e => (S calls, Raise e)
      | Ok None => (S calls, Raise AttributeError)
      | Ok (Some response_text) =>
          match reconcile (strip response_text) page_number with
          | Raise e => (S calls, Raise e)
          | Ok records =>
              extract_metrics_from (S calls) (all_metrics ++ records) rest
          end
      end
  end.

Definition extract_metrics (calls : nat) (text_chunks : list dict)
    : nat * result (list dict) :=
  extract_metrics_from calls [] text_chunks.

End Extract.

End GeminiExtractor.

(* ===================================================================== *)
(** ** Tables, paths, and the persisted stores *)
(* ===================================================================== *)

Module Pandas.

Import Json.

(** A [DataFrame]: its column labels and its rows.  A row is the dict of
    its cells; a label without an item in the row is a missing cell
    (NaN), which [to_csv] writes as an empty field. *)
Record frame : Type := Frame {
  columns : list str;
  rows : list dict
}.

Definition mem (c : str) (l : list str) : bool := existsb (str_eqb c) l.

Fixpoint add_new (l : list str) (ks : list str) : list str :=
  match ks with
  | [] => l
  | k :: ks' => add_new (if mem k l then l else l ++ [k]) ks'
  end.

(** [pd.DataFrame(records)] for a list of dicts: the columns are the
    keys in the order of their first appearance. *)
Definition DataFrame (records : list dict) : frame :=
  Frame (fold_left (fun cols r => add_new cols (map fst r)) records [])
        records.

(** The cells of a row under the labels [cols], in that order. *)
Definition restrict (cols : list str) (row : dict) : dict :=
  flat_map (fun c =>
              match dict_get c row with
              | Some v => [(c, v)]
              | None => []
              end) cols.

(** [df[cols]]: a label that is no column raises [KeyError]. *)
Definition select (cols : list str) (df : frame) : result frame :=
  if forallb (fun c => mem c (columns df)) cols
  then Ok (Frame cols (map (restrict cols) (rows df)))
  else Raise KeyError.

(** [df.to_dict(orient="records")], as a JSON value. *)
Definition to_records (df : frame) : json :=
  JArr (map JObj (rows df)).

End Pandas.

Module Paths.

(** [s] split at its first [c]: what is before and what is after. *)
Fixpoint break_at (c : N) (s : str) : option (str * str) :=
  match s with
  | [] => None
  | x :: s' =>
      if x =? c then Some ([], s')
      else match break_at c s' with
           | Some (a, b) => Some (x :: a, b)
           | None => None
           end
  end.

(** [s] split at every [c]. *)
Fixpoint split_on (c : N) (s : str) : list str :=
  match s with
  | [] => [[]]
  | x :: s' =>
      if x =? c then [] :: split_on c s'
      else
        match split_on c s' with
        | h :: t => (x :: h) :: t
        | [] => [[x]]
        end
  end.

(** [Path(p).name]: the last component of the path; empty components
    and single dots are no components. *)
Definition path_name (p : str) : str :=
  List.last
    (List.filter (fun q => negb (str_eqb q [] || str_eqb q [46]))
                 (split_on 47 p))
    [].

(** [Path(p).stem]: the name without its last suffix; a leading or a
    trailing dot starts no suffix. *)
Definition stem (p : str) : str :=
  let name := path_name p in
  match break_at 46 (rev name) with
  | Some (ext_rev, root_rev) =>
      match ext_rev, root_rev with
      | _ :: _, _ :: _ => rev root_rev
      | _, _ => name
      end
  | None => name
  end.

(** [s.endswith(suffix)] *)
Definition ends_with (suffix s : str) : bool :=
  match strip_prefix (rev suffix) (rev s) with
  | Some _ => true
  | None => false
  end.

(** [os.path.splitext(p)[0]]: [p] up to its last dot, when that dot
    comes after the last slash and after a character of the file name
    that is no dot. *)
Definition splitext_root (p : str) : str :=
  match break_at 46 (rev p) with
  | Some (ext_rev, root_rev) =>
      if existsb (N.eqb 47) ext_rev then p
      else
        let file_rev :=
          match break_at 47 root_rev with
          | Some (f, _) => f
          | None => root_rev
          end in
        if existsb (fun c => negb (c =? 46)) file_rev then rev root_rev else p
  | None => p
  end.

End Paths.

Module Store.

Import Json Pandas.

(** What the pages read and write: the environment variable
    [GOOGLE_API_KEY], the tables of [data/extracted_results] and the
    artifacts of [data/cached_json], each under its file name, and the
    number of requests made to the oracle.  A table is stored as the
    frame that was written; the text of a CSV file and the types that
    [read_csv] infers from it are not modelled, nor is the text of a
    JSON artifact. *)
Record world : Type := World {
  environ : option str;
  results : gmap str frame;
  cached_json : gmap str json;
  calls : nat
}.

Definition set_environ (k : str) (w : world) : world :=
  World (Some k) (results w) (cached_json w) (calls w).

Definition set_calls (n : nat) (w : world) : world :=
  World (environ w) (results w) (cached_json w) n.

Definition put_result (name : str) (df : frame) (w : world) : world :=
  World (environ w) (<[name := df]> (results w)) (cached_json w) (calls w).

Definition put_cached (name : str) (v : json) (w : world) : world :=
  World (environ w) (results w) (<[name := v]> (cached_json w)) (calls w).

(** The sidebar of main.py: a key typed into the text input is stored
    in the environment. *)
Definition sidebar (api_key : str) (w : world) : world :=
  match api_key with
  | [] => w
  | _ :: _ => set_environ api_key w
  end.

End Store.

(* ===================================================================== *)
(** ** app/main.py: the extraction page *)
(* ===================================================================== *)

Module Main.

Import Json Pandas Store.

(** An uploaded PDF: its file name and the text of each of its pages
    ([page.extract_text()]), in page order. *)
Record upload : Type := Upload {
  name : str;
  pages : list str
}.

Fixpoint windows (fuel : nat) (pages_per_part : nat) (pages : list str)
    : list (list str) :=
  match fuel with
  | O => []
  | S fuel' =>
      match pages with
      | [] => []
      | _ :: _ =>
          firstn pages_per_part pages
          :: windows fuel' pages_per_part (skipn pages_per_part pages)
      end
  end.

(** Modelled from the spec: extractor/pdf_splitter.py ([split_pdf]) is
    not among the sources.  Part [i] holds the pages from
    [i * pages_per_part] up to [min ((i+1) * pages_per_part, total)], in
    page order; a document without pages or a window below one page is
    an [InvalidInputError]. *)
Definition split_pdf (pages : list str) (pages_per_part : nat)
    : result (list (list str)) :=
  match pages, pages_per_part with
  | [], _ => Raise InvalidInputError
  | _, O => Raise InvalidInputError
  | _, _ => Ok (windows (length pages) pages_per_part pages)
  end.

Definition SOURCE : str := Eval cbv in u "source".
Definition CATEGORY : str := Eval cbv in u "category".
Definition UNKNOWN : str := Eval cbv in u "unknown".
Definition PAGE_INFIX : str := Eval cbv in u " - page ".
Definition ENVIRONMENTAL : str := Eval cbv in u "Environmental".
Definition SOCIAL : str := Eval cbv in u "Social".
Definition GOVERNANCE : str := Eval cbv in u "Governance".
Definition CSV_SUFFIX : str := Eval cbv in u ".csv".

Definition columns_order : list str :=
  Eval cbv in map u ["metric_name"; "value"; "unit"; "year"; "category"; "source"]%string.

(** [m.get("category", "").capitalize()]: a value that is no str has no
    such method. *)
Definition capitalized_category (m : dict) : result str :=
  match dict_get CATEGORY m with
  | None => Ok (capitalize [])
  | Some (JStr s) => Ok (capitalize s)
  | Some _ => Raise AttributeError
  end.

(** The body of the loop of lines 125-129, for one record. *)
Definition normalize (file_name : str) (m : dict) : result dict :=
  let page :=
    match dict_get GeminiExtractor.SOURCE_PAGE m with
    | Some v => v
    | None => JStr UNKNOWN
    end in
  let m1 := dict_set SOURCE (JStr (file_name ++ PAGE_INFIX ++ py_str page)) m in
  match capitalized_category m1 with
  | Raise e => Raise e
  | Ok category =>
      if mem category [ENVIRONMENTAL; SOCIAL; GOVERNANCE] then Ok m1
      else Ok (dict_set CATEGORY (JStr ENVIRONMENTAL) m1)
  end.

(** The loop of lines 125-129 over the records of one part. *)
Fixpoint normalize_all (file_name : str) (metrics : list dict)
    : result (list dict) :=
  match metrics with
  | [] => Ok []
  | m :: rest =>
      match normalize file_name m with
      | Raise e => Raise e
      | Ok m' =>
          match normalize_all file_name rest with
          | Raise e => Raise e
          | Ok rest' => Ok (m' :: rest')
          end
      end
  end.

(** The chunks of one part (lines 113-119): page [i] of the part, counted
    from 1, has the number [page_offset + i]. *)
Fixpoint text_chunks (page_offset : Z) (i : Z) (part : list str) : list dict :=
  match part with
  | [] => []
  | text :: part' =>
      [(GeminiExtractor.PAGE_NUMBER, JInt (page_offset + i));
       (GeminiExtractor.TEXT, JStr text)]
      :: text_chunks page_offset (i + 1) part'
  end.

(** What the loop over the parts carries from one part to the next. *)
Record progress : Type := Progress {
  p_calls : nat;
  p_page_offset : Z;
  p_all_metrics : list dict;
  p_errors : list (nat * exn)
}.

(** What one run of the page shows. *)
Inductive outcome : Type :=
| NoUpload
| ErrorNoKey
| Cached (df : frame)
| Saved (df : frame) (errors : list (nat * exn))
| NoMetrics (errors : list (nat * exn))
| Crashed (e : exn).

Section Page.

Variable generate_content : Oracle.oracle.

(** The loop of lines 109-141.  An exception inside the [try] is shown
    with the number of the part and the loop goes on: the records of
    that part are not added and [page_offset] is not advanced. *)
Fixpoint process_parts (file_name : str) (idx : nat) (st : progress)
    (pdf_parts : list (list str)) : progress :=
  match pdf_parts with
  | [] => st
  | part :: rest =>
      let chunks := text_chunks (p_page_offset st) 1 part in
      match GeminiExtractor.extract_metrics generate_content (p_calls st) chunks with
      | (calls', Raise e) =>
          process_parts file_name (S idx)
            (Progress calls' (p_page_offset st) (p_all_metrics st)
                      (p_errors st ++ [(idx, e)])) rest
      | (calls', Ok metrics) =>
          match normalize_all file_name metrics with
          | Raise e =>
              process_parts file_name (S idx)
                (Progress calls' (p_page_offset st) (p_all_metrics st)
                          (p_errors st ++ [(idx, e)])) rest
          | Ok metrics' =>
              process_parts file_name (S idx)
                (Progress calls'
                          (p_page_offset st + Z.of_nat (length part))
                          (p_all_metrics st ++ metrics')
                          (p_errors st)) rest
          end
      end
  end.

(** Lines 146-156: the table is written when there is a record. *)
Definition combine_and_save (result_csv : str) (st : progress) (w : world)
    : world * outcome :=
  let w1 := set_calls (p_calls st) w in
  match p_all_metrics st with
  | [] => (w1, NoMetrics (p_errors st))
  | _ :: _ =>
      match select columns_order (DataFrame (p_all_metrics st)) with
      | Raise e => (w1, Crashed e)
      | Ok df => (put_result result_csv df w1, Saved df (p_errors st))
      end
  end.

(** One run of the script with the page "Extract ESG Metrics" chosen:
    [api_key] is the text of the sidebar input, [pages_per_part] the
    number input, [uploaded_file] the file of the uploader, if any. *)
Definition extraction_page (api_key : str) (pages_per_part : nat)
    (uploaded_file : option upload) (w : world) : world * outcome :=
  let w := sidebar api_key w in
  match uploaded_file with
  | None => (w, NoUpload)
  | Some file =>
      match api_key with
      | [] => (w, ErrorNoKey)
      | _ :: _ =>
          let file_name := name file in
          let result_csv := Paths.stem file_name ++ CSV_SUFFIX in
          match results w !! result_csv with
          | Some df => (w, Cached df)
          | None =>
              match split_pdf (pages file) pages_per_part with
              | Raise e => (w, Crashed e)
              | Ok pdf_parts =>
                  match GeminiExtractor.init (environ w) (environ w) with
                  | Raise e => (w, Crashed e)
                  | Ok _ =>
                      combine_and_save result_csv
                        (process_parts file_name 1
                           (Progress (calls w) 0 [] []) pdf_parts) w
                  end
              end
          end
      end
  end.

End Page.

End Main.

(* ===================================================================== *)
(** ** app/extractor/compare_metrics.py: the comparison page *)
(* ===================================================================== *)

Module CompareMetrics.

Import Json Pandas Store.

Definition TICKS : str := Eval cbv in u "```".
Definition JSON_TAG : str := Eval cbv in u "json".

(** The pattern [```(?:json)?\s*(\[[\s\S]*\])\s*```]. *)
Definition FENCED : Re.re :=
  Re.Seq (Re.lits TICKS)
    (Re.Seq (Re.Opt (Re.lits JSON_TAG))
      (Re.Seq (Re.Star Re.ws)
        (Re.Seq (Re.Grp (Re.Seq (Re.Lit 91) (Re.Seq (Re.Star Re.any) (Re.Lit 93))))
          (Re.Seq (Re.Star Re.ws) (Re.lits TICKS))))).

(** [extract_json] *)
Definition extract_json (text : str) : str :=
  let text :=
    match Re.search FENCED text with
    | Some m =>
        match Re.group1 m with
        | Some g => g
        | None => text
        end
    | None => text
    end in
  strip text.

Definition CACHE_PREFIX : str := Eval cbv in u "common_metrics_".
Definition JSON_SUFFIX : str := Eval cbv in u ".json".
Definition UNDERSCORE : str := Eval cbv in u "_".

(** Lines 102-103: the name of the cache file. *)
Definition safe_fnames (selected_files : list str) : str :=
  join UNDERSCORE
    (map (fun f => replace_char 32 UNDERSCORE (Paths.splitext_root f))
         selected_files).

Definition cache_file (category : str) (selected_files : list str) : str :=
  CACHE_PREFIX ++ lower category ++ UNDERSCORE
  ++ safe_fnames selected_files ++ JSON_SUFFIX.

(** [results_dir.glob("*.csv")]: the names of the stored tables that end
    in .csv (the page sorts them; only the list of options depends on
    the order). *)
Definition csv_files (w : world) : list str :=
  List.filter (Paths.ends_with Main.CSV_SUFFIX)
              (map fst (map_to_list (results w))).

Definition expected_cols : list str := Main.columns_order.

(** [df["category"].str]: the accessor exists on a column of strings,
    which a column is when it is empty or holds a str. *)
Definition has_str_accessor (df : frame) : bool :=
  match rows df with
  | [] => true
  | _ :: _ =>
      existsb (fun r => match dict_get Main.CATEGORY r with
                        | Some (JStr _) => true
                        | _ => false
                        end) (rows df)
  end.

(** [df[df["category"].str.lower() == category.lower()]] *)
Definition filter_category (category : str) (df : frame) : frame :=
  Frame (columns df)
        (List.filter (fun r => match dict_get Main.CATEGORY r with
                          | Some (JStr s) => str_eqb (lower s) (lower category)
                          | _ => false
                          end) (rows df)).

(** Lines 126-137, for one selected file: the filtered table that is
    appended to [dataframes], or [None] when the file is skipped with a
    warning. *)
Definition load_filtered (w : world) (category : str) (fname : str)
    : option frame :=
  match results w !! fname with
  | None => None
  | Some df =>
      if forallb (fun c => mem c (columns df)) expected_cols then
        if has_str_accessor df then Some (filter_category category df)
        else None
      else None
  end.

Definition dataframes (w : world) (category : str) (selected_files : list str)
    : list frame :=
  omap (load_filtered w category) selected_files.

(** The prompt of lines 146-168, up to and after the category. *)
Definition COMPARE_HEAD : str := Eval cbv in
  u "
You are an ESG data analyst. I will give you multiple sustainability metric tables (as JSON).

Each dataset has the following columns:
- "
  ++ [34]
  ++ u "metric_name"
  ++ [34]
  ++ u ": the name of the metric (e.g., Scope 1 GHG emissions, renewable electricity use)
- "
  ++ [34]
  ++ u "value"
  ++ [34]
  ++ u ": the reported figure
- "
  ++ [34]
  ++ u "unit"
  ++ [34]
  ++ u ": the measurement unit (e.g., metric tons CO2e)
- "
  ++ [34]
  ++ u "year"
  ++ [34]
  ++ u ": the reporting year
- "
  ++ [34]
  ++ u "category"
  ++ [34]
  ++ u ": one of Environmental, Social, or Governance
- "
  ++ [34]
  ++ u "source"
  ++ [34]
  ++ u ": file and page origin

Your task:
1. Identify and group metrics that are **semantically common** across these datasets for the category: ".

Definition COMPARE_TAIL : str := Eval cbv in
  u ".
   - "
  ++ [8220]
  ++ u "Common"
  ++ [8221]
  ++ u " means they refer to the same underlying sustainability indicator (e.g., GHG emissions, water use, energy consumption).
   - Names do not have to match exactly; interpret semantically.
2. For each group of common metrics, return a structured JSON object with:
   - "
  ++ [34]
  ++ u "common_metric"
  ++ [34]
  ++ u ": a concise name summarizing the shared topic (e.g. "
  ++ [34]
  ++ u "GHG Emissions (Scopes 1 & 2)"
  ++ [34]
  ++ u ")
   - "
  ++ [34]
  ++ u "dataset_1"
  ++ [34]
  ++ u ": an array of matching metric objects from the first dataset
   - "
  ++ [34]
  ++ u "dataset_2"
  ++ [34]
  ++ u ": an array of matching metric objects from the second dataset
   - etc. for all datasets.

Return **only** a valid JSON array, no explanations or text.
".

Definition COMPARE_PROMPT (category : str) : str :=
  COMPARE_HEAD ++ category ++ COMPARE_TAIL.

(** What one run of the page shows. *)
Inductive outcome : Type :=
| NoResults
| NothingSelected
| Loaded (common_metrics : json)
| Waiting
| ErrorNoKey
| Insufficient
| InvalidJson
| Compared (common_metrics : json)
| Crashed (e : exn).

Section Page.

Variable generate_content : Oracle.oracle.

(** One run of [compare_metrics_page]: [selected_files] is the value of
    the multiselect, in the order in which the files were chosen,
    [category] the value of the selectbox, [button] whether "Compare
    Selected CSVs" was pressed. *)
Definition compare_metrics_page (selected_files : list str) (category : str)
    (button : bool) (w : world) : world * outcome :=
  match csv_files w with
  | [] => (w, NoResults)
  | _ :: _ =>
    match selected_files with
    | [] => (w, NothingSelected)
    | _ :: _ =>
        let cache := cache_file category selected_files in
        match cached_json w !! cache with
        | Some common_metrics => (w, Loaded common_metrics)
        | None =>
            if button then
              match environ w with
              | None => (w, ErrorNoKey)
              | Some [] => (w, ErrorNoKey)
              | Some _ =>
                  let dfs := dataframes w category selected_files in
                  if (length dfs <? 2)%nat then (w, Insufficient)
                  else
                    let tables := JArr (map to_records dfs) in
                    let w1 := set_calls (S (calls w)) w in
                    match generate_content (calls w)
                            [JStr (COMPARE_PROMPT category); tables] with
                    | Raise e => (w1, Crashed e)
                    | Ok None => (w1, Crashed TypeError)
                    | Ok (Some response_text) =>
                        match loads (extract_json response_text) with
                        | Some common_metrics =>
                            (put_cached cache common_metrics w1,
                             Compared common_metrics)
                        | None => (w1, InvalidJson)
                        end
                    end
              end
            else (w, Waiting)
        end
    end
  end.

End Page.

End CompareMetrics.

(* ===================================================================== *)
(** ** app/extractor/compare_metrics.py: showing the groups *)
(* ===================================================================== *)

Module CompareDisplay.

Import Json.

(** What the page puts on the screen while it shows the groups:
    [st.subheader(body)], the warning of a group without datasets (with
    the name that its f-string formats), [st.dataframe] of the table
    built from [table_data], and the subheader that counts the groups. *)
Abbreviation table := (list (str * list json)).

Inductive shown : Type :=
| Subheader (body : json)
| NoDatasets (common_metric_name : json)
| Dataframe (table_data : table)
| NoCommonMetrics
| GroupsFound (n : nat).

Definition COMMON_METRIC : str := Eval cbv in u "common_metric".
Definition UNNAMED_METRIC : str := Eval cbv in u "Unnamed Metric".
Definition DATASET_ : str := Eval cbv in u "dataset_".
Definition METRIC_NAME : str := Eval cbv in u "metric_name".
Definition VALUE : str := Eval cbv in u "value".
Definition UNIT : str := Eval cbv in u "unit".
Definition YEAR : str := Eval cbv in u "year".
Definition SOURCE : str := Eval cbv in u "source".
Definition METRIC_NAME_SUFFIX : str := Eval cbv in u "_metric_name".
Definition VALUE_SUFFIX : str := Eval cbv in u "_value".
Definition UNIT_SUFFIX : str := Eval cbv in u "_unit".
Definition YEAR_SUFFIX : str := Eval cbv in u "_year".
Definition SOURCE_SUFFIX : str := Eval cbv in u "_source".

(** [for x in v]: the items of a list, the keys of a dict, the
    characters of a str; nothing else can be iterated. *)
Definition iter (v : json) : result (list json) :=
  match v with
  | JArr items => Ok items
  | JObj members => Ok (map (fun kv => JStr (fst kv)) members)
  | JStr s => Ok (map (fun c => JStr [c]) s)
  | _ => Raise TypeError
  end.

(** [v.get(k, default)]: only a dict has the method. *)
Definition get_or (k : str) (default : json) (v : json) : result json :=
  match v with
  | JObj d => Ok (match dict_get k d with Some x => x | None => default end)
  | _ => Raise AttributeError
  end.

(** [[entry.get(k, "") for entry in entries]] *)
Fixpoint column (k : str) (entries : list json) : result (list json) :=
  match entries with
  | [] => Ok []
  | entry :: rest =>
      bind (get_or k (JStr []) entry) (fun v =>
      bind (column k rest) (fun vs => Ok (v :: vs)))
  end.

(** [l += [""] * (max_len - len(l))]: a product by a negative number is
    the empty list. *)
Definition pad (max_len : nat) (l : list json) : list json :=
  l ++ repeat (JStr []) (max_len - length l).

(** [key.startswith("dataset_")] over [group.keys()] *)
Definition dataset_keys (group : dict) : list str :=
  List.filter (fun key => match strip_prefix DATASET_ key with
                          | Some _ => true
                          | None => false
                          end) (map fst group).

(** The lengths that the generator of line 35 yields: one for every
    dataset key whose value is a list. *)
Definition list_lengths (group : dict) (keys : list str) : list nat :=
  flat_map (fun key => match dict_get key group with
                       | Some (JArr items) => [length items]
                       | _ => []
                       end) keys.

(** [max(...)]: of nothing it is a [ValueError]. *)
Definition max_of (l : list nat) : result nat :=
  match l with
  | [] => Raise ValueError
  | n :: l' => Ok (fold_left Nat.max l' n)
  end.

(** [table_data[k] = col] *)
Fixpoint table_set (k : str) (col : list json) (t : table) : table :=
  match t with
  | [] => [(k, col)]
  | (k', col') :: t' =>
      if str_eqb k' k then (k', col) :: t' else (k', col') :: table_set k col t'
  end.

(** The loop of lines 39-60 over the dataset keys. *)
Fixpoint fill (group : dict) (max_len : nat) (keys : list str)
    (table_data : table) : result table :=
  match keys with
  | [] => Ok table_data
  | dataset_key :: rest =>
      let entries :=
        match dict_get dataset_key group with Some v => v | None => JArr [] end in
      bind (iter entries) (fun es =>
      bind (column METRIC_NAME es) (fun metric_names =>
      bind (column VALUE es) (fun values =>
      bind (column UNIT es) (fun units =>
      bind (column YEAR es) (fun years =>
      bind (column SOURCE es) (fun sources =>
        fill group max_len rest
          (table_set (dataset_key ++ SOURCE_SUFFIX) (pad max_len sources)
          (table_set (dataset_key ++ YEAR_SUFFIX) (pad max_len years)
          (table_set (dataset_key ++ UNIT_SUFFIX) (pad max_len units)
          (table_set (dataset_key ++ VALUE_SUFFIX) (pad max_len values)
          (table_set (dataset_key ++ METRIC_NAME_SUFFIX) (pad max_len metric_names)
             table_data)))))))))))
  end.

(** [pd.DataFrame(table_data)] for a dict of lists: lists of different
    lengths are a [ValueError]. *)
Definition DataFrame (table_data : table) : result table :=
  match table_data with
  | [] => Ok []
  | (_, col) :: rest =>
      if forallb (fun kc => Nat.eqb (length (snd kc)) (length col)) rest
      then Ok table_data
      else Raise ValueError
  end.

(** The body of the loop of [display_common_metrics_tables] for one
    group: what it shows, and the exception that ends it, if any. *)
Definition display_group (group : json) : list shown * option exn :=
  match group with
  | JObj d =>
      let common_metric_name :=
        match dict_get COMMON_METRIC d with
        | Some x => x
        | None => JStr UNNAMED_METRIC
        end in
      match dataset_keys d with
      | [] => ([Subheader common_metric_name; NoDatasets common_metric_name], None)
      | keys =>
          match max_of (list_lengths d keys) with
          | Raise e => ([Subheader common_metric_name], Some e)
          | Ok max_len =>
              match bind (fill d max_len keys []) DataFrame with
              | Raise e => ([Subheader common_metric_name], Some e)
              | Ok df => ([Subheader common_metric_name; Dataframe df], None)
              end
          end
      end
  | _ => ([], Some AttributeError)
  end.

Fixpoint display_groups (groups : list json) : list shown * option exn :=
  match groups with
  | [] => ([], None)
  | group :: rest =>
      match display_group group with
      | (out, Some e) => (out, Some e)
      | (out, None) =>
          let (out', r) := display_groups rest in (out ++ out', r)
      end
  end.

(** [display_common_metrics_tables] *)
Definition display_common_metrics_tables (common_metrics : json)
    : list shown * option exn :=
  match iter common_metrics with
  | Raise e => ([], Some e)
  | Ok groups => display_groups groups
  end.

(** The exponent of a float literal: what follows its [e]. *)
Definition exponent_of (ep : str) : Z :=
  match ep with
  | _ :: c :: r =>
      if c =? 45 then (- Z.of_N (N.of_uint (uint_of_digits r)))%Z
      else if c =? 43 then Z.of_N (N.of_uint (uint_of_digits r))
      else Z.of_N (N.of_uint (uint_of_digits (c :: r)))
  | _ => 0%Z
  end.

(** Whether the float that a literal denotes is zero: its digits are
    all zero, or its value [m * 10^e] is at most [2^-1075], half of the
    least positive double, and is rounded to zero. *)
Definition float_is_zero (lexeme : str) : bool :=
  let s := match lexeme with
           | c :: r => if c =? 45 then r else lexeme
           | [] => []
           end in
  match scan_int_part s with
  | None => false
  | Some (ip, s2) =>
      let (fp, s3) := scan_frac s2 in
      let (ep, _) := scan_exp s3 in
      let frac_digits := tl fp in
      let m := N.of_uint (uint_of_digits (ip ++ frac_digits)) in
      let e := (exponent_of ep - Z.of_nat (length frac_digits))%Z in
      (m =? 0) || ((e <? 0)%Z && (Z.of_N m * 2 ^ 1075 <=? 10 ^ (- e))%Z)
  end.

(** [bool(v)] *)
Definition truthy (v : json) : bool :=
  match v with
  | JNull => false
  | JBool b => b
  | JInt z => negb (z =? 0)%Z
  | JFloat lexeme => negb (float_is_zero lexeme)
  | JStr [] => false
  | JStr (_ :: _) => true
  | JArr [] => false
  | JArr (_ :: _) => true
  | JObj [] => false
  | JObj (_ :: _) => true
  end.

(** [len(v)] *)
Definition len (v : json) : result nat :=
  match v with
  | JStr s => Ok (length s)
  | JArr items => Ok (length items)
  | JObj members => Ok (length members)
  | _ => Raise TypeError
  end.

(** Step 3 of [compare_metrics_page] (lines 197-203), for the value that
    was loaded from the cache or decoded from the response. *)
Definition display_results (common_metrics : json) : list shown * option exn :=
  if truthy common_metrics then
    match len common_metrics with
    | Raise e => ([], Some e)
    | Ok n =>
        let (out, r) := display_common_metrics_tables common_metrics in
        (GroupsFound n :: out, r)
    end
  else ([NoCommonMetrics], None).

(** What a run of the page shows after its outcome. *)
Definition step3 (o : CompareMetrics.outcome) : list shown * option exn :=
  match o with
  | CompareMetrics.Loaded common_metrics => display_results common_metrics
  | CompareMetrics.Compared common_metrics => display_results common_metrics
  | _ => ([], None)
  end.

End CompareDisplay.

(* ===================================================================== *)
(** ** app/main.py: the JSON cleanup helper *)
(* ===================================================================== *)

Module MainJson.

(** The pattern [```(?:json)?\s*(\[\s*{.*}\s*\])\s*```] under
    [re.DOTALL]; a brace that opens no repetition is a literal. *)
Definition FENCED_OBJECTS : Re.re :=
  Re.Seq (Re.lits CompareMetrics.TICKS)
    (Re.Seq (Re.Opt (Re.lits CompareMetrics.JSON_TAG))
      (Re.Seq (Re.Star Re.ws)
        (Re.Seq
          (Re.Grp
            (Re.Seq (Re.Lit 91)
              (Re.Seq (Re.Star Re.ws)
                (Re.Seq (Re.Lit 123)
                  (Re.Seq (Re.Star Re.any)
                    (Re.Seq (Re.Lit 125)
                      (Re.Seq (Re.Star Re.ws) (Re.Lit 93))))))))
          (Re.Seq (Re.Star Re.ws) (Re.lits CompareMetrics.TICKS))))).

(** [extract_json] of main.py *)
Definition extract_json (text : str) : str :=
  let text :=
    match Re.search FENCED_OBJECTS text with
    | Some m =>
        match Re.group1 m with
        | Some g => g
        | None => text
        end
    | None => text
    end in
  strip text.

End MainJson.

(* ===================================================================== *)
(** ** app/mainModel1.py: the helpers of the one-request page *)
(* ===================================================================== *)

Module MainModel1.

Import Json.

(** A character of the pattern text [json] under [re.IGNORECASE]: the
    letter in either case, and for [s] also U+017F (long s), which the
    compiler of patterns adds because it shares its upper case with
    [s]. *)
Definition ci_char (p c : N) : bool :=
  (c =? p) || (c =? p - 32) || ((p =? 115) && (c =? 383)).

Fixpoint starts_ci (p s : str) : bool :=
  match p, s with
  | [], _ => true
  | a :: p', b :: s' => ci_char a b && starts_ci p' s'
  | _ :: _, [] => false
  end.

(** [$] under [re.MULTILINE]: the end of the text, or a line feed
    next. *)
Definition at_eol (s : str) : bool :=
  match s with
  | [] => true
  | c :: _ => c =? 10
  end.

(** [re.sub(r"^```json|```$", "", s, flags=re.IGNORECASE | re.MULTILINE)],
    from left to right.  [bol] says that the position is the start of
    the text or follows a line feed ([^] under [re.MULTILINE]); [skip]
    counts the characters of a match that are still to be dropped. *)
Fixpoint sub_fences (skip : nat) (bol : bool) (s : str) : str :=
  match s with
  | [] => []
  | c :: s' =>
      match skip with
      | S n => sub_fences n false s'
      | O =>
          match strip_prefix CompareMetrics.TICKS s with
          | Some r =>
              if bol && starts_ci CompareMetrics.JSON_TAG r
              then sub_fences 6 false s'
              else if at_eol r then sub_fences 2 false s'
              else c :: sub_fences 0 (c =? 10) s'
          | None => c :: sub_fences 0 (c =? 10) s'
          end
      end
  end.

(** [parse_gemini_output]: the object that is returned, and whether the
    warning "Gemini output is not valid JSON" was shown. *)
Definition parse_gemini_output (output : json) : json * bool :=
  match output with
  | JArr _ | JObj _ => (output, false)
  | JStr s =>
      let cleaned := strip (sub_fences 0 true (strip s)) in
      match Re.search GeminiExtractor.SPAN cleaned with
      | None => (JObj [], false)
      | Some m =>
          match loads (Re.group0 m) with
          | Some v => (v, false)
          | None => (JObj [], true)
          end
      end
  | _ => (JObj [], false)
  end.

(** [[item for item in items if isinstance(item, dict)]] *)
Definition dict_items (items : list json) : list dict :=
  flat_map (fun item => match item with JObj d => [d] | _ => [] end) items.

(** [flatten_metrics] *)
Definition flatten_metrics (data : json) : list dict :=
  match data with
  | JArr items => dict_items items
  | JObj members =>
      flat_map (fun kv =>
                  match snd kv with
                  | JArr items => dict_items items
                  | JObj d => [d]
                  | _ => []
                  end) members
  | _ => []
  end.

End MainModel1.

(* ===================================================================== *)
(** ** Notions and inputs of the statements *)
(* ===================================================================== *)

Module Notions.

Import Json Pandas Store.

(** What may follow a value inside a document: nothing, a comma, or a
    closing bracket or brace. *)
Definition delimited (rest : str) : Prop :=
  match rest with
  | [] => True
  | c :: _ => c = 44 \/ c = 93 \/ c = 125
  end.

(** What the first character of an encoded value is not: white space,
    a comma, a closing bracket or brace. *)
Definition starts_value (c : N) : Prop :=
  is_json_ws c = false /\ c <> 44 /\ c <> 93 /\ c <> 125.

(** The units of fuel that suffice to decode what [dumps] writes. *)
Fixpoint jsize (v : json) : nat :=
  match v with
  | JArr items => S (list_sum (map (fun x => S (jsize x)) items))
  | JObj members => S (list_sum (map (fun kv => S (jsize (snd kv))) members))
  | _ => 1
  end.

(** [s] has none of the characters [chars]. *)
Definition free_of (chars : list N) (s : str) : bool :=
  forallb (fun c => negb (existsb (N.eqb c) chars)) s.

(** A response that wraps the text of an array in a fence tagged json,
    between a prefix and a suffix. *)
Definition OPEN_FENCE : str := Eval cbv in u "```json
".

Definition CLOSE_FENCE : str := Eval cbv in u "
```".

Definition fenced (prefix array suffix : str) : str :=
  prefix ++ OPEN_FENCE ++ array ++ CLOSE_FENCE ++ suffix.

(** The dicts among the items of a list, in order. *)
Definition dicts_of (items : list json) : list dict :=
  flat_map (fun item => match item with JObj d => [d] | _ => [] end) items.

(** A response in which the model explains itself with a bracketed
    remark. *)
Definition BRACKETED_REMARK : str :=
  Eval cbv in u "No metrics on this page [cover].".

(** An oracle that answers every request with the same text. *)
Definition always (response_text : str) : Oracle.oracle :=
  fun _ _ => Ok (Some response_text).

(** A world in which nothing has been stored and no request was made. *)
Definition fresh : world := World None ∅ ∅ 0.

Definition KEY : str := Eval cbv in u "secret".

Definition REPORT : Main.upload :=
  Main.Upload (u "report.pdf") [u "Scope 1 emissions: 100 tCO2e (2023)"].

(** A response without JSON, and the empty list of a page without
    metrics. *)
Definition NO_DATA : str := Eval cbv in u "no data".
Definition EMPTY_LIST : str := Eval cbv in u "[]".

(** A full record and a record without unit and year, both normalised. *)
Definition FULL_RECORD : dict :=
  Eval cbv in
    [(u "metric_name", JStr (u "Scope 1")); (u "value", JStr (u "100"));
     (u "unit", JStr (u "tCO2e")); (u "year", JInt 2023);
     (u "source_page", JInt 1);
     (u "source", JStr (u "report.pdf - page 1"));
     (u "category", JStr (u "Environmental"))].

Definition PARTIAL_RECORD : dict :=
  Eval cbv in
    [(u "metric_name", JStr (u "Board size")); (u "value", JInt 9);
     (u "source_page", JInt 2);
     (u "source", JStr (u "report.pdf - page 2"));
     (u "category", JStr (u "governance"))].

(** The record of the end-to-end scenario, the response that carries
    it, and the table that the page stores for it. *)
Definition SCOPE1 : dict :=
  Eval cbv in
    [(u "metric_name", JStr (u "Scope 1")); (u "value", JStr (u "100"));
     (u "unit", JStr (u "tCO2e")); (u "year", JStr (u "2023"));
     (u "category", JStr (u "environmental"))].

Definition SCOPE1_RESPONSE : str := Eval cbv in dumps (JArr [JObj SCOPE1]).

Definition SCOPE1_TABLE : frame :=
  Eval cbv in
    Frame Main.columns_order
      [[(u "metric_name", JStr (u "Scope 1")); (u "value", JStr (u "100"));
        (u "unit", JStr (u "tCO2e")); (u "year", JStr (u "2023"));
        (u "category", JStr (u "environmental"));
        (u "source", JStr (u "report.pdf - page 1"))]].

(** The world after the report was processed with that response. *)
Definition after_scope1 : world :=
  put_result (u "report.csv") SCOPE1_TABLE (World (Some KEY) ∅ ∅ 1).

(** Two stored tables: the first has a row of the category
    Environmental, the second has only a row of the category Social. *)
Definition TABLE_A : frame :=
  Eval cbv in
    Frame Main.columns_order
      [[(u "metric_name", JStr (u "Scope 1")); (u "value", JInt 100);
        (u "unit", JStr (u "tCO2e")); (u "year", JInt 2023);
        (u "category", JStr (u "Environmental"));
        (u "source", JStr (u "a.pdf - page 1"))]].

Definition TABLE_B : frame :=
  Eval cbv in
    Frame Main.columns_order
      [[(u "metric_name", JStr (u "Women in management")); (u "value", JInt 41);
        (u "unit", JStr (u "%")); (u "year", JInt 2023);
        (u "category", JStr (u "Social"));
        (u "source", JStr (u "b.pdf - page 4"))]].

Definition A_CSV : str := Eval cbv in u "a.csv".
Definition B_CSV : str := Eval cbv in u "b.csv".

Definition two_tables : world :=
  World (Some KEY) (<[B_CSV := TABLE_B]> (<[A_CSV := TABLE_A]> ∅)) ∅ 0.

(** The world after the two tables were compared for Environmental. *)
Definition after_comparison : world :=
  put_cached
    (CompareMetrics.cache_file Main.ENVIRONMENTAL [A_CSV; B_CSV]) (JArr [])
    (set_calls 1 two_tables).





(** The page number of a chunk: [chunk.get("page_number")]. *)
Definition page_number_of (chunk : dict) : json :=
  match dict_get GeminiExtractor.PAGE_NUMBER chunk with
  | Some v => v
  | None => JNull
  end.

(** A record that cites a page [p] of the file, after [lo] and up to
    [hi], in its source_page and in its source. *)
Definition cites_page (file_name : str) (lo hi : Z) (r : dict) : Prop :=
  exists p : Z, (lo < p <= hi)%Z /\
    dict_get GeminiExtractor.SOURCE_PAGE r = Some (JInt p) /\
    dict_get Main.SOURCE r
    = Some (JStr (file_name ++ Main.PAGE_INFIX ++ str_of_int p)).

(** A record whose category is a string that capitalizes to one of the
    three categories. *)
Definition has_known_category (r : dict) : Prop :=
  exists s, dict_get Main.CATEGORY r = Some (JStr s) /\
    Pandas.mem (capitalize s)
      [Main.ENVIRONMENTAL; Main.SOCIAL; Main.GOVERNANCE] = true.

(** The two stored tables in a world without a key. *)
Definition keyless_tables : world :=
  World None (<[B_CSV := TABLE_B]> (<[A_CSV := TABLE_A]> ∅)) ∅ 0.

(** [table_data.get(k)] *)
Fixpoint table_get (k : str) (t : CompareDisplay.table) : option (list json) :=
  match t with
  | [] => None
  | (k', col) :: t' => if str_eqb k' k then Some col else table_get k t'
  end.

(** The field [f] of an entry, [""] when it has none. *)
Definition field_of (f : str) (entry : json) : json :=
  match entry with
  | JObj e => match dict_get f e with Some x => x | None => JStr [] end
  | _ => JStr []
  end.

(** The fields of an entry that are shown, each with the suffix of its
    column. *)
Definition FIELDS : list (str * str) :=
  [(CompareDisplay.METRIC_NAME, CompareDisplay.METRIC_NAME_SUFFIX);
   (CompareDisplay.VALUE, CompareDisplay.VALUE_SUFFIX);
   (CompareDisplay.UNIT, CompareDisplay.UNIT_SUFFIX);
   (CompareDisplay.YEAR, CompareDisplay.YEAR_SUFFIX);
   (CompareDisplay.SOURCE, CompareDisplay.SOURCE_SUFFIX)].

(** A group as the prompt asks for it: a dict in which every value
    under a key that starts with dataset_ is a list of dicts. *)
Definition well_formed_group (group : json) : bool :=
  match group with
  | JObj d =>
      forallb (fun key => match dict_get key d with
                          | Some (JArr items) => forallb is_dict items
                          | _ => false
                          end) (CompareDisplay.dataset_keys d)
  | _ => false
  end.

(** The name under which a group is shown:
    [group.get("common_metric", "Unnamed Metric")]. *)
Definition shown_name (d : dict) : json :=
  match dict_get CompareDisplay.COMMON_METRIC d with
  | Some x => x
  | None => JStr CompareDisplay.UNNAMED_METRIC
  end.

(** A group shown in full: [out] is all that the body of the loop shows
    for it, without an exception: the subheader with its name, then the
    warning with its name when it has no dataset key, a table
    otherwise. *)
Definition shown_in_full (group : json) (out : list CompareDisplay.shown)
    : Prop :=
  CompareDisplay.display_group group = (out, None) /\
  exists d, group = JObj d /\
    ((CompareDisplay.dataset_keys d = [] /\
      out = [CompareDisplay.Subheader (shown_name d);
             CompareDisplay.NoDatasets (shown_name d)]) \/
     (CompareDisplay.dataset_keys d <> [] /\
      exists t, out = [CompareDisplay.Subheader (shown_name d);
                       CompareDisplay.Dataframe t])).

(** A group with two entries in its first dataset and one in its
    second, and the table that is shown for it. *)
Definition GHG_GROUP : dict :=
  Eval cbv in
    [(u "common_metric", JStr (u "GHG emissions"));
     (u "dataset_1",
      JArr [JObj [(u "metric_name", JStr (u "Scope 1")); (u "value", JInt 100)];
            JObj [(u "metric_name", JStr (u "Scope 2")); (u "value", JInt 50)]]);
     (u "dataset_2",
      JArr [JObj [(u "metric_name", JStr (u "Direct emissions"));
                  (u "value", JInt 90)]])].

Definition GHG_TABLE : CompareDisplay.table :=
  Eval cbv in
    match fst (CompareDisplay.display_group (JObj GHG_GROUP)) with
    | [_; CompareDisplay.Dataframe t] => t
    | _ => []
    end.

(** A group whose datasets are objects, not lists. *)
Definition KEYED_GROUP : dict :=
  Eval cbv in
    [(u "common_metric", JStr (u "Water use"));
     (u "dataset_1", JObj [(u "metric_name", JStr (u "Water withdrawal"))])].

(** An answer that is a number, and the world after it was compared
    for the two tables. *)
Definition NUMBER : str := Eval cbv in u "42".

Definition after_number : world :=
  put_cached
    (CompareMetrics.cache_file Main.ENVIRONMENTAL [A_CSV; B_CSV]) (JInt 42)
    (set_calls 1 two_tables).

(** A pattern that matches only text with the character [c] in it. *)
Fixpoint requires (c : N) (r : Re.re) : bool :=
  match r with
  | Re.Eps => false
  | Re.Lit x => x =? c
  | Re.Seq r1 r2 => requires c r1 || requires c r2
  | Re.Alt r1 r2 => requires c r1 && requires c r2
  | Re.Opt _ => false
  | Re.Star _ => false
  | Re.Grp r1 => requires c r1
  end.

(** A fence around an empty list. *)
Definition FENCED_EMPTY : str := Eval cbv in fenced [] EMPTY_LIST [].

(** A row as the extraction page leaves it: its category is known and
    its source names the file and a page. *)
Definition normalised_row (file_name : str) (r : dict) : Prop :=
  has_known_category r /\
  exists p : Z, (0 < p)%Z /\
    dict_get Main.SOURCE r
    = Some (JStr (file_name ++ Main.PAGE_INFIX ++ str_of_int p)).

(** Another document under the name of the report. *)
Definition OTHER_REPORT : Main.upload :=
  Main.Upload (u "report.pdf") [u "Board size: 9"; u "Water use: 12 ML"].

(** The identifier of a selected file in the name of the cache file:
    its name without extension, spaces replaced by underscores. *)
Definition identifier (f : str) : str :=
  replace_char 32 CompareMetrics.UNDERSCORE (Paths.splitext_root f).

(** A selection none of whose identifiers has an underscore. *)
Definition underscore_free (selected_files : list str) : bool :=
  forallb (fun f => free_of [95] (identifier f)) selected_files.

(** A record with every field the prompt asks for but the year, the
    response that carries it, and the record as the loop of the page
    leaves it. *)
Definition NO_YEAR : dict :=
  Eval cbv in
    [(u "metric_name", JStr (u "Board size")); (u "value", JInt 9);
     (u "unit", JStr (u "members")); (u "category", JStr (u "governance"))].

Definition NO_YEAR_RESPONSE : str := Eval cbv in dumps (JArr [JObj NO_YEAR]).

Definition NO_YEAR_ROW : dict :=
  Eval cbv in
    NO_YEAR ++ [(u "source_page", JInt 1);
                (u "source", JStr (u "report.pdf - page 1"))].

(** The worlds after one and after two requests, with nothing stored. *)
Definition asked_once : world := World (Some KEY) ∅ ∅ 1.
Definition asked_twice : world := World (Some KEY) ∅ ∅ 2.

(** [r] is the dict [d] with its source_page set to [page]: that cell
    holds [page], every other cell is the cell of [d], and the keys keep
    their order, with source_page last when [d] did not have it. *)
Definition stamped_from (page : json) (d r : dict) : Prop :=
  dict_get GeminiExtractor.SOURCE_PAGE r = Some page /\
  (forall k, k <> GeminiExtractor.SOURCE_PAGE -> dict_get k r = dict_get k d) /\
  map fst r = if has_key GeminiExtractor.SOURCE_PAGE d then map fst d
              else map fst d ++ [GeminiExtractor.SOURCE_PAGE].

(** An array that mixes two records with items of every other kind; the
    second record comes with a source_page of its own.  The response
    that carries it, alone and inside prose. *)
Definition MIXED_ITEMS : list json :=
  Eval cbv in
    [JObj SCOPE1; JInt 5; JNull; JStr (u "n/a"); JArr [JObj SCOPE1];
     JObj [(u "source_page", JInt 9); (u "metric_name", JStr (u "Board size"))]].

Definition MIXED_RESPONSE : str := Eval cbv in dumps (JArr MIXED_ITEMS).

Definition MIXED_IN_PROSE : str :=
  Eval cbv in u "Here you go: " ++ MIXED_RESPONSE ++ u " Anything else?".

Definition MIXED_RECORDS : list dict :=
  Eval cbv in
    [SCOPE1 ++ [(u "source_page", JInt 3)];
     [(u "source_page", JInt 3); (u "metric_name", JStr (u "Board size"))]].

End Notions.

Import Json.

Module DictFacts.

Lemma str_eqb_refl (a : str) : str_eqb a a = true.
Proof. unfold str_eqb. apply bool_decide_eq_true. reflexivity. Qed.

Lemma str_eqb_eq (a b : str) : str_eqb a b = true <-> a = b.
Proof. unfold str_eqb. apply bool_decide_eq_true. Qed.

Lemma str_eqb_neq (a b : str) : str_eqb a b = false <-> a <> b.
Proof. unfold str_eqb. apply bool_decide_eq_false. Qed.

Lemma dict_get_set_same (k : str) (v : json) (d : dict) :
  dict_get k (dict_set k v d) = Some v.
Proof.
  induction d as [|[k' v'] d IH]; simpl.
  - now rewrite str_eqb_refl.
  - destruct (str_eqb k' k) eqn:E; simpl; rewrite E; auto.
Qed.

Lemma dict_get_set_other (k k0 : str) (v : json) (d : dict) :
  k0 <> k -> dict_get k (dict_set k0 v d) = dict_get k d.
Proof.
  intros Hne. induction d as [|[k' v'] d IH]; simpl.
  - apply str_eqb_neq in Hne. now rewrite Hne.
  - destruct (str_eqb k' k0) eqn:E; simpl.
    + apply str_eqb_eq in E. subst k'.
      apply str_eqb_neq in Hne. now rewrite Hne.
    + now rewrite IH.
Qed.

End DictFacts.

(* ===================================================================== *)
(** ** Reconciliation of one response *)
(* ===================================================================== *)

Module Reconcile.

Import GeminiExtractor DictFacts Notions.

Lemma records_of_list (items : list json) (page : json) :
  records_of (JArr items) page = map (stamp page) (dicts_of items).
Proof.
  unfold dicts_of. simpl.
  induction items as [|item items IH]; simpl; [reflexivity|].
  rewrite IH. destruct item; reflexivity.
Qed.

Lemma dicts_of_length (items : list json) :
  length (dicts_of items) = length (List.filter is_dict items).
Proof.
  induction items as [|item items IH]; simpl; [reflexivity|].
  unfold dicts_of in *. simpl. destruct item; simpl; auto.
Qed.

Lemma stamp_source_page (page : json) (d : dict) :
  dict_get SOURCE_PAGE (stamp page d) = Some page.
Proof. apply dict_get_set_same. Qed.

Lemma stamp_other (page : json) (d : dict) (k : str) :
  k <> SOURCE_PAGE -> dict_get k (stamp page d) = dict_get k d.
Proof. intros H. apply dict_get_set_other. congruence. Qed.

(** When nothing parses and no span is found, the response is kept as
    one synthetic record. *)
Lemma reconcile_no_span (raw_text : str) (page : json) :
  loads raw_text = None ->
  Re.search SPAN raw_text = None ->
  reconcile raw_text page = Ok [unparsed raw_text page].
Proof. intros H1 H2. unfold reconcile. now rewrite H1, H2. Qed.

(** [reconcile] raises exactly when the text is no JSON and the span
    that the pattern finds is no JSON either. *)
Lemma reconcile_raises_iff (raw_text : str) (page : json) (e : exn) :
  reconcile raw_text page = Raise e <->
  e = JSONDecodeError /\ loads raw_text = None /\
  exists m, Re.search SPAN raw_text = Some m /\ loads (Re.group0 m) = None.
Proof.
  unfold reconcile. split.
  - destruct (loads raw_text); [discriminate|].
    destruct (Re.search SPAN raw_text) as [m|]; [|discriminate].
    destruct (loads (Re.group0 m)) eqn:E; [discriminate|].
    intros [= <-]. eauto.
  - intros (-> & -> & m & -> & ->). reflexivity.
Qed.

(** C1 (code at the failing input): the response is no JSON, the pattern
    finds the span [[cover]], and parsing that span raises
    [json.JSONDecodeError] out of the [except] clause: [reconcile]
    raises, and so does [extract_metrics] on a chunk with that
    response, after one request. *)
Theorem reconcile_raises_on_bracketed_prose :
  reconcile (strip BRACKETED_REMARK) (JInt 1) = Raise JSONDecodeError /\
  extract_metrics (always BRACKETED_REMARK) 0
    [[(PAGE_NUMBER, JInt 1); (TEXT, JStr (u "Cover page"))]]
  = (1%nat, Raise JSONDecodeError).
Proof. split; vm_compute; reflexivity. Qed.

Lemma dict_set_keys (k : str) (v : json) (d : dict) :
  map fst (dict_set k v d)
  = if has_key k d then map fst d else map fst d ++ [k].
Proof.
  unfold has_key. induction d as [|[k' v'] d IH]; simpl; [reflexivity|].
  destruct (str_eqb k' k); simpl; [reflexivity|].
  rewrite IH. now destruct (dict_get k d).
Qed.

Lemma stamp_stamped_from (page : json) (d : dict) :
  stamped_from page d (stamp page d).
Proof.
  split; [apply stamp_source_page|].
  split; [intros k Hk; now apply stamp_other | apply dict_set_keys].
Qed.

Lemma records_of_array (items : list json) (page : json) :
  Forall2 (stamped_from page) (dicts_of items) (records_of (JArr items) page) /\
  length (records_of (JArr items) page) = length (List.filter is_dict items).
Proof.
  rewrite records_of_list. split.
  - induction (dicts_of items) as [|d ds IH]; simpl; constructor;
      [apply stamp_stamped_from | exact IH].
  - now rewrite length_map, dicts_of_length.
Qed.

(** C10: when the response parses as a JSON array, directly or through
    the span of the pattern, there is one record for each dict among the
    items of the array, in order, and none for any other item: the
    record of a dict holds the page under source_page and, under every
    other key, what the dict holds there (so no raw_output the dict did
    not have), with the keys of the dict in their order. *)
Theorem array_items_become_records (raw_text : str) (page : json)
    (items : list json) :
  loads raw_text = Some (JArr items) \/
  (loads raw_text = None /\
   exists m, Re.search SPAN raw_text = Some m /\
             loads (Re.group0 m) = Some (JArr items)) ->
  exists records,
    reconcile raw_text page = Ok records /\
    length records = length (List.filter is_dict items) /\
    Forall2 (fun d r =>
               dict_get SOURCE_PAGE r = Some page /\
               (forall k, k <> SOURCE_PAGE -> dict_get k r = dict_get k d) /\
               map fst r = if has_key SOURCE_PAGE d then map fst d
                           else map fst d ++ [SOURCE_PAGE])
            (dicts_of items) records.
Proof.
  intros H. exists (records_of (JArr items) page).
  destruct (records_of_array items page) as [HF HL].
  split; [|split; [exact HL | exact HF]].
  unfold reconcile.
  destruct H as [-> | (-> & m & -> & ->)]; reflexivity.
Qed.

Lemma array_items_become_records_witness :
  (exists records,
     reconcile MIXED_RESPONSE (JInt 3) = Ok records /\
     length records = 2%nat /\
     Forall2 (stamped_from (JInt 3)) (dicts_of MIXED_ITEMS) records) /\
  (exists records,
     reconcile MIXED_IN_PROSE (JInt 3) = Ok records /\
     length records = 2%nat /\
     Forall2 (stamped_from (JInt 3)) (dicts_of MIXED_ITEMS) records).
Proof.
  split.
  - apply (array_items_become_records MIXED_RESPONSE (JInt 3) MIXED_ITEMS).
    left. vm_compute. reflexivity.
  - apply (array_items_become_records MIXED_IN_PROSE (JInt 3) MIXED_ITEMS).
    right. split; [vm_compute; reflexivity|].
    exists (Re.MatchObj MIXED_RESPONSE (Some MIXED_RESPONSE)).
    split; vm_compute; reflexivity.
Defined.

(** The records of the mixed array, as they are. *)
Lemma mixed_array_records :
  reconcile MIXED_RESPONSE (JInt 3) = Ok MIXED_RECORDS /\
  reconcile MIXED_IN_PROSE (JInt 3) = Ok MIXED_RECORDS.
Proof. split; vm_compute; reflexivity. Qed.

End Reconcile.

(* ===================================================================== *)
(** ** The extraction page *)
(* ===================================================================== *)

Module Normalizer.

Import GeminiExtractor Pandas Main DictFacts Notions.

Lemma source_is_not_category : SOURCE <> CATEGORY.
Proof. discriminate. Qed.

Lemma normalize_str (file_name : str) (m : dict) (s : str) :
  dict_get CATEGORY m = Some (JStr s) ->
  exists m', normalize file_name m = Ok m' /\
    dict_get CATEGORY m' =
      Some (JStr (if mem (capitalize s) [ENVIRONMENTAL; SOCIAL; GOVERNANCE]
                  then s else ENVIRONMENTAL)).
Proof.
  intros H. unfold normalize, capitalized_category.
  rewrite dict_get_set_other by apply source_is_not_category.
  rewrite H.
  destruct (mem (capitalize s) _).
  - eexists; split; [reflexivity|].
    now rewrite dict_get_set_other by apply source_is_not_category.
  - eexists; split; [reflexivity|]. apply dict_get_set_same.
Qed.

Lemma normalize_missing (file_name : str) (m : dict) :
  dict_get CATEGORY m = None ->
  exists m', normalize file_name m = Ok m' /\
    dict_get CATEGORY m' = Some (JStr ENVIRONMENTAL).
Proof.
  intros H. unfold normalize, capitalized_category.
  rewrite dict_get_set_other by apply source_is_not_category.
  rewrite H. simpl.
  eexists; split; [reflexivity|]. apply dict_get_set_same.
Qed.

(** C3 (as amended): a category that is a string whose capitalized form
    is Environmental, Social or Governance is left as it was written;
    any other string, and a missing category, is replaced by
    Environmental. *)
Theorem category_kept_or_defaulted (file_name : str) (m : dict) :
  (forall s, dict_get CATEGORY m = Some (JStr s) ->
     exists m', normalize file_name m = Ok m' /\
       dict_get CATEGORY m' =
         Some (JStr (if mem (capitalize s) [ENVIRONMENTAL; SOCIAL; GOVERNANCE]
                     then s else ENVIRONMENTAL))) /\
  (dict_get CATEGORY m = None ->
     exists m', normalize file_name m = Ok m' /\
       dict_get CATEGORY m' = Some (JStr ENVIRONMENTAL)).
Proof.
  split; [apply normalize_str | apply normalize_missing].
Qed.

Lemma category_kept_or_defaulted_witness :
  (exists m', normalize (u "r.pdf") [(CATEGORY, JStr (u "ENVIRONMENTAL"))] = Ok m' /\
     dict_get CATEGORY m' = Some (JStr (u "ENVIRONMENTAL"))) /\
  (exists m', normalize (u "r.pdf") [(CATEGORY, JStr (u "Foo"))] = Ok m' /\
     dict_get CATEGORY m' = Some (JStr ENVIRONMENTAL)) /\
  (exists m', normalize (u "r.pdf") [] = Ok m' /\
     dict_get CATEGORY m' = Some (JStr ENVIRONMENTAL)).
Proof.
  split; [|split].
  - apply (proj1 (category_kept_or_defaulted (u "r.pdf")
                    [(CATEGORY, JStr (u "ENVIRONMENTAL"))]) (u "ENVIRONMENTAL")).
    reflexivity.
  - apply (proj1 (category_kept_or_defaulted (u "r.pdf")
                    [(CATEGORY, JStr (u "Foo"))]) (u "Foo")).
    reflexivity.
  - apply (proj2 (category_kept_or_defaulted (u "r.pdf") [])).
    reflexivity.
Defined.

(** C3 (counterexample): the lower-case category "environmental" passes
    the check and is stored as it came, not as "Environmental"; a
    category that is [None] raises instead of being replaced. *)
Lemma category_not_stored_capitalized :
  (exists m', normalize (u "r.pdf") [(CATEGORY, JStr (u "environmental"))] = Ok m' /\
     dict_get CATEGORY m' = Some (JStr (u "environmental")) /\
     dict_get CATEGORY m' <> Some (JStr ENVIRONMENTAL)) /\
  normalize (u "r.pdf") [(CATEGORY, JNull)] = Raise AttributeError.
Proof.
  split.
  - eexists. split; [reflexivity|]. split; [reflexivity|]. discriminate.
  - reflexivity.
Qed.

End Normalizer.

Module Credential.

Import GeminiExtractor Main Store.

(** C9: without a credential the client cannot be constructed, and the
    page stops with the error before it looks at the cache, splits the
    file or makes a request: the world is left as it was. *)
Theorem missing_credential_fails_fast :
  init None None = Raise ValueError /\
  init None (Some []) = Raise ValueError /\
  (forall env, init (Some []) env = Raise ValueError) /\
  (forall generate_content pages_per_part file w,
     extraction_page generate_content [] pages_per_part (Some file) w
     = (w, ErrorNoKey)).
Proof. repeat split. Qed.

End Credential.

Module Aggregator.

Import GeminiExtractor Pandas Main Store DictFacts Notions.

Lemma mem_app (c : str) (l1 l2 : list str) :
  mem c (l1 ++ l2) = mem c l1 || mem c l2.
Proof. unfold mem. apply existsb_app. Qed.

Lemma mem_add_new (c : str) (ks l : list str) :
  mem c (add_new l ks) = mem c l || mem c ks.
Proof.
  revert l. induction ks as [|k ks IH]; intros l; simpl.
  - now rewrite orb_false_r.
  - rewrite IH. destruct (mem k l) eqn:E.
    + destruct (str_eqb c k) eqn:Ek; [|reflexivity].
      apply str_eqb_eq in Ek. subst k. rewrite E. reflexivity.
    + rewrite mem_app. simpl. rewrite orb_false_r, orb_assoc. reflexivity.
Qed.

Lemma has_key_mem (c : str) (r : dict) :
  has_key c r = mem c (map fst r).
Proof.
  unfold has_key. induction r as [|[k v] r IH]; simpl; [reflexivity|].
  destruct (str_eqb k c) eqn:E.
  - apply str_eqb_eq in E. subst. now rewrite str_eqb_refl.
  - destruct (str_eqb c k) eqn:E'.
    + apply str_eqb_eq in E'. subst. rewrite str_eqb_refl in E. discriminate.
    + exact IH.
Qed.

Lemma mem_fold_columns (c : str) (records : list dict) (l : list str) :
  mem c (fold_left (fun cols r => add_new cols (map fst r)) records l)
  = mem c l || existsb (has_key c) records.
Proof.
  revert l. induction records as [|r records IH]; intros l; simpl.
  - now rewrite orb_false_r.
  - rewrite IH, mem_add_new, has_key_mem, orb_assoc. reflexivity.
Qed.

(** A label is a column of [DataFrame(records)] exactly when some record
    has it as a key. *)
Lemma mem_columns_DataFrame (c : str) (records : list dict) :
  mem c (columns (DataFrame records)) = existsb (has_key c) records.
Proof. unfold DataFrame. simpl. apply mem_fold_columns. Qed.

(** The cell of a projected row under a label of the projection is the
    cell of the row, present or missing. *)
Lemma restrict_get (cols : list str) (row : dict) (c : str) :
  dict_get c (restrict cols row)
  = if mem c cols then dict_get c row else None.
Proof.
  unfold restrict. induction cols as [|c0 cols IH]; simpl; [reflexivity|].
  destruct (str_eqb c c0) eqn:E; simpl.
  - apply str_eqb_eq in E. subst c0.
    destruct (dict_get c row) eqn:G; simpl.
    + now rewrite str_eqb_refl.
    + rewrite IH. now destruct (mem c cols).
  - destruct (dict_get c0 row) eqn:G; simpl; [|exact IH].
    destruct (str_eqb c0 c) eqn:E'; [|exact IH].
    apply str_eqb_eq in E'. subst. rewrite str_eqb_refl in E. discriminate.
Qed.

(** The labels of a projected row are labels of the projection, in the
    order of the projection. *)
Lemma restrict_keys (cols : list str) (row : dict) :
  map fst (restrict cols row) = List.filter (fun c => has_key c row) cols.
Proof.
  unfold restrict, has_key.
  induction cols as [|c0 cols IH]; simpl; [reflexivity|].
  destruct (dict_get c0 row); simpl; now rewrite IH.
Qed.

Lemma select_DataFrame (cols : list str) (records : list dict) :
  select cols (DataFrame records)
  = if forallb (fun c => existsb (has_key c) records) cols
    then Ok (Frame cols (map (restrict cols) records))
    else Raise KeyError.
Proof.
  unfold select.
  replace (forallb (fun c => mem c (columns (DataFrame records))) cols)
    with (forallb (fun c => existsb (has_key c) records) cols).
  - reflexivity.
  - induction cols as [|c cols IH]; cbn [forallb]; [reflexivity|].
    now rewrite mem_columns_DataFrame, IH.
Qed.

(** Where each of the six labels is a key of some record, the table
    that is written has the six columns in their order, one row per
    record in order, and a row has under each label the value of its
    record or, where the record lacks the label, a missing cell; where a
    label is a key of no record, the projection raises. *)
Lemma select_columns_order (result_csv : str) (st : progress) (w : world) :
  p_all_metrics st <> [] ->
  (forallb (fun c => existsb (has_key c) (p_all_metrics st)) columns_order = true ->
     exists df,
       combine_and_save result_csv st w
       = (put_result result_csv df (set_calls (p_calls st) w), Saved df (p_errors st)) /\
       columns df = columns_order /\
       rows df = map (restrict columns_order) (p_all_metrics st) /\
       forall row c, mem c columns_order = true ->
         dict_get c (restrict columns_order row) = dict_get c row) /\
  (forallb (fun c => existsb (has_key c) (p_all_metrics st)) columns_order = false ->
     combine_and_save result_csv st w
     = (set_calls (p_calls st) w, Crashed KeyError)).
Proof.
  intros Hne. unfold combine_and_save.
  destruct (p_all_metrics st) as [|m ms] eqn:E; [congruence|].
  rewrite select_DataFrame. split; intros H; rewrite H.
  - eexists. split; [reflexivity|]. split; [reflexivity|]. split; [reflexivity|].
    intros row c Hc. rewrite restrict_get. now rewrite Hc.
  - reflexivity.
Qed.

(** C5 (code at the failing input): the oracle answers the only page of
    the report with one record that has every field but the year.  The
    loop collects that record, of the six labels it lacks only year, and
    the projection [df[columns_order]] raises [KeyError] outside any
    [try]: the run ends after its request with no table written, and
    the next run on the same document asks again and ends the same way.
    The same happens for a response without JSON, whose record is the
    one the extractor makes itself, with raw_output and source_page. *)
Theorem missing_column_ends_the_run :
  let run := extraction_page (always NO_YEAR_RESPONSE) KEY 5 (Some REPORT) in
  p_all_metrics (process_parts (always NO_YEAR_RESPONSE) (name REPORT) 1
                   (Progress 0 0 [] []) [pages REPORT]) = [NO_YEAR_ROW] /\
  List.filter (fun c => negb (has_key c NO_YEAR_ROW)) columns_order = [u "year"] /\
  run fresh = (asked_once, Crashed KeyError) /\
  results asked_once = ∅ /\
  run asked_once = (asked_twice, Crashed KeyError) /\
  extraction_page (always NO_DATA) KEY 5 (Some REPORT) fresh
  = (asked_once, Crashed KeyError).
Proof. vm_compute. repeat split. Qed.

(** *** Requests made by a run *)

Section Calls.

Variable generate_content : Oracle.oracle.

Lemma extract_metrics_from_calls (chunks : list dict) (n : nat)
    (acc : list dict) :
  (n <= fst (extract_metrics_from generate_content n acc chunks)
     <= n + length chunks)%nat.
Proof.
  revert n acc. induction chunks as [|chunk chunks IH]; intros n acc; simpl.
  - lia.
  - destruct (generate_content n _) as [[t|]|e]; simpl; try lia.
    destruct (reconcile _ _) as [records|e]; simpl; try lia.
    specialize (IH (S n) (acc ++ records)). lia.
Qed.

Lemma text_chunks_length (off i : Z) (part : list str) :
  length (text_chunks off i part) = length part.
Proof.
  revert i. induction part as [|t part IH]; intros i; simpl; [reflexivity|].
  now rewrite IH.
Qed.

Lemma process_parts_calls (file_name : str) (parts : list (list str))
    (idx : nat) (st : progress) :
  (p_calls st <= p_calls (process_parts generate_content file_name idx st parts)
     <= p_calls st + length (concat parts))%nat.
Proof.
  revert idx st. induction parts as [|part parts IH]; intros idx st; simpl.
  - lia.
  - rewrite length_app.
    pose proof (extract_metrics_from_calls
                  (text_chunks (p_page_offset st) 1 part) (p_calls st) []) as Hc.
    rewrite text_chunks_length in Hc.
    unfold extract_metrics.
    destruct (extract_metrics_from _ _ _ _) as [calls' [metrics|e]]; simpl in Hc.
    + destruct (normalize_all _ _) as [metrics'|e].
      * match goal with |- context [process_parts _ _ ?i ?s parts] =>
          specialize (IH i s) end. simpl in IH. lia.
      * match goal with |- context [process_parts _ _ ?i ?s parts] =>
          specialize (IH i s) end. simpl in IH. lia.
    + match goal with |- context [process_parts _ _ ?i ?s parts] =>
        specialize (IH i s) end. simpl in IH. lia.
Qed.

End Calls.

(** The parts cover the pages, in order. *)
Lemma windows_concat (n : nat) (pages : list str) (fuel : nat) :
  (0 < n)%nat -> (length pages <= fuel)%nat ->
  concat (windows fuel n pages) = pages.
Proof.
  intros Hn. revert pages. induction fuel as [|fuel IH]; intros pages Hlen.
  - destruct pages; [reflexivity | simpl in Hlen; lia].
  - destruct pages as [|p pages]; [reflexivity|].
    cbn [windows concat]. rewrite IH.
    + apply firstn_skipn.
    + rewrite length_skipn. simpl in *. lia.
Qed.

Lemma split_pdf_covers (pages : list str) (n : nat) (parts : list (list str)) :
  split_pdf pages n = Ok parts -> concat parts = pages.
Proof.
  unfold split_pdf. destruct pages as [|p pages]; [discriminate|].
  destruct n as [|n]; [discriminate|].
  intros H.
  assert (parts = windows (length (p :: pages)) (S n) (p :: pages)) as ->
    by congruence.
  apply windows_concat; lia.
Qed.

End Aggregator.

Module TableCache.

Import GeminiExtractor Pandas Main Store DictFacts Notions Aggregator.

Lemma sidebar_calls (api_key : str) (w : world) :
  calls (sidebar api_key w) = calls w.
Proof. now destruct api_key. Qed.

Lemma sidebar_results (api_key : str) (w : world) :
  results (sidebar api_key w) = results w.
Proof. now destruct api_key. Qed.

(** A run on a document whose table is stored shows that table and
    leaves the world as the sidebar left it: no request is made. *)
Lemma cached_run (generate_content : Oracle.oracle) (api_key : str)
    (pages_per_part : nat) (file : upload) (w : world) (df : frame) :
  api_key <> [] ->
  results w !! (Paths.stem (name file) ++ CSV_SUFFIX) = Some df ->
  extraction_page generate_content api_key pages_per_part (Some file) w
  = (sidebar api_key w, Cached df).
Proof.
  intros Hk Hdf. unfold extraction_page.
  destruct api_key as [|c k]; [congruence|].
  rewrite sidebar_results, Hdf. reflexivity.
Qed.

(** A run that saves a table made at most one request per page, and
    stored the table under the name of the document. *)
Lemma saving_run (generate_content : Oracle.oracle) (api_key : str)
    (pages_per_part : nat) (file : upload) (w w1 : world) (df : frame)
    (errors : list (nat * exn)) :
  extraction_page generate_content api_key pages_per_part (Some file) w
  = (w1, Saved df errors) ->
  (calls w <= calls w1 <= calls w + length (pages file))%nat /\
  environ w1 = Some api_key /\ api_key <> [] /\
  results w1 !! (Paths.stem (name file) ++ CSV_SUFFIX) = Some df.
Proof.
  unfold extraction_page.
  destruct api_key as [|c k]; [discriminate|].
  set (key := c :: k). set (w' := sidebar key w).
  destruct (results w' !! _) as [df0|]; [discriminate|].
  destruct (split_pdf _ _) as [parts|e] eqn:Hs; [|discriminate].
  destruct (init _ _); [|discriminate].
  pose proof (process_parts_calls generate_content (name file) parts 1
                (Progress (calls w') 0 [] [])) as Hc.
  rewrite (split_pdf_covers _ _ _ Hs) in Hc. simpl in Hc.
  unfold combine_and_save.
  destruct (p_all_metrics _); [discriminate|].
  destruct (select _ _) as [df'|e]; [|discriminate].
  intros [= <- <- <-]. simpl.
  split; [exact Hc|]. split; [reflexivity|]. split; [discriminate|].
  apply lookup_insert_eq.
Qed.

(** C2 (as amended): with a key in the sidebar, a run on a document
    whose table is stored makes no request and shows the stored table;
    and over two runs on the same document of which the first saves a
    table, at most as many requests are made in all as the document has
    pages: the first run makes at most that many, and the second,
    whatever the oracle and the window, shows that table without a
    request. *)
Theorem stored_table_short_circuits (generate_content : Oracle.oracle)
    (api_key : str) (pages_per_part : nat) (file : upload) (w : world) :
  api_key <> [] ->
  (forall df,
     results w !! (Paths.stem (name file) ++ CSV_SUFFIX) = Some df ->
     extraction_page generate_content api_key pages_per_part (Some file) w
     = (sidebar api_key w, Cached df) /\
     calls (sidebar api_key w) = calls w) /\
  (forall w1 df errors,
     extraction_page generate_content api_key pages_per_part (Some file) w
     = (w1, Saved df errors) ->
     (calls w1 <= calls w + length (pages file))%nat /\
     forall generate_content' pages_per_part',
       extraction_page generate_content' api_key pages_per_part' (Some file) w1
       = (w1, Cached df)).
Proof.
  intros Hk. split.
  - intros df Hdf. split; [now apply cached_run | apply sidebar_calls].
  - intros w1 df errors Hrun.
    destruct (saving_run _ _ _ _ _ _ _ _ Hrun) as (Hc & He & _ & Hr).
    split; [lia|]. intros g' p'.
    rewrite (cached_run g' api_key p' file w1 df Hk Hr).
    f_equal. destruct api_key as [|c k]; [congruence|].
    destruct w1; simpl in *. unfold set_environ. simpl. now rewrite He.
Qed.

Lemma stored_table_short_circuits_witness :
  (calls after_scope1 <= calls fresh + length (pages REPORT))%nat /\
  extraction_page (always NO_DATA) KEY 7 (Some REPORT) after_scope1
  = (after_scope1, Cached SCOPE1_TABLE).
Proof.
  destruct (proj2 (stored_table_short_circuits (always SCOPE1_RESPONSE) KEY 5
                     REPORT fresh ltac:(discriminate))
              after_scope1 SCOPE1_TABLE [] ltac:(vm_compute; reflexivity))
    as [H1 H2].
  split; [exact H1 | exact (H2 (always NO_DATA) 7%nat)].
Defined.

(** C2 (counterexample): the oracle answers the only page of the report
    with the empty list; the run extracts no record and writes no
    table, and the next run on the same document asks the oracle again:
    two requests for one page.  A request is made for every page of a
    part: a document of two pages in one part takes two requests.  And
    without a key in the sidebar, a run on a document whose table is
    stored shows the error that asks for the key, not the table. *)
Lemma empty_extraction_is_repeated :
  let run := extraction_page (always EMPTY_LIST) KEY 5 (Some REPORT) in
  let w1 := fst (run fresh) in
  let w2 := fst (run w1) in
  (snd (run fresh) = NoMetrics [] /\ calls w1 = 1%nat /\
   snd (run w1) = NoMetrics [] /\ calls w2 = 2%nat /\
   length (pages REPORT) = 1%nat) /\
  (split_pdf (pages OTHER_REPORT) 5 = Ok [pages OTHER_REPORT] /\
   calls (fst (extraction_page (always SCOPE1_RESPONSE) KEY 5
                 (Some OTHER_REPORT) fresh)) = 2%nat) /\
  extraction_page (always EMPTY_LIST) [] 5 (Some REPORT) after_scope1
  = (after_scope1, ErrorNoKey).
Proof. vm_compute. repeat split. Qed.

End TableCache.

(* ===================================================================== *)
(** ** The comparison page *)
(* ===================================================================== *)

Module Comparator.

Import Pandas Store CompareMetrics DictFacts Notions.

(** The guard of the page counts the tables that were loaded, with or
    without rows of the category. *)
Lemma insufficient_iff_few_loaded (generate_content : Oracle.oracle)
    (selected_files : list str) (category : str) (w : world) (key : str) :
  csv_files w <> [] -> selected_files <> [] ->
  cached_json w !! cache_file category selected_files = None ->
  environ w = Some key -> key <> [] ->
  (snd (compare_metrics_page generate_content selected_files category true w)
   = Insufficient
   <-> (length (dataframes w category selected_files) < 2)%nat).
Proof.
  intros Hr Hs Hc He Hk. unfold compare_metrics_page.
  destruct (csv_files w) as [|n ns]; [congruence|].
  destruct selected_files as [|f fs]; [congruence|].
  rewrite Hc, He. destruct key as [|c k]; [congruence|].
  destruct (Nat.ltb_spec (length (dataframes w category (f :: fs))) 2) as [H|H].
  - simpl. tauto.
  - split; [|lia].
    destruct (generate_content _ _) as [[t|]|e]; simpl; try discriminate.
    destruct (loads _); discriminate.
Qed.

(** C4 (code at the failing input): of the two selected tables only the
    first has a row of the category Environmental, yet both filtered
    tables are counted, the guard does not fire, the oracle is asked and
    its answer is cached. *)
Theorem one_matching_table_is_compared :
  map (fun df => length (rows df))
      (dataframes two_tables Main.ENVIRONMENTAL [A_CSV; B_CSV]) = [1; 0]%nat /\
  compare_metrics_page (always EMPTY_LIST) [A_CSV; B_CSV] Main.ENVIRONMENTAL
    true two_tables
  = (after_comparison, Compared (JArr [])).
Proof. split; vm_compute; reflexivity. Qed.

(** *** The cache of comparisons *)

(** A stored artifact is shown without a request. *)
Lemma cached_comparison (generate_content : Oracle.oracle)
    (selected_files : list str) (category : str) (button : bool)
    (w : world) (v : json) :
  csv_files w <> [] -> selected_files <> [] ->
  cached_json w !! cache_file category selected_files = Some v ->
  compare_metrics_page generate_content selected_files category button w
  = (w, Loaded v).
Proof.
  intros Hr Hs Hc. unfold compare_metrics_page.
  destruct (csv_files w); [congruence|].
  destruct selected_files; [congruence|]. now rewrite Hc.
Qed.

Lemma compared_run (generate_content : Oracle.oracle)
    (selected_files : list str) (category : str) (button : bool)
    (w w1 : world) (v : json) :
  compare_metrics_page generate_content selected_files category button w
  = (w1, Compared v) ->
  csv_files w1 <> [] /\ selected_files <> [] /\
  cached_json w1 !! cache_file category selected_files = Some v /\
  calls w1 = S (calls w).
Proof.
  unfold compare_metrics_page.
  destruct (csv_files w) as [|n ns] eqn:Hr; [discriminate|].
  destruct selected_files as [|f fs]; [discriminate|].
  destruct (cached_json w !! _); [discriminate|].
  destruct button; [|discriminate].
  destruct (environ w) as [[|c k]|]; try discriminate.
  destruct (_ <? _)%nat; [discriminate|].
  destruct (generate_content _ _) as [[t|]|e]; try discriminate.
  destruct (loads _) as [v'|]; [|discriminate].
  intros [= <- <-]. unfold csv_files in *. simpl.
  split; [now rewrite Hr|]. split; [discriminate|]. split; [|reflexivity].
  apply lookup_insert_eq.
Qed.

(** *** The order of the selection in the name of the cache file *)

Lemma no_underscore_cons (c : N) (s : str) :
  free_of [95] (c :: s) = true <-> c <> 95 /\ free_of [95] s = true.
Proof.
  unfold free_of. cbn [forallb existsb].
  rewrite andb_true_iff, orb_false_r, negb_true_iff, N.eqb_neq. tauto.
Qed.

(** A text without underscore is told apart from what follows it, when
    what follows is nothing or starts with an underscore. *)
Lemma split_at_underscore (x y r1 r2 : str) :
  free_of [95] x = true -> free_of [95] y = true ->
  (r1 = [] \/ exists t, r1 = 95 :: t) ->
  (r2 = [] \/ exists t, r2 = 95 :: t) ->
  x ++ r1 = y ++ r2 -> x = y /\ r1 = r2.
Proof.
  revert y. induction x as [|a x IH]; intros [|b y] Hx Hy H1 H2 Heq.
  - auto.
  - apply no_underscore_cons in Hy as [Hb _]. simpl in Heq.
    destruct H1 as [-> | [t ->]]; [discriminate|].
    injection Heq as E _. congruence.
  - apply no_underscore_cons in Hx as [Ha _]. simpl in Heq.
    destruct H2 as [-> | [t ->]]; [discriminate|].
    injection Heq as E _. congruence.
  - apply no_underscore_cons in Hx as [_ Hx].
    apply no_underscore_cons in Hy as [_ Hy].
    simpl in Heq. injection Heq as -> Heq.
    destruct (IH y Hx Hy H1 H2 Heq) as [-> ->]. auto.
Qed.

Lemma join_step (x x2 : str) (l : list str) :
  join UNDERSCORE (x :: x2 :: l) = x ++ 95 :: join UNDERSCORE (x2 :: l).
Proof. reflexivity. Qed.

(** Texts without underscore can be read back from their join. *)
Lemma join_underscore_inj (l1 l2 : list str) :
  l1 <> [] -> l2 <> [] ->
  forallb (free_of [95]) l1 = true -> forallb (free_of [95]) l2 = true ->
  join UNDERSCORE l1 = join UNDERSCORE l2 -> l1 = l2.
Proof.
  revert l2. induction l1 as [|x l1 IH]; intros l2 N1 N2 F1 F2 H; [congruence|].
  destruct l2 as [|y l2]; [congruence|].
  cbn [forallb] in F1, F2.
  apply andb_true_iff in F1 as [Fx F1]. apply andb_true_iff in F2 as [Fy F2].
  destruct l1 as [|x2 l1], l2 as [|y2 l2].
  - simpl in H. now subst.
  - rewrite join_step in H. change (join UNDERSCORE [x]) with x in H.
    rewrite <- (app_nil_r x) in H.
    destruct (split_at_underscore x y [] _ Fx Fy (or_introl eq_refl)
                (or_intror (ex_intro _ _ eq_refl)) H) as [_ E].
    discriminate E.
  - rewrite join_step in H. change (join UNDERSCORE [y]) with y in H.
    rewrite <- (app_nil_r y) in H.
    destruct (split_at_underscore x y _ [] Fx Fy
                (or_intror (ex_intro _ _ eq_refl)) (or_introl eq_refl) H) as [_ E].
    discriminate E.
  - rewrite !join_step in H.
    destruct (split_at_underscore x y _ _ Fx Fy
                (or_intror (ex_intro _ _ eq_refl))
                (or_intror (ex_intro _ _ eq_refl)) H) as [-> E].
    injection E as E.
    f_equal. apply IH; auto; discriminate.
Qed.

Lemma underscore_free_identifiers (selected_files : list str) :
  underscore_free selected_files = forallb (free_of [95]) (map identifier selected_files).
Proof.
  unfold underscore_free. induction selected_files as [|f l IH]; simpl; [reflexivity|].
  now rewrite IH.
Qed.

(** C8 (as amended): the name of the cache file is determined by the
    lower-cased category and the identifiers of the selected files
    (name without extension, underscores for spaces) in the order of
    the selection: for two files it is common_metrics_, the category,
    the identifier of the first and that of the second, with
    underscores between them, and .json.  The identifiers are not
    sorted: two selections that are not empty and whose identifiers have
    no underscore get the same name only when they list the same
    identifiers in the same order.  And a request with the same category
    and the same selection in the same order as one that was compared
    is served from the stored artifact without a request to the
    oracle. *)
Theorem same_selection_short_circuits (generate_content : Oracle.oracle)
    (selected_files : list str) (category : str) (w : world) :
  (forall category' selected_files',
     lower category' = lower category ->
     map identifier selected_files' = map identifier selected_files ->
     cache_file category' selected_files' = cache_file category selected_files) /\
  (forall f g,
     cache_file category [f; g]
     = CACHE_PREFIX ++ lower category ++ UNDERSCORE
       ++ identifier f ++ UNDERSCORE ++ identifier g ++ JSON_SUFFIX) /\
  (forall selected_files',
     selected_files <> [] -> selected_files' <> [] ->
     underscore_free selected_files = true -> underscore_free selected_files' = true ->
     cache_file category selected_files' = cache_file category selected_files ->
     map identifier selected_files' = map identifier selected_files) /\
  (forall w1 v,
     compare_metrics_page generate_content selected_files category true w
     = (w1, Compared v) ->
     forall generate_content' button,
       compare_metrics_page generate_content' selected_files category button w1
       = (w1, Loaded v)).
Proof.
  split; [|split; [|split]].
  - intros c' s' Hc Hs. unfold cache_file, safe_fnames.
    change (map (fun f => replace_char 32 UNDERSCORE (Paths.splitext_root f)))
      with (map identifier).
    now rewrite Hc, Hs.
  - intros f g. unfold cache_file, safe_fnames. cbn [map join].
    now rewrite <- !app_assoc.
  - intros s' N1 N2 P1 P2 H. unfold cache_file in H.
    do 3 apply app_inv_head in H. apply app_inv_tail in H.
    rewrite underscore_free_identifiers in P1, P2.
    apply join_underscore_inj; auto.
    + destruct s'; [congruence | discriminate].
    + destruct selected_files; [congruence | discriminate].
  - intros w1 v Hrun g' button.
    destruct (compared_run _ _ _ _ _ _ _ Hrun) as (Hr & Hs & Hc & _).
    now apply cached_comparison.
Qed.

Lemma same_selection_short_circuits_witness :
  compare_metrics_page (always NO_DATA) [A_CSV; B_CSV] Main.ENVIRONMENTAL
    true after_comparison
  = (after_comparison, Loaded (JArr [])) /\
  (cache_file Main.ENVIRONMENTAL [B_CSV; A_CSV]
   = cache_file Main.ENVIRONMENTAL [A_CSV; B_CSV] ->
   map identifier [B_CSV; A_CSV] = map identifier [A_CSV; B_CSV]).
Proof.
  split.
  - apply (proj2 (proj2 (proj2 (same_selection_short_circuits (always EMPTY_LIST)
                    [A_CSV; B_CSV] Main.ENVIRONMENTAL two_tables)))
             after_comparison (JArr []) ltac:(vm_compute; reflexivity)
             (always NO_DATA) true).
  - apply (proj1 (proj2 (proj2 (same_selection_short_circuits (always EMPTY_LIST)
                    [A_CSV; B_CSV] Main.ENVIRONMENTAL two_tables)))
             [B_CSV; A_CSV]); (discriminate || reflexivity).
Defined.

(** C8 (counterexample): the same two documents selected in the other
    order give another file name, and after the comparison of the first
    selection was cached the second selection asks the oracle again. *)
Lemma selection_order_changes_key :
  cache_file Main.ENVIRONMENTAL [A_CSV; B_CSV]
    <> cache_file Main.ENVIRONMENTAL [B_CSV; A_CSV] /\
  let page := compare_metrics_page (always EMPTY_LIST) in
  let w1 := fst (page [A_CSV; B_CSV] Main.ENVIRONMENTAL true two_tables) in
  let run2 := page [B_CSV; A_CSV] Main.ENVIRONMENTAL true w1 in
  calls w1 = 1%nat /\ snd run2 = Compared (JArr []) /\ calls (fst run2) = 2%nat.
Proof.
  split.
  - vm_compute. discriminate.
  - vm_compute. repeat split.
Qed.

End Comparator.

(* ===================================================================== *)
(** ** [json.loads] after [json.dumps] *)
(* ===================================================================== *)

Module StringCodec.

(** Case analysis on every comparison of code points in the goal. *)
Ltac cases_on_tests :=
  repeat match goal with
    | |- context [N.eqb ?a ?b] => destruct (N.eqb_spec a b)
    | |- context [N.leb ?a ?b] => destruct (N.leb_spec a b)
    | |- context [N.ltb ?a ?b] => destruct (N.ltb_spec a b)
    end.

Lemma land_shiftl_small (a y k : N) :
  y < 2 ^ k -> N.land (N.shiftl a k) y = 0.
Proof.
  intros Hy. apply N.bits_inj_0. intros i. rewrite N.land_spec.
  destruct (N.lt_ge_cases i k) as [Hi|Hi].
  - now rewrite N.shiftl_spec_low.
  - destruct (N.eq_dec y 0) as [->|Hy0].
    + now rewrite N.bits_0, andb_false_r.
    + rewrite (N.bits_above_log2 y i), andb_false_r; [reflexivity|].
      apply N.log2_lt_pow2; [lia|].
      eapply N.lt_le_trans; [exact Hy|]. apply N.pow_le_mono_r; lia.
Qed.

Lemma lor_shiftl_add (a y k : N) :
  y < 2 ^ k -> N.lor (N.shiftl a k) y = a * 2 ^ k + y.
Proof.
  intros Hy. rewrite <- N.lxor_lor by now apply land_shiftl_small.
  rewrite <- N.add_nocarry_lxor by now apply land_shiftl_small.
  now rewrite N.shiftl_mul_pow2.
Qed.

Lemma hexval_hexdigit (d : N) : d < 16 -> hexval (hexdigit d) = Some d.
Proof.
  intros Hd. unfold hexval, hexdigit.
  cases_on_tests; simpl; try lia; f_equal; lia.
Qed.

Lemma hexval_bound (c d : N) : hexval c = Some d -> d < 16.
Proof.
  unfold hexval. cases_on_tests; simpl; intros [= <-]; lia.
Qed.

Lemma decode_hex4_value (a b c d x3 x2 x1 x0 : N) :
  hexval a = Some x3 -> hexval b = Some x2 ->
  hexval c = Some x1 -> hexval d = Some x0 ->
  decode_hex4 a b c d = Some (((x3 * 16 + x2) * 16 + x1) * 16 + x0).
Proof.
  intros H3 H2 H1 H0. unfold decode_hex4. rewrite H3, H2, H1, H0.
  apply hexval_bound in H2, H1, H0.
  change 16 with (2 ^ 4) in *.
  now rewrite !lor_shiftl_add.
Qed.

Lemma decode_hex4_hex4 (n : N) :
  n < 65536 ->
  decode_hex4 (hexdigit (n / 4096 mod 16)) (hexdigit (n / 256 mod 16))
              (hexdigit (n / 16 mod 16)) (hexdigit (n mod 16)) = Some n.
Proof.
  intros Hn.
  rewrite (decode_hex4_value _ _ _ _ (n / 4096 mod 16) (n / 256 mod 16)
             (n / 16 mod 16) (n mod 16))
    by (apply hexval_hexdigit; apply N.mod_lt; discriminate).
  f_equal.
  change 4096 with (16 * (16 * 16)). change 256 with (16 * 16).
  rewrite <- !N.Div0.div_div.
  pose proof (N.div_mod n 16 ltac:(discriminate)) as E0.
  pose proof (N.div_mod (n / 16) 16 ltac:(discriminate)) as E1.
  pose proof (N.div_mod (n / 16 / 16) 16 ltac:(discriminate)) as E2.
  pose proof (N.div_mod (n / 16 / 16 / 16) 16 ltac:(discriminate)) as E3.
  pose proof (N.mod_lt n 16 ltac:(discriminate)).
  pose proof (N.mod_lt (n / 16) 16 ltac:(discriminate)).
  pose proof (N.mod_lt (n / 16 / 16) 16 ltac:(discriminate)).
  pose proof (N.mod_lt (n / 16 / 16 / 16) 16 ltac:(discriminate)).
  assert (n / 16 / 16 / 16 / 16 = 0) as Hz.
  { rewrite !N.Div0.div_div. apply N.div_small. exact Hn. }
  rewrite Hz in E3. lia.
Qed.

(** One step of [scanstring] on an escape with four hex digits. *)
Lemma scanstring_u (h1 h2 h3 h4 : N) (r2 acc : str) :
  scanstring (92 :: 117 :: h1 :: h2 :: h3 :: h4 :: r2) acc
  = match decode_hex4 h1 h2 h3 h4 with
    | None => None
    | Some uni =>
        if is_high_surrogate uni then
          match r2 with
          | b :: l :: g1 :: g2 :: g3 :: g4 :: r4 =>
              if (b =? 92) && (l =? 117) then
                match decode_hex4 g1 g2 g3 g4 with
                | None => None
                | Some uni2 =>
                    if is_low_surrogate uni2
                    then scanstring r4 (join_surrogates uni uni2 :: acc)
                    else scanstring r2 (uni :: acc)
                end
              else scanstring r2 (uni :: acc)
          | _ => scanstring r2 (uni :: acc)
          end
        else scanstring r2 (uni :: acc)
    end.
Proof. reflexivity. Qed.

(** One step of [scanstring] on a character that stands for itself. *)
Lemma scanstring_plain (c : N) (r acc : str) :
  c <> 34 -> c <> 92 -> 32 <= c ->
  scanstring (c :: r) acc = scanstring r (c :: acc).
Proof.
  intros H1 H2 H3. cbn [scanstring].
  cases_on_tests; try lia. reflexivity.
Qed.

Lemma surrogate_halves (c n : N) :
  65536 <= c < 1114112 -> n = c - 65536 ->
  N.lor 55296 (N.land (N.shiftr n 10) 1023) = 55296 + n / 1024 /\
  N.lor 56320 (N.land n 1023) = 56320 + n mod 1024 /\
  n / 1024 < 1024 /\ n mod 1024 < 1024 /\
  join_surrogates (55296 + n / 1024) (56320 + n mod 1024) = c.
Proof.
  intros Hc En.
  assert (n < 1048576) as Hn by lia.
  assert (n / 1024 < 1024) as Hq.
  { apply N.Div0.div_lt_upper_bound. lia. }
  assert (n mod 1024 < 1024) as Hr by (apply N.mod_lt; discriminate).
  split; [|split; [|split; [exact Hq|split; [exact Hr|]]]].
  - change 1023 with (N.ones 10). rewrite N.land_ones.
    rewrite N.shiftr_div_pow2. change (2 ^ 10) with 1024.
    rewrite (N.mod_small (n / 1024)) by exact Hq.
    change 55296 with (N.shiftl 54 10) at 1.
    rewrite lor_shiftl_add by exact Hq. reflexivity.
  - change 1023 with (N.ones 10). rewrite N.land_ones.
    change (2 ^ 10) with 1024.
    change 56320 with (N.shiftl 55 10) at 1.
    rewrite lor_shiftl_add by exact Hr. reflexivity.
  - unfold join_surrogates.
    rewrite (N.add_comm 55296), (N.add_comm 56320), !N.add_sub.
    rewrite lor_shiftl_add by exact Hr. change (2 ^ 10) with 1024.
    pose proof (N.div_mod n 1024 ltac:(discriminate)). lia.
Qed.

Lemma high_surrogate_range (q : N) :
  q < 1024 -> is_high_surrogate (55296 + q) = true.
Proof.
  intros H. unfold is_high_surrogate. apply andb_true_iff.
  split; apply N.leb_le; lia.
Qed.

Lemma low_surrogate_range (q : N) :
  q < 1024 -> is_low_surrogate (56320 + q) = true.
Proof.
  intros H. unfold is_low_surrogate. apply andb_true_iff.
  split; apply N.leb_le; lia.
Qed.

(** [scanstring] reads back one encoded character. *)
Lemma scanstring_encode_char (c : N) (r acc : str) :
  is_scalar c = true ->
  scanstring (encode_char c ++ r) acc = scanstring r (c :: acc).
Proof.
  unfold is_scalar. intros Hs.
  apply andb_prop in Hs as [Hlt Hns].
  apply N.ltb_lt in Hlt. apply negb_true_iff in Hns.
  unfold encode_char.
  destruct (N.eqb_spec c 34) as [->|N34]; [reflexivity|].
  destruct (N.eqb_spec c 92) as [->|N92]; [reflexivity|].
  destruct (N.eqb_spec c 10) as [->|N10]; [reflexivity|].
  destruct (N.eqb_spec c 13) as [->|N13]; [reflexivity|].
  destruct (N.eqb_spec c 9) as [->|N9]; [reflexivity|].
  destruct (N.eqb_spec c 8) as [->|N8]; [reflexivity|].
  destruct (N.eqb_spec c 12) as [->|N12]; [reflexivity|].
  destruct ((32 <=? c) && (c <=? 126)) eqn:Hp.
  - apply andb_prop in Hp as [Hp _]. apply N.leb_le in Hp.
    cbn [app]. now apply scanstring_plain.
  - destruct (N.ltb_spec c 65536) as [Hb|Hb].
    + unfold hex4. cbn [app]. rewrite scanstring_u.
      rewrite decode_hex4_hex4 by exact Hb.
      replace (is_high_surrogate c) with false; [reflexivity|].
      unfold is_high_surrogate. symmetry.
      apply andb_false_iff. apply andb_false_iff in Hns.
      destruct Hns as [H|H]; [left; exact H|].
      right. apply N.leb_gt. apply N.leb_gt in H. lia.
    + destruct (surrogate_halves c (c - 65536) ltac:(lia) eq_refl)
        as (E1 & E2 & Hq & Hr & Hj).
      cbv zeta. rewrite E1, E2.
      unfold hex4. cbn [app]. rewrite scanstring_u.
      rewrite decode_hex4_hex4 by lia.
      rewrite high_surrogate_range by exact Hq.
      cbn [N.eqb Pos.eqb andb].
      rewrite decode_hex4_hex4 by lia.
      rewrite low_surrogate_range by exact Hr.
      now rewrite Hj.
Qed.

(** [scanstring] reads back an encoded string up to its closing quote. *)
Lemma scanstring_encoded (s : str) (r acc : str) :
  forallb is_scalar s = true ->
  scanstring (flat_map encode_char s ++ 34 :: r) acc = Some (rev acc ++ s, r).
Proof.
  revert acc. induction s as [|c s IH]; intros acc Hs.
  - cbn. now rewrite app_nil_r.
  - cbn [forallb] in Hs. apply andb_prop in Hs as [Hc Hs].
    cbn [flat_map]. rewrite <- app_assoc.
    rewrite scanstring_encode_char by exact Hc.
    rewrite IH by exact Hs. cbn [rev]. now rewrite <- app_assoc.
Qed.

End StringCodec.

Module Tokens.

Import Notions StringCodec.

Lemma delimited_head (c : N) (rest : str) :
  delimited (c :: rest) ->
  is_digit c = false /\ c <> 46 /\ c <> 101 /\ c <> 69 /\ c <> 45 /\ c <> 43.
Proof.
  unfold is_digit. simpl. intros [-> | [-> | ->]]; repeat split; discriminate.
Qed.

(** *** A token followed by a delimiter *)

Lemma span_digits_ext (s rest d r : str) :
  span_digits s = (d, r) -> delimited rest ->
  span_digits (s ++ rest) = (d, r ++ rest).
Proof.
  intros H Hd. revert d r H. induction s as [|c s IH]; intros d r H.
  - injection H as <- <-. destruct rest as [|c rest]; [reflexivity|].
    apply delimited_head in Hd as (Hc & _). simpl. now rewrite Hc.
  - simpl in *. destruct (is_digit c).
    + destruct (span_digits s) as [d' r'] eqn:E.
      injection H as <- <-. now rewrite (IH d' r' eq_refl).
    + now injection H as <- <-.
Qed.

Lemma scan_int_part_ext (s rest ip r : str) :
  scan_int_part s = Some (ip, r) -> delimited rest ->
  scan_int_part (s ++ rest) = Some (ip, r ++ rest).
Proof.
  intros H Hd. destruct s as [|c s]; [discriminate|].
  simpl in *. destruct (c =? 48).
  - now injection H as <- <-.
  - destruct (is_digit c); [|discriminate].
    destruct (span_digits s) as [d' r'] eqn:E.
    injection H as <- <-. now rewrite (span_digits_ext _ _ _ _ E Hd).
Qed.

Lemma scan_frac_ext (s rest fp r : str) :
  scan_frac s = (fp, r) -> delimited rest ->
  scan_frac (s ++ rest) = (fp, r ++ rest).
Proof.
  intros H Hd. destruct s as [|a [|f s]].
  - injection H as <- <-. destruct rest as [|c [|f rest]]; try reflexivity.
    apply delimited_head in Hd as (_ & Hc & _).
    simpl. apply N.eqb_neq in Hc. now rewrite Hc.
  - injection H as <- <-. destruct rest as [|c rest]; [reflexivity|].
    apply delimited_head in Hd as (Hc & _).
    simpl. now rewrite Hc, andb_false_r.
  - simpl in *. destruct ((a =? 46) && is_digit f).
    + destruct (span_digits s) as [d' r'] eqn:E.
      injection H as <- <-. now rewrite (span_digits_ext _ _ _ _ E Hd).
    + now injection H as <- <-.
Qed.

Lemma span_digits_delimited (rest : str) :
  delimited rest -> span_digits rest = ([], rest).
Proof.
  intros Hd. apply (span_digits_ext [] rest [] [] eq_refl Hd).
Qed.

Lemma scan_exp_ext (s rest ep r : str) :
  scan_exp s = (ep, r) -> delimited rest ->
  scan_exp (s ++ rest) = (ep, r ++ rest).
Proof.
  intros H Hd. destruct s as [|e s].
  - injection H as <- <-. destruct rest as [|c rest]; [reflexivity|].
    apply delimited_head in Hd as (_ & _ & H1 & H2 & _).
    apply N.eqb_neq in H1, H2. simpl. now rewrite H1, H2.
  - cbn [scan_exp app] in *. destruct ((e =? 101) || (e =? 69)).
    2: now injection H as <- <-.
    destruct s as [|c s].
    + injection H as <- <-. destruct rest as [|c rest]; [reflexivity|].
      pose proof (span_digits_delimited _ Hd) as Hsp.
      apply delimited_head in Hd as (_ & _ & _ & _ & H1 & H2).
      apply N.eqb_neq in H1, H2. cbn [app]. rewrite H1, H2. cbn [orb].
      now rewrite Hsp.
    + cbn [app]. destruct ((c =? 45) || (c =? 43)).
      * destruct (span_digits s) as [d' r'] eqn:E.
        rewrite (span_digits_ext _ _ _ _ E Hd).
        destruct d'; now injection H as <- <-.
      * destruct (span_digits (c :: s)) as [d' r'] eqn:E.
        change (c :: s ++ rest) with ((c :: s) ++ rest).
        rewrite (span_digits_ext _ _ _ _ E Hd).
        destruct d'; now injection H as <- <-.
Qed.

Lemma scan_unsigned_ext (sign s rest : str) (v : json) (r : str) :
  scan_unsigned sign s = Some (v, r) -> delimited rest ->
  scan_unsigned sign (s ++ rest) = Some (v, r ++ rest).
Proof.
  intros H Hd. unfold scan_unsigned in *.
  destruct (scan_int_part s) as [[ip s2]|] eqn:E1; [|discriminate].
  rewrite (scan_int_part_ext _ _ _ _ E1 Hd).
  destruct (scan_frac s2) as [fp s3] eqn:E2.
  rewrite (scan_frac_ext _ _ _ _ E2 Hd).
  destruct (scan_exp s3) as [ep s4] eqn:E3.
  rewrite (scan_exp_ext _ _ _ _ E3 Hd).
  destruct fp, ep; now injection H as <- <-.
Qed.

Lemma scan_number_ext (s rest : str) (v : json) (r : str) :
  scan_number s = Some (v, r) -> delimited rest ->
  scan_number (s ++ rest) = Some (v, r ++ rest).
Proof.
  intros H Hd. destruct s as [|c s]; [discriminate|].
  cbn [app scan_number] in *. destruct (c =? 45).
  - now apply scan_unsigned_ext.
  - now apply (scan_unsigned_ext [] (c :: s)).
Qed.

Lemma strip_prefix_ext (p s rest r : str) :
  strip_prefix p s = Some r -> strip_prefix p (s ++ rest) = Some (r ++ rest).
Proof.
  revert s. induction p as [|a p IH]; intros s H.
  - simpl in *. now injection H as <-.
  - destruct s as [|b s]; [discriminate|]. simpl in *.
    destruct (a =? b); [now apply IH | discriminate].
Qed.

Lemma strip_prefix_none_ext (p s rest : str) :
  strip_prefix p s = None -> delimited rest ->
  Forall (fun a => a <> 44 /\ a <> 93 /\ a <> 125) p ->
  strip_prefix p (s ++ rest) = None.
Proof.
  intros H Hd Hp. revert s H. induction Hp as [|a p Ha Hp IH]; intros s H.
  - discriminate.
  - destruct s as [|b s].
    + destruct rest as [|c rest]; [reflexivity|]. simpl.
      replace (a =? c) with false; [reflexivity|].
      symmetry. apply N.eqb_neq. simpl in Hd. lia.
    + simpl in *. destruct (a =? b); [now apply IH | reflexivity].
Qed.

Ltac constant p s rest H Hd :=
  let E := fresh "E" in
  destruct (strip_prefix p s) as [?r0|] eqn:E;
  [ rewrite (strip_prefix_ext _ _ rest _ E); now injection H as <- <-
  | rewrite (strip_prefix_none_ext _ _ _ E Hd)
      by (repeat constructor; discriminate) ].

Lemma scan_literal_ext (s rest : str) (v : json) (r : str) :
  scan_literal s = Some (v, r) -> delimited rest ->
  scan_literal (s ++ rest) = Some (v, r ++ rest).
Proof.
  intros H Hd. unfold scan_literal in *.
  constant NULL s rest H Hd.
  constant TRUE s rest H Hd.
  constant FALSE s rest H Hd.
  constant NAN s rest H Hd.
  constant INFINITY s rest H Hd.
  constant NEG_INFINITY s rest H Hd.
  now apply scan_number_ext.
Qed.

(** *** Integers *)

Lemma uint_of_digits_digits (d : Decimal.uint) :
  uint_of_digits (digits d) = d.
Proof. induction d; simpl; now rewrite ?IHd. Qed.

Lemma span_digits_digits (d : Decimal.uint) :
  span_digits (digits d) = (digits d, []).
Proof. induction d; simpl; now rewrite ?IHd. Qed.

Lemma nzhead_digits (d : Decimal.uint) :
  (nb_digits (nzhead d) <= nb_digits d)%nat.
Proof. induction d; simpl; lia. Qed.

(** The decimal digits of a positive number do not begin with 0. *)
Lemma to_uint_head (p : positive) :
  match Pos.to_uint p with
  | Nil | D0 _ => False
  | _ => True
  end.
Proof.
  pose proof (Unsigned.to_of (Pos.to_uint p)) as H.
  rewrite Unsigned.of_to in H. simpl in H.
  pose proof (Unsigned.to_uint_nonnil p) as Hn.
  pose proof (Unsigned.to_uint_nonzero p) as Hz.
  destruct (Pos.to_uint p) as [|d| | | | | | | | |]; try exact I.
  - congruence.
  - rewrite unorm_D0 in H. unfold unorm in H.
    pose proof (nzhead_digits d) as Hd.
    destruct (nzhead d) eqn:E;
      try (rewrite <- H in Hd; simpl in Hd; lia).
    apply Hz. exact H.
Qed.

Lemma scan_int_part_digits (p : positive) :
  scan_int_part (digits (Pos.to_uint p))
  = Some (digits (Pos.to_uint p), []).
Proof.
  pose proof (to_uint_head p) as H.
  destruct (Pos.to_uint p) as [|d|d|d|d|d|d|d|d|d|d]; try contradiction;
    simpl; now rewrite span_digits_digits.
Qed.

Lemma scan_unsigned_pos (sign : str) (p : positive) :
  scan_unsigned sign (digits (Pos.to_uint p))
  = Some (JInt (match sign with [] => Z.pos p | _ => Z.neg p end), []).
Proof.
  unfold scan_unsigned. rewrite scan_int_part_digits. simpl.
  rewrite uint_of_digits_digits.
  change (N.of_uint (Pos.to_uint p)) with (Pos.of_uint (Pos.to_uint p)).
  rewrite Unsigned.of_to. now destruct sign.
Qed.

Lemma digits_head (p : positive) :
  exists c s, digits (Pos.to_uint p) = c :: s /\ is_digit c = true.
Proof.
  pose proof (to_uint_head p) as H.
  destruct (Pos.to_uint p) as [|d|d|d|d|d|d|d|d|d|d]; try contradiction;
    simpl; eauto.
Qed.

(** A character that begins none of the constants. *)
Lemma scan_literal_digit (c : N) (s : str) :
  is_digit c = true -> scan_literal (c :: s) = scan_number (c :: s).
Proof.
  unfold is_digit. intros H. apply andb_prop in H as [H1 H2].
  apply N.leb_le in H1, H2.
  unfold scan_literal, NULL, TRUE, FALSE, NAN, INFINITY, NEG_INFINITY.
  cbn [strip_prefix].
  repeat match goal with
    | |- context [N.eqb ?a c] =>
        replace (N.eqb a c) with false by (symmetry; apply N.eqb_neq; lia)
    end.
  reflexivity.
Qed.

Lemma scan_literal_minus_digit (c : N) (s : str) :
  is_digit c = true ->
  scan_literal (45 :: c :: s) = scan_number (45 :: c :: s).
Proof.
  unfold is_digit. intros H. apply andb_prop in H as [H1 H2].
  apply N.leb_le in H1, H2.
  unfold scan_literal, NULL, TRUE, FALSE, NAN, INFINITY, NEG_INFINITY.
  cbn [strip_prefix].
  replace (N.eqb 73 c) with false by (symmetry; apply N.eqb_neq; lia).
  reflexivity.
Qed.

(** The decoder reads an int back from its decimal digits. *)
Lemma scan_literal_int (z : Z) :
  scan_literal (str_of_int z) = Some (JInt z, []).
Proof.
  unfold str_of_int. destruct z as [|p|p]; simpl.
  - reflexivity.
  - destruct (digits_head p) as (c & s & E & Hc).
    pose proof (scan_unsigned_pos [] p) as H. rewrite E in *.
    rewrite scan_literal_digit by exact Hc.
    cbn [scan_number].
    replace (c =? 45) with false; [exact H|].
    symmetry. apply N.eqb_neq. unfold is_digit in Hc.
    apply andb_prop in Hc as [Hc _]. apply N.leb_le in Hc. lia.
  - destruct (digits_head p) as (c & s & E & Hc).
    pose proof (scan_unsigned_pos [45] p) as H. rewrite E in *.
    rewrite scan_literal_minus_digit by exact Hc.
    exact H.
Qed.

(** *** The first character of a token *)

Lemma scan_literal_head (c : N) (s : str) :
  scan_literal (c :: s) <> None ->
  c = 110 \/ c = 116 \/ c = 102 \/ c = 78 \/ c = 73 \/ c = 45
  \/ is_digit c = true.
Proof.
  intros H.
  destruct (N.eq_dec c 110) as [|N1]; [tauto|].
  destruct (N.eq_dec c 116) as [|N2]; [tauto|].
  destruct (N.eq_dec c 102) as [|N3]; [tauto|].
  destruct (N.eq_dec c 78) as [|N4]; [tauto|].
  destruct (N.eq_dec c 73) as [|N5]; [tauto|].
  destruct (N.eq_dec c 45) as [|N6]; [tauto|].
  destruct (is_digit c) eqn:Hd; [tauto|].
  exfalso. apply H.
  unfold scan_literal, NULL, TRUE, FALSE, NAN, INFINITY, NEG_INFINITY.
  cbn [strip_prefix].
  repeat match goal with
    | |- context [N.eqb ?a c] =>
        replace (N.eqb a c) with false by (symmetry; apply N.eqb_neq; lia)
    end.
  cbn [scan_number].
  replace (c =? 45) with false by (symmetry; apply N.eqb_neq; lia).
  unfold scan_unsigned, scan_int_part. rewrite Hd.
  destruct (N.eqb_spec c 48) as [->|]; [discriminate Hd | reflexivity].
Qed.

End Tokens.

Module Roundtrip.

Import Notions StringCodec Tokens DictFacts.

(** Induction on a value, with the hypothesis for every item of a list
    and every value of a dict. *)
Lemma json_induction (P : json -> Prop) :
  P JNull -> (forall b, P (JBool b)) -> (forall z, P (JInt z)) ->
  (forall l, P (JFloat l)) -> (forall s, P (JStr s)) ->
  (forall items, Forall P items -> P (JArr items)) ->
  (forall members, Forall (fun kv => P (snd kv)) members -> P (JObj members)) ->
  forall v, P v.
Proof.
  intros Hn Hb Hz Hf Hs Ha Ho. fix IH 1.
  intros [ | b | z | l | s | items | members];
    [exact Hn | apply Hb | apply Hz | apply Hf | apply Hs | apply Ha | apply Ho].
  - induction items as [|x items IHi]; constructor; [apply IH | exact IHi].
  - induction members as [|[k x] members IHm]; constructor;
      [apply IH | exact IHm].
Qed.

Lemma skip_ws_head (c : N) (s : str) :
  is_json_ws c = false -> skip_ws (c :: s) = c :: s.
Proof. intros H. simpl. now rewrite H. Qed.

(** The first character of a token is a letter, a digit or a minus
    sign. *)
Lemma token_head (s : str) (x : json * str) :
  scan_literal s = Some x ->
  exists c s', s = c :: s' /\
    (c = 110 \/ c = 116 \/ c = 102 \/ c = 78 \/ c = 73 \/ c = 45
     \/ is_digit c = true).
Proof.
  intros H. destruct s as [|c s]; [discriminate|].
  exists c, s. split; [reflexivity|].
  apply (scan_literal_head c s). congruence.
Qed.

Lemma token_head_starts (c : N) :
  (c = 110 \/ c = 116 \/ c = 102 \/ c = 78 \/ c = 73 \/ c = 45
   \/ is_digit c = true) ->
  starts_value c /\ c <> 34 /\ c <> 123 /\ c <> 91.
Proof.
  unfold starts_value, is_json_ws, is_digit.
  intros [-> | [-> | [-> | [-> | [-> | [-> | H]]]]]];
    try (repeat split; discriminate).
  apply andb_prop in H as [H1 H2]. apply N.leb_le in H1, H2.
  repeat split; try lia.
  cases_on_tests; try lia; reflexivity.
Qed.

Lemma dumps_head (v : json) :
  plain v = true -> exists c s, dumps v = c :: s /\ starts_value c.
Proof.
  unfold starts_value.
  destruct v as [ | [|] | z | l | s | items | members]; simpl; intros Hp;
    try (eexists _, _; split; [reflexivity|];
         repeat split; try discriminate; reflexivity).
  - destruct (token_head _ _ (scan_literal_int z)) as (c & s' & E & Hc).
    exists c, s'. split; [exact E|]. now apply token_head_starts.
  - unfold is_float_literal in Hp.
    destruct (scan_literal l) as [x|] eqn:E; [|discriminate].
    destruct (token_head _ _ E) as (c & s' & -> & Hc).
    exists c, s'. split; [reflexivity|]. now apply token_head_starts.
Qed.

(** *** One step of each decoder *)

Lemma scan_once_cons (fuel : nat) (c : N) (r : str) :
  scan_once (S fuel) (c :: r)
  = if c =? 34 then
      match scanstring r [] with
      | Some (x, r') => Some (JStr x, r')
      | None => None
      end
    else if c =? 123 then
      match skip_ws r with
      | [] => None
      | c1 :: r1 =>
          if c1 =? 125 then Some (JObj [], r1)
          else parse_members fuel (c1 :: r1) []
      end
    else if c =? 91 then
      match skip_ws r with
      | [] => None
      | c1 :: r1 =>
          if c1 =? 93 then Some (JArr [], r1)
          else parse_items fuel (c1 :: r1) []
      end
    else scan_literal (c :: r).
Proof. reflexivity. Qed.

Lemma parse_items_step (fuel : nat) (s : str) (acc : list json) :
  parse_items (S fuel) s acc
  = match scan_once fuel s with
    | None => None
    | Some (v, r) =>
        match skip_ws r with
        | [] => None
        | c :: r1 =>
            if c =? 93 then Some (JArr (rev (v :: acc)), r1)
            else if c =? 44 then parse_items fuel (skip_ws r1) (v :: acc)
            else None
        end
    end.
Proof. reflexivity. Qed.

Lemma parse_members_step (fuel : nat) (r : str) (acc : dict) :
  parse_members (S fuel) (34 :: r) acc
  = match scanstring r [] with
    | None => None
    | Some (k, r1) =>
        match skip_ws r1 with
        | [] => None
        | colon :: r2 =>
            if colon =? 58 then
              match scan_once fuel (skip_ws r2) with
              | None => None
              | Some (v, r3) =>
                  match skip_ws r3 with
                  | [] => None
                  | c :: r4 =>
                      if c =? 125
                      then Some (JObj (dict_set k v acc), r4)
                      else if c =? 44
                      then parse_members fuel (skip_ws r4) (dict_set k v acc)
                      else None
                  end
              end
            else None
        end
    end.
Proof. reflexivity. Qed.

(** *** Scalars *)

Lemma scan_once_token (fuel : nat) (s rest : str) (v : json) :
  scan_literal s = Some (v, []) -> delimited rest ->
  scan_once (S fuel) (s ++ rest) = Some (v, rest).
Proof.
  intros H Hd. destruct (token_head _ _ H) as (c & s' & -> & Hc).
  destruct (token_head_starts c Hc) as (_ & N1 & N2 & N3).
  cbn [app]. rewrite scan_once_cons.
  apply N.eqb_neq in N1, N2, N3. rewrite N1, N2, N3.
  change (c :: s' ++ rest) with ((c :: s') ++ rest).
  now rewrite (scan_literal_ext _ _ _ _ H Hd).
Qed.

Lemma scan_once_string (fuel : nat) (s rest : str) :
  forallb is_scalar s = true ->
  scan_once (S fuel) (encode_string s ++ rest) = Some (JStr s, rest).
Proof.
  intros Hs. unfold encode_string. cbn [app]. rewrite scan_once_cons.
  cbn [N.eqb Pos.eqb]. rewrite <- app_assoc. cbn [app].
  now rewrite scanstring_encoded.
Qed.

(** *** Lists *)

Lemma skip_ws_dumps (v : json) (rest : str) :
  plain v = true -> skip_ws (dumps v ++ rest) = dumps v ++ rest.
Proof.
  intros Hp. destruct (dumps_head v Hp) as (c & s & -> & Hc & _).
  now apply skip_ws_head.
Qed.

Lemma parse_items_dumps (items : list json) :
  Forall (fun x => forall fuel rest,
            (jsize x <= fuel)%nat -> delimited rest ->
            scan_once fuel (dumps x ++ rest) = Some (x, rest)) items ->
  forallb plain items = true -> items <> [] ->
  forall acc fuel rest,
    (list_sum (map (fun x => S (jsize x)) items) <= fuel)%nat ->
    parse_items fuel (join ITEM_SEP (map dumps items) ++ 93 :: rest) acc
    = Some (JArr (rev acc ++ items), rest).
Proof.
  induction 1 as [|x items Hx Hitems IH]; intros Hp Hne acc fuel rest Hf;
    [congruence|].
  cbn [forallb] in Hp. apply andb_prop in Hp as [Hpx Hp].
  cbn [map list_sum fold_right] in Hf.
  destruct fuel as [|fuel]; [lia|]. rewrite parse_items_step.
  destruct items as [|y items].
  - cbn [map join]. rewrite Hx by (simpl; auto; lia). reflexivity.
  - change (join ITEM_SEP (map dumps (x :: y :: items)))
      with (dumps x ++ ITEM_SEP ++ join ITEM_SEP (map dumps (y :: items))).
    rewrite <- !app_assoc. unfold ITEM_SEP at 1. cbn [app].
    rewrite Hx by (simpl; auto; lia).
    cbn [skip_ws is_json_ws N.eqb Pos.eqb orb].
    cbn [forallb] in Hp. pose proof Hp as Hp'.
    apply andb_prop in Hp' as [Hpy _].
    change (join ITEM_SEP (map dumps (y :: items)))
      with (join ITEM_SEP (dumps y :: map dumps items)).
    assert (skip_ws (join ITEM_SEP (dumps y :: map dumps items) ++ 93 :: rest)
            = join ITEM_SEP (dumps y :: map dumps items) ++ 93 :: rest) as ->.
    { destruct (dumps_head y Hpy) as (c & s & E & Hc & _). rewrite E.
      destruct (map dumps items); cbn [join app]; now apply skip_ws_head. }
    change (dumps y :: map dumps items) with (map dumps (y :: items)).
    rewrite (IH Hp ltac:(discriminate) (x :: acc) fuel rest)
      by (unfold list_sum in *; lia).
    cbn [rev]. now rewrite <- app_assoc.
Qed.

(** *** Dicts *)

Lemma str_eqb_sym (a b : str) : str_eqb a b = str_eqb b a.
Proof.
  destruct (str_eqb a b) eqn:E; symmetry.
  - apply str_eqb_eq in E. subst. apply str_eqb_refl.
  - apply str_eqb_neq. apply str_eqb_neq in E. congruence.
Qed.

(** A key that the dict does not have goes last. *)
Lemma dict_set_fresh (k : str) (v : json) (acc : dict) (ks : list str) :
  keys_distinct (map fst acc ++ k :: ks) = true ->
  dict_set k v acc = acc ++ [(k, v)].
Proof.
  induction acc as [|[k' v'] acc IH]; intros H; [reflexivity|].
  cbn [map fst app keys_distinct] in H.
  apply andb_prop in H as [H1 H2].
  apply negb_true_iff in H1. rewrite existsb_app in H1.
  apply orb_false_iff in H1 as [_ H1]. cbn [existsb] in H1.
  apply orb_false_iff in H1 as [H1 _].
  cbn [dict_set app]. rewrite H1. now rewrite IH.
Qed.

Lemma parse_members_dumps (members : dict) :
  Forall (fun kv => forall fuel rest,
            (jsize (snd kv) <= fuel)%nat -> delimited rest ->
            scan_once fuel (dumps (snd kv) ++ rest) = Some (snd kv, rest))
         members ->
  forallb (fun kv => forallb is_scalar (fst kv) && plain (snd kv)) members = true ->
  members <> [] ->
  forall acc fuel rest,
    keys_distinct (map fst acc ++ map fst members) = true ->
    (list_sum (map (fun kv => S (jsize (snd kv))) members) <= fuel)%nat ->
    parse_members fuel
      (join ITEM_SEP
         (map (fun kv => encode_string (fst kv) ++ KEY_SEP ++ dumps (snd kv))
              members) ++ 125 :: rest) acc
    = Some (JObj (acc ++ members), rest).
Proof.
  induction 1 as [|[k x] members Hx Hmembers IH];
    intros Hp Hne acc fuel rest Hk Hf; [congruence|].
  cbn [forallb fst snd] in Hp. apply andb_prop in Hp as [Hpx Hp].
  apply andb_prop in Hpx as [Hpk Hpx].
  cbn [fst snd] in Hx.
  cbn [map fst snd] in Hk.
  assert (forall tail,
            delimited tail ->
            parse_members fuel
              ((encode_string k ++ KEY_SEP ++ dumps x) ++ tail) acc
            = match fuel with
              | O => None
              | S fuel' =>
                  match tail with
                  | [] => None
                  | c :: r4 =>
                      if c =? 125 then Some (JObj (dict_set k x acc), r4)
                      else if c =? 44
                      then parse_members fuel' (skip_ws r4) (dict_set k x acc)
                      else None
                  end
              end) as Hstep.
  { intros tail Ht. destruct fuel as [|fuel]; [reflexivity|].
    unfold encode_string. cbn [app]. rewrite parse_members_step.
    rewrite <- !app_assoc. cbn [app].
    rewrite scanstring_encoded by exact Hpk.
    unfold KEY_SEP. cbn [app skip_ws is_json_ws N.eqb Pos.eqb orb rev].
    rewrite skip_ws_dumps by exact Hpx.
    rewrite Hx by (unfold list_sum in *; simpl in *; auto; lia).
    destruct tail as [|c r4]; [reflexivity|].
    replace (skip_ws (c :: r4)) with (c :: r4); [reflexivity|].
    symmetry. apply skip_ws_head. simpl in Ht.
    destruct Ht as [-> | [-> | ->]]; reflexivity. }
  cbn [map list_sum fold_right fst snd] in Hf.
  destruct fuel as [|fuel]; [lia|].
  destruct members as [|[k' y] members].
  - cbn [map join fst snd]. rewrite Hstep by (simpl; auto).
    cbn [N.eqb Pos.eqb]. now rewrite (dict_set_fresh k x acc _ Hk).
  - change (join ITEM_SEP (map ?f ((k, x) :: (k', y) :: members)))
      with ((encode_string k ++ KEY_SEP ++ dumps x)
            ++ ITEM_SEP ++ join ITEM_SEP (map f ((k', y) :: members))).
    rewrite <- (app_assoc (encode_string k ++ KEY_SEP ++ dumps x)).
    rewrite Hstep by (simpl; auto).
    rewrite <- app_assoc. unfold ITEM_SEP at 1.
    cbn [app N.eqb Pos.eqb skip_ws is_json_ws orb].
    rewrite (dict_set_fresh k x acc _ Hk).
    assert (forall t, skip_ws
              (join ITEM_SEP
                 (map (fun kv => encode_string (fst kv) ++ KEY_SEP ++ dumps (snd kv))
                      ((k', y) :: members)) ++ t)
            = join ITEM_SEP
                 (map (fun kv => encode_string (fst kv) ++ KEY_SEP ++ dumps (snd kv))
                      ((k', y) :: members)) ++ t) as ->.
    { intros t. cbn [map fst snd]. unfold encode_string at 1.
      destruct (map _ members); reflexivity. }
    rewrite (IH Hp ltac:(discriminate) (acc ++ [(k, x)]) fuel rest).
    + now rewrite <- app_assoc.
    + rewrite map_app, <- app_assoc. exact Hk.
    + unfold list_sum in *. lia.
Qed.

(** *** Values *)

Lemma Forall_under (A : Type) (p p0 : A -> bool) (Q : A -> Prop)
    (l : list A) :
  (forall x, p x = true -> p0 x = true) ->
  Forall (fun x => p0 x = true -> Q x) l ->
  forallb p l = true -> Forall Q l.
Proof.
  intros Hpp. induction 1 as [|x l Hx _ IH]; intros Hp; [constructor|].
  cbn [forallb] in Hp. apply andb_prop in Hp as [Hpx Hp].
  constructor; auto.
Qed.

Lemma member_plain (kv : str * json) :
  forallb is_scalar (fst kv) && plain (snd kv) = true -> plain (snd kv) = true.
Proof. intros H. now apply andb_prop in H as [_ H]. Qed.

(** The decoder reads back what the encoder wrote, whatever delimiter
    follows. *)
Lemma scan_once_dumps (v : json) :
  plain v = true ->
  forall fuel rest,
    (jsize v <= fuel)%nat -> delimited rest ->
    scan_once fuel (dumps v ++ rest) = Some (v, rest).
Proof.
  induction v as [ | b | z | l | s | items IH | members IH]
    using json_induction;
    intros Hp fuel rest Hf Hd; cbn [jsize] in Hf;
    (destruct fuel as [|fuel]; [lia|]).
  - apply scan_once_token; [reflexivity | exact Hd].
  - destruct b; apply scan_once_token; (reflexivity || exact Hd).
  - apply scan_once_token; [apply scan_literal_int | exact Hd].
  - apply scan_once_token; [|exact Hd].
    cbn [plain] in Hp. unfold is_float_literal in Hp.
    destruct (scan_literal l) as [[[ | | | l' | | | ] [|]]|] eqn:E;
      try discriminate.
    apply str_eqb_eq in Hp. cbn [dumps]. congruence.
  - now apply scan_once_string.
  - cbn [plain] in Hp. cbn [dumps app]. rewrite scan_once_cons.
    cbn [N.eqb Pos.eqb].
    destruct items as [|x items]; [reflexivity|].
    assert (exists c s, join ITEM_SEP (map dumps (x :: items)) ++ 93 :: rest
                        = c :: s /\ starts_value c) as (c & s & E & Hc).
    { cbn [forallb] in Hp. apply andb_prop in Hp as [Hx _].
      destruct (dumps_head x Hx) as (c & s & E & Hc).
      cbn [map]. rewrite E. destruct (map dumps items); cbn [join app]; eauto. }
    rewrite <- app_assoc. change ([93] ++ rest) with (93 :: rest). rewrite E.
    destruct Hc as (Hws & _ & H93 & _).
    rewrite (skip_ws_head _ _ Hws). apply N.eqb_neq in H93. rewrite H93.
    rewrite <- E.
    rewrite (parse_items_dumps (x :: items)
               (Forall_under _ plain plain _ _ (fun _ H => H) IH Hp)
               Hp ltac:(discriminate) [] fuel rest)
      by lia.
    reflexivity.
  - cbn [plain] in Hp. apply andb_prop in Hp as [Hp Hk].
    cbn [dumps app]. rewrite scan_once_cons. cbn [N.eqb Pos.eqb].
    destruct members as [|[k x] members]; [reflexivity|].
    rewrite <- app_assoc.
    assert (skip_ws
              (join ITEM_SEP
                 (map (fun kv => encode_string (fst kv) ++ KEY_SEP ++ dumps (snd kv))
                      ((k, x) :: members)) ++ [125] ++ rest)
            = 34 :: (flat_map encode_char k ++ [34] ++ KEY_SEP ++ dumps x)
                 ++ match members with
                    | [] => []
                    | _ :: _ =>
                        ITEM_SEP ++ join ITEM_SEP
                          (map (fun kv => encode_string (fst kv) ++ KEY_SEP ++ dumps (snd kv))
                               members)
                    end ++ [125] ++ rest) as E.
    { cbn [map fst snd]. unfold encode_string at 1.
      destruct members; cbn [map join app skip_ws is_json_ws N.eqb Pos.eqb orb];
        rewrite <- ?app_assoc; cbn [app]; rewrite <- ?app_assoc; reflexivity. }
    rewrite E. cbn [N.eqb Pos.eqb].
    pose proof (parse_members_dumps ((k, x) :: members)
                  (Forall_under _ _ (fun kv => plain (snd kv)) _ _
                     member_plain IH Hp)
                  Hp ltac:(discriminate) [] fuel rest Hk ltac:(lia)) as Hm.
    etransitivity; [|exact Hm]. f_equal.
    cbn [map fst snd]. unfold encode_string at 2.
    destruct members; cbn [map join app];
      rewrite <- ?app_assoc; cbn [app]; rewrite <- ?app_assoc; reflexivity.
Qed.

(** *** Fuel *)

Lemma length_join_dumps (sep : str) (x : str) (parts : list str) :
  length (join sep (x :: parts))
  = (length x + match parts with
                | [] => 0
                | _ :: _ => length sep + length (join sep parts)
                end)%nat.
Proof.
  destruct parts; cbn [join]; rewrite ?length_app; lia.
Qed.

Lemma jsize_items (A : Type) (size : A -> nat) (enc : A -> str)
    (items : list A) :
  Forall (fun x => (size x <= length (enc x))%nat) items ->
  (list_sum (map (fun x => S (size x)) items)
   <= S (length (join ITEM_SEP (map enc items))))%nat.
Proof.
  induction 1 as [|x items Hx Hitems IH]; [simpl; lia|].
  cbn [map]. rewrite length_join_dumps.
  cbn [list_sum fold_right]. unfold list_sum in IH.
  destruct items as [|y items]; [simpl; lia|].
  cbn [map] in *. unfold ITEM_SEP at 1. cbn [length]. lia.
Qed.

(** The fuel that a value needs is at most the length of its text. *)
Lemma jsize_le_length (v : json) :
  plain v = true -> (jsize v <= length (dumps v))%nat.
Proof.
  induction v as [ | b | z | l | s | items IH | members IH]
    using json_induction; intros Hp;
    try (destruct (dumps_head _ Hp) as (c & s' & E & _); rewrite E;
         cbn [jsize length]; lia).
  - cbn [plain] in Hp. cbn [jsize dumps length]. rewrite length_app.
    pose proof (Forall_under _ plain plain _ _ (fun _ H => H) IH Hp) as H.
    pose proof (jsize_items json jsize dumps items H). cbn [length]. lia.
  - cbn [plain] in Hp. apply andb_prop in Hp as [Hp _].
    cbn [jsize dumps length]. rewrite length_app.
    assert (Forall (fun kv => (jsize (snd kv)
              <= length (encode_string (fst kv) ++ KEY_SEP ++ dumps (snd kv)))%nat)
              members) as H.
    { clear -IH Hp. induction IH as [|x items Hx _ IHi]; [constructor|].
      cbn [forallb] in Hp. apply andb_prop in Hp as [Hpx Hp].
      apply andb_prop in Hpx as [_ Hpx].
      constructor; auto. rewrite !length_app. specialize (Hx Hpx). lia. }
    pose proof (jsize_items _ (fun kv => jsize (snd kv))
                  (fun kv => encode_string (fst kv) ++ KEY_SEP ++ dumps (snd kv))
                  members H).
    cbn [length]. lia.
Qed.

(** [json.loads(json.dumps(v))] is [v]. *)
Theorem loads_dumps (v : json) :
  plain v = true -> loads (dumps v) = Some v.
Proof.
  intros Hp. unfold loads.
  pose proof (skip_ws_dumps v [] Hp) as Hs. rewrite app_nil_r in Hs.
  rewrite Hs.
  pose proof (scan_once_dumps v Hp (S (length (dumps v))) []
                ltac:(pose proof (jsize_le_length v Hp); lia) I) as H.
  rewrite app_nil_r in H. now rewrite H.
Qed.

End Roundtrip.

(* ===================================================================== *)
(** ** Reconciliation of clean and of fenced responses *)
(* ===================================================================== *)

Module StripFacts.

Lemma lstrip_head (c : N) (s : str) :
  isspace c = false -> lstrip (c :: s) = c :: s.
Proof. intros H. cbn [lstrip]. now rewrite H. Qed.

Lemma lstrip_app (a b : str) :
  match b with [] => False | c :: _ => isspace c = false end ->
  lstrip (a ++ b) = lstrip a ++ b.
Proof.
  intros Hb. induction a as [|c a IH]; cbn [app lstrip].
  - destruct b as [|c b]; [contradiction|]. cbn [lstrip]. now rewrite Hb.
  - now destruct (isspace c).
Qed.

Lemma rstrip_app (y s : str) (c : N) :
  isspace c = false ->
  rstrip ((y ++ [c]) ++ s) = (y ++ [c]) ++ rstrip s.
Proof.
  intros Hc. unfold rstrip. rewrite rev_app_distr.
  rewrite lstrip_app.
  - now rewrite rev_app_distr, rev_involutive.
  - rewrite rev_app_distr. cbn [rev app]. exact Hc.
Qed.

Lemma rstrip_last (y : str) (c : N) :
  isspace c = false -> rstrip (y ++ [c]) = y ++ [c].
Proof.
  intros Hc. pose proof (rstrip_app y [] c Hc) as H.
  now rewrite !app_nil_r in H.
Qed.

(** Text between brackets has nothing to strip. *)
Lemma strip_brackets (body : str) :
  strip (91 :: body ++ [93]) = 91 :: body ++ [93].
Proof.
  unfold strip. rewrite lstrip_head by reflexivity.
  apply (rstrip_last (91 :: body) 93). reflexivity.
Qed.




End StripFacts.

Module CleanInput.

Import GeminiExtractor Notions Roundtrip StripFacts.

Lemma dicts_of_objects (records : list dict) :
  dicts_of (map JObj records) = records.
Proof.
  unfold dicts_of. induction records as [|r records IH]; simpl; congruence.
Qed.

(** C6 (as amended): the text that [json.dumps] writes for a list of
    plain dicts has nothing to strip, parses directly, and is reconciled
    to the same dicts in the same order, each with its key source_page
    set to the page: added after the other keys when the dict had no
    such key, overwritten in place when it had one. *)
Theorem clean_input_recovered_and_stamped (records : list dict) (page : json) :
  forallb plain (map JObj records) = true ->
  strip (dumps (JArr (map JObj records))) = dumps (JArr (map JObj records)) /\
  reconcile (strip (dumps (JArr (map JObj records)))) page
  = Ok (map (stamp page) records).
Proof.
  intros Hp.
  assert (strip (dumps (JArr (map JObj records)))
          = dumps (JArr (map JObj records))) as Hs
    by apply strip_brackets.
  split; [exact Hs|]. rewrite Hs. unfold reconcile.
  rewrite loads_dumps by exact Hp.
  now rewrite Reconcile.records_of_list, dicts_of_objects.
Qed.

Lemma clean_input_recovered_and_stamped_witness :
  reconcile (strip (dumps (JArr (map JObj [SCOPE1; []])))) (JInt 4)
  = Ok [SCOPE1 ++ [(SOURCE_PAGE, JInt 4)]; [(SOURCE_PAGE, JInt 4)]].
Proof.
  apply (proj2 (clean_input_recovered_and_stamped [SCOPE1; []] (JInt 4)
                  ltac:(vm_compute; reflexivity))).
Defined.

(** C6 (counterexample): a record that has the key source_page comes
    back with another value under that key, and a record without it
    comes back with one more key. *)
Lemma stamped_records_differ :
  reconcile (strip (dumps (JArr [JObj [(SOURCE_PAGE, JInt 99)]; JObj []])))
            (JInt 1)
  = Ok [[(SOURCE_PAGE, JInt 1)]; [(SOURCE_PAGE, JInt 1)]] /\
  [[(SOURCE_PAGE, JInt 1)]; [(SOURCE_PAGE, JInt 1)]]
  <> [[(SOURCE_PAGE, JInt 99)]; []].
Proof. split; [vm_compute; reflexivity | discriminate]. Qed.

End CleanInput.

Module Patterns.

Import Notions.

(** A star fails when what follows it fails after every split. *)
Lemma star_none (R : Type) (cls : N -> bool) (b : str)
    (k : str -> option R) :
  (forall b1 b2, b = b1 ++ b2 -> k b2 = None) -> Re.star cls b k = None.
Proof.
  induction b as [|c b IH]; intros H; cbn [Re.star].
  - apply (H [] []). reflexivity.
  - rewrite IH.
    + destruct (cls c); apply (H [] (c :: b)); reflexivity.
    + intros b1 b2 ->. apply (H (c :: b1) b2). reflexivity.
Qed.

(** A star over every character stops at the last place after which
    what follows it succeeds. *)
Lemma star_any_last (R : Type) (a b : str) (k : str -> option R) (x : R) :
  k b = Some x ->
  (forall b1 b2, b = b1 ++ b2 -> b1 <> [] -> k b2 = None) ->
  Re.star Re.any (a ++ b) k = Some x.
Proof.
  intros Hk Hlater. induction a as [|c a IH]; cbn [app Re.star].
  - destruct b as [|c b]; [exact Hk|]. cbn [Re.star Re.any].
    rewrite star_none; [exact Hk|].
    intros b1 b2 ->. apply (Hlater (c :: b1) b2); [reflexivity | discriminate].
  - cbn [Re.any]. now rewrite IH.
Qed.

Lemma firstn_prefix (A : Type) (l1 l2 : list A) :
  firstn (length (l1 ++ l2) - length l2) (l1 ++ l2) = l1.
Proof.
  rewrite length_app.
  replace (length l1 + length l2 - length l2)%nat with (length l1) by lia.
  rewrite firstn_app, Nat.sub_diag, firstn_all. simpl. apply app_nil_r.
Qed.

Lemma free_of_cons (chars : list N) (c : N) (s : str) :
  free_of chars (c :: s) = true ->
  existsb (N.eqb c) chars = false /\ free_of chars s = true.
Proof.
  unfold free_of. cbn [forallb]. intros H.
  apply andb_prop in H as [H1 H2]. apply negb_true_iff in H1. auto.
Qed.

Lemma free_of_suffix (chars : list N) (b1 b2 : str) :
  free_of chars (b1 ++ b2) = true -> free_of chars b2 = true.
Proof.
  unfold free_of. rewrite forallb_app. intros H.
  now apply andb_prop in H as [_ H].
Qed.

Lemma free_of_incl (chars : list N) (s s' : str) :
  (forall c, In c s' -> In c s) ->
  free_of chars s = true -> free_of chars s' = true.
Proof.
  unfold free_of. intros Hincl H. apply forallb_forall. intros c Hc.
  rewrite forallb_forall in H. apply H. auto.
Qed.

(** *** The pattern of [extract_metrics] *)




(** What follows a star fails when the text does not begin with [c]. *)
Lemma no_closer (R : Type) (c : N) (sfx b1 b2 : str)
    (k : str -> option R) :
  free_of [c] sfx = true -> c :: sfx = b1 ++ b2 -> b1 <> [] ->
  match b2 with
  | [] => None
  | x :: s' => if x =? c then k s' else None
  end = None.
Proof.
  intros Hs E Hb1. destruct b1 as [|c1 b1]; [congruence|].
  injection E as _ ->. apply free_of_suffix in Hs.
  destruct b2 as [|x b2]; [reflexivity|].
  apply free_of_cons in Hs as [Hx _]. cbn [existsb] in Hx.
  apply orb_false_iff in Hx as [Hx _]. now rewrite Hx.
Qed.

Lemma span_at_bracket (body sfx : str) :
  free_of [93] sfx = true ->
  Re.search GeminiExtractor.SPAN (91 :: body ++ 93 :: sfx)
  = Some (Re.MatchObj (91 :: body ++ [93]) (Some (91 :: body ++ [93]))).
Proof.
  intros Hs.
  assert (Re.match_here GeminiExtractor.SPAN (91 :: body ++ 93 :: sfx)
          = Some (Re.MatchObj (91 :: body ++ [93]) (Some (91 :: body ++ [93]))))
    as H.
  { unfold Re.match_here, GeminiExtractor.SPAN. cbn [Re.exec N.eqb Pos.eqb].
    rewrite (star_any_last _ body (93 :: sfx) _
               (Re.MatchObj (91 :: body ++ [93]) (Some (91 :: body ++ [93])))).
    - reflexivity.
    - cbn [N.eqb Pos.eqb].
      change (91 :: body ++ 93 :: sfx) with ((91 :: body) ++ [93] ++ sfx).
      rewrite app_assoc, firstn_prefix. reflexivity.
    - intros b1 b2 E Hb1. now apply (no_closer _ 93 sfx b1 b2). }
  cbn [Re.search]. now rewrite H.
Qed.

(** *** The pattern of [extract_json] *)

Lemma fenced_not_here (c : N) (s : str) :
  existsb (N.eqb c) [96] = false ->
  Re.match_here CompareMetrics.FENCED (c :: s) = None.
Proof.
  cbn [existsb]. intros H. apply orb_false_iff in H as [H _].
  unfold Re.match_here, CompareMetrics.FENCED, CompareMetrics.TICKS.
  cbn [Re.exec Re.lits]. now rewrite H.
Qed.





End Patterns.

Module Consumed.

Import Notions StringCodec Tokens Patterns.

(** What a scalar token is made of contains no line feed. *)

Lemma free_of_app (chars : list N) (a b : str) :
  free_of chars (a ++ b) = free_of chars a && free_of chars b.
Proof. unfold free_of. apply forallb_app. Qed.

Lemma hexval_not_lf (c : N) (d : N) : hexval c = Some d -> c <> 10.
Proof. intros H ->. discriminate. Qed.

Lemma decode_hex4_not_lf (a b c d n : N) :
  decode_hex4 a b c d = Some n -> free_of [10] [a; b; c; d] = true.
Proof.
  unfold decode_hex4.
  destruct (hexval a) eqn:Ea; [|discriminate].
  destruct (hexval b) eqn:Eb; [|discriminate].
  destruct (hexval c) eqn:Ec; [|discriminate].
  destruct (hexval d) eqn:Ed; [|discriminate].
  intros _. apply hexval_not_lf in Ea, Eb, Ec, Ed.
  unfold free_of. cbn [forallb existsb].
  apply N.eqb_neq in Ea, Eb, Ec, Ed. now rewrite Ea, Eb, Ec, Ed.
Qed.

Lemma backslash_not_lf (e ch : N) : backslash e = Some ch -> e <> 10.
Proof. intros H ->. discriminate. Qed.

Lemma scanstring_consumed (n : nat) :
  forall s acc x r,
    (length s <= n)%nat ->
    scanstring s acc = Some (x, r) ->
    exists con, s = con ++ r /\ free_of [10] con = true /\ con <> [].
Proof.
  induction n as [|n IH]; intros s acc x r Hlen H.
  - destruct s; [discriminate | simpl in Hlen; lia].
  - destruct s as [|c r0]; [discriminate|]. cbn [scanstring] in H.
    cbn [length] in Hlen.
    destruct (N.eqb_spec c 34) as [->|N34].
    { injection H as _ <-. exists [34]. repeat split. discriminate. }
    destruct (N.eqb_spec c 92) as [->|N92].
    + destruct r0 as [|e r1]; [discriminate|].
      destruct (N.eqb_spec e 117) as [->|N117].
      * destruct r1 as [|h1 [|h2 [|h3 [|h4 r2]]]]; try discriminate.
        destruct (decode_hex4 h1 h2 h3 h4) as [uni|] eqn:D1; [|discriminate].
        pose proof (decode_hex4_not_lf _ _ _ _ _ D1) as F1.
        assert (forall acc', scanstring r2 acc' = Some (x, r) ->
                  exists con, 92 :: 117 :: h1 :: h2 :: h3 :: h4 :: r2 = con ++ r
                              /\ free_of [10] con = true /\ con <> [])
          as Hsingle.
        { intros acc' H'.
          destruct (IH r2 acc' x r ltac:(cbn [length] in *; lia) H')
            as (con & -> & Hc & _).
          exists (92 :: 117 :: h1 :: h2 :: h3 :: h4 :: con).
          split; [reflexivity|]. split; [|discriminate].
          change (92 :: 117 :: h1 :: h2 :: h3 :: h4 :: con)
            with ([92; 117] ++ [h1; h2; h3; h4] ++ con).
          rewrite !free_of_app, F1, Hc. reflexivity. }
        destruct (is_high_surrogate uni); [|eauto].
        destruct r2 as [|b [|l [|g1 [|g2 [|g3 [|g4 r4]]]]]]; eauto.
        destruct ((b =? 92) && (l =? 117)) eqn:Ebl; [|eauto].
        apply andb_prop in Ebl as [Eb El].
        apply N.eqb_eq in Eb, El. subst b l.
        destruct (decode_hex4 g1 g2 g3 g4) as [uni2|] eqn:D2; [|discriminate].
        pose proof (decode_hex4_not_lf _ _ _ _ _ D2) as F2.
        destruct (is_low_surrogate uni2); [|eauto].
        destruct (IH r4 _ x r ltac:(cbn [length] in *; lia) H)
          as (con & -> & Hc & _).
        exists (92 :: 117 :: h1 :: h2 :: h3 :: h4
                :: 92 :: 117 :: g1 :: g2 :: g3 :: g4 :: con).
        split; [reflexivity|]. split; [|discriminate].
        change (92 :: 117 :: h1 :: h2 :: h3 :: h4
                :: 92 :: 117 :: g1 :: g2 :: g3 :: g4 :: con)
          with ([92; 117] ++ [h1; h2; h3; h4] ++ [92; 117]
                ++ [g1; g2; g3; g4] ++ con).
        rewrite !free_of_app, F1, F2, Hc. reflexivity.
      * destruct (backslash e) as [ch|] eqn:B; [|discriminate].
        apply backslash_not_lf in B.
        destruct (IH r1 _ x r ltac:(cbn [length] in *; lia) H)
          as (con & -> & Hc & _).
        exists (92 :: e :: con). split; [reflexivity|].
        split; [|discriminate].
        change (92 :: e :: con) with ([92] ++ [e] ++ con).
        rewrite !free_of_app, Hc. unfold free_of. cbn [forallb existsb].
        apply N.eqb_neq in B. now rewrite B.
    + destruct (N.ltb_spec c 32) as [|Hc32]; [discriminate|].
      destruct (IH r0 _ x r ltac:(lia) H) as (con & -> & Hc & _).
      exists (c :: con). split; [reflexivity|]. split; [|discriminate].
      change (c :: con) with ([c] ++ con).
      rewrite free_of_app, Hc. unfold free_of. cbn [forallb existsb].
      replace (c =? 10) with false; [reflexivity|].
      symmetry. apply N.eqb_neq. lia.
Qed.

Lemma strip_prefix_consumed (p s r : str) :
  strip_prefix p s = Some r -> s = p ++ r.
Proof.
  revert s. induction p as [|a p IH]; intros s H; simpl in H.
  - now injection H as <-.
  - destruct s as [|b s]; [discriminate|].
    destruct (N.eqb_spec a b) as [->|]; [|discriminate].
    simpl. f_equal. auto.
Qed.

Lemma digit_not_lf (c : N) : is_digit c = true -> (c =? 10) = false.
Proof.
  unfold is_digit. intros H. apply andb_prop in H as [H _].
  apply N.leb_le in H. apply N.eqb_neq. lia.
Qed.

Lemma free_of_lf_cons (c : N) (s : str) :
  (c =? 10) = false -> free_of [10] s = true -> free_of [10] (c :: s) = true.
Proof.
  intros Hc Hs. unfold free_of in *. cbn [forallb]. rewrite Hs.
  cbn [existsb]. now rewrite Hc.
Qed.

Lemma span_digits_consumed (s d r : str) :
  span_digits s = (d, r) -> s = d ++ r /\ free_of [10] d = true.
Proof.
  revert d r. induction s as [|c s IH]; intros d r H; simpl in H.
  - injection H as <- <-. auto.
  - destruct (is_digit c) eqn:Hc.
    + destruct (span_digits s) as [d' r'].
      injection H as <- <-. destruct (IH d' r' eq_refl) as [-> Hd].
      split; [reflexivity|]. apply free_of_lf_cons; auto using digit_not_lf.
    + injection H as <- <-. auto.
Qed.

Lemma scan_int_part_consumed (s ip r : str) :
  scan_int_part s = Some (ip, r) ->
  s = ip ++ r /\ free_of [10] ip = true /\ ip <> [].
Proof.
  destruct s as [|c s]; [discriminate|]. cbn [scan_int_part].
  destruct (N.eqb_spec c 48) as [->|].
  - intros [= <- <-]. repeat split. discriminate.
  - destruct (is_digit c) eqn:Hc; [|discriminate].
    destruct (span_digits s) as [d r'] eqn:E.
    intros [= <- <-]. apply span_digits_consumed in E as [-> Hd].
    split; [reflexivity|]. split; [|discriminate].
    apply free_of_lf_cons; auto using digit_not_lf.
Qed.

Lemma scan_frac_consumed (s fp r : str) :
  scan_frac s = (fp, r) -> s = fp ++ r /\ free_of [10] fp = true.
Proof.
  destruct s as [|dot [|f s]]; cbn [scan_frac]; try (intros [= <- <-]; auto).
  destruct ((dot =? 46) && is_digit f) eqn:E; [|intros [= <- <-]; auto].
  apply andb_prop in E as [E1 E2]. apply N.eqb_eq in E1. subst dot.
  destruct (span_digits s) as [d r'] eqn:Es.
  intros [= <- <-]. apply span_digits_consumed in Es as [-> Hd].
  split; [reflexivity|].
  apply free_of_lf_cons; [reflexivity|].
  apply free_of_lf_cons; auto using digit_not_lf.
Qed.

Lemma scan_exp_consumed (s ep r : str) :
  scan_exp s = (ep, r) -> s = ep ++ r /\ free_of [10] ep = true.
Proof.
  destruct s as [|e s]; cbn [scan_exp]; [intros [= <- <-]; auto|].
  destruct ((e =? 101) || (e =? 69)) eqn:Ee; [|intros [= <- <-]; auto].
  assert ((e =? 10) = false) as He.
  { apply orb_prop in Ee as [Ee|Ee]; apply N.eqb_eq in Ee; now subst. }
  destruct s as [|c s].
  - intros [= <- <-]. auto.
  - destruct ((c =? 45) || (c =? 43)) eqn:Ec.
    + assert ((c =? 10) = false) as Hc.
      { apply orb_prop in Ec as [Ec|Ec]; apply N.eqb_eq in Ec; now subst. }
      destruct (span_digits s) as [d r'] eqn:Es.
      apply span_digits_consumed in Es as [-> Hd].
      destruct d; intros [= <- <-]; [auto|].
      split; [reflexivity|].
      apply free_of_lf_cons; [exact He|].
      cbn [app]. apply free_of_lf_cons; [exact Hc|exact Hd].
    + destruct (span_digits (c :: s)) as [d r'] eqn:Es.
      apply span_digits_consumed in Es as [Es Hd].
      destruct d; intros [= <- <-]; [auto|].
      split; [cbn [app]; now rewrite Es|].
      apply free_of_lf_cons; [exact He|exact Hd].
Qed.

Lemma scan_unsigned_consumed (sign s : str) (v : json) (r : str) :
  scan_unsigned sign s = Some (v, r) ->
  exists con, s = con ++ r /\ free_of [10] con = true /\ con <> [].
Proof.
  unfold scan_unsigned.
  destruct (scan_int_part s) as [[ip s2]|] eqn:E1; [|discriminate].
  destruct (scan_frac s2) as [fp s3] eqn:E2.
  destruct (scan_exp s3) as [ep s4] eqn:E3.
  apply scan_int_part_consumed in E1 as (-> & H1 & Hne).
  apply scan_frac_consumed in E2 as [-> H2].
  apply scan_exp_consumed in E3 as [-> H3].
  intros H. assert (r = s4) as -> by (destruct fp, ep; congruence).
  exists (ip ++ fp ++ ep). split; [now rewrite <- !app_assoc|].
  split; [now rewrite !free_of_app, H1, H2, H3|].
  destruct ip; [congruence | discriminate].
Qed.

Lemma scan_literal_consumed (s : str) (v : json) (r : str) :
  scan_literal s = Some (v, r) ->
  exists con, s = con ++ r /\ free_of [10] con = true /\ con <> [].
Proof.
  unfold scan_literal.
  destruct (strip_prefix NULL s) eqn:E1;
    [intros [= <- <-]; apply strip_prefix_consumed in E1;
     exists NULL; repeat split; [exact E1 | discriminate]|].
  destruct (strip_prefix TRUE s) eqn:E2;
    [intros [= <- <-]; apply strip_prefix_consumed in E2;
     exists TRUE; repeat split; [exact E2 | discriminate]|].
  destruct (strip_prefix FALSE s) eqn:E3;
    [intros [= <- <-]; apply strip_prefix_consumed in E3;
     exists FALSE; repeat split; [exact E3 | discriminate]|].
  destruct (strip_prefix NAN s) eqn:E4;
    [intros [= <- <-]; apply strip_prefix_consumed in E4;
     exists NAN; repeat split; [exact E4 | discriminate]|].
  destruct (strip_prefix INFINITY s) eqn:E5;
    [intros [= <- <-]; apply strip_prefix_consumed in E5;
     exists INFINITY; repeat split; [exact E5 | discriminate]|].
  destruct (strip_prefix NEG_INFINITY s) eqn:E6;
    [intros [= <- <-]; apply strip_prefix_consumed in E6;
     exists NEG_INFINITY; repeat split; [exact E6 | discriminate]|].
  destruct s as [|c s]; [discriminate|]. cbn [scan_number].
  destruct (N.eqb_spec c 45) as [->|].
  - intros H. apply scan_unsigned_consumed in H as (con & -> & Hc & _).
    exists (45 :: con). split; [reflexivity|]. split; [|discriminate].
    now apply free_of_lf_cons.
  - apply scan_unsigned_consumed.
Qed.





End Consumed.

Module FencedInput.

Import GeminiExtractor Notions StripFacts Patterns Consumed.







End FencedInput.

(* ===================================================================== *)
(** ** The fuel of the decoder *)
(* ===================================================================== *)

Module Fuel.

Import Notions Roundtrip Consumed.

Lemma parse_members_cons (fuel : nat) (q : N) (r : str) (acc : dict) :
  parse_members (S fuel) (q :: r) acc
  = if q =? 34 then parse_members (S fuel) (34 :: r) acc else None.
Proof.
  destruct (N.eqb_spec q 34) as [->|H]; [reflexivity|].
  cbn [parse_members]. apply N.eqb_neq in H. now rewrite H.
Qed.

(** More fuel does not change a result. *)
Lemma fuel_mono (f : nat) :
  (forall s x f', (f <= f')%nat ->
     scan_once f s = Some x -> scan_once f' s = Some x) /\
  (forall s acc x f', (f <= f')%nat ->
     parse_items f s acc = Some x -> parse_items f' s acc = Some x) /\
  (forall s acc x f', (f <= f')%nat ->
     parse_members f s acc = Some x -> parse_members f' s acc = Some x).
Proof.
  induction f as [|f (IHs & IHi & IHm)].
  - repeat split; intros; discriminate.
  - repeat split.
    + intros s x f' Hf H. destruct f' as [|f']; [lia|].
      destruct s as [|c r]; [discriminate|].
      rewrite scan_once_cons in *.
      destruct (c =? 34); [exact H|].
      destruct (c =? 123).
      { destruct (skip_ws r) as [|c1 r1]; [discriminate|].
        destruct (c1 =? 125); [exact H|]. apply (IHm _ _ _ f'); [lia|exact H]. }
      destruct (c =? 91); [|exact H].
      destruct (skip_ws r) as [|c1 r1]; [discriminate|].
      destruct (c1 =? 93); [exact H|]. apply (IHi _ _ _ f'); [lia|exact H].
    + intros s acc x f' Hf H. destruct f' as [|f']; [lia|].
      rewrite parse_items_step in *.
      destruct (scan_once f s) as [[v r]|] eqn:E; [|discriminate].
      rewrite (IHs _ _ f' ltac:(lia) E).
      destruct (skip_ws r) as [|c r1]; [discriminate|].
      destruct (c =? 93); [exact H|].
      destruct (c =? 44); [|discriminate].
      apply (IHi _ _ _ f'); [lia|exact H].
    + intros s acc x f' Hf H. destruct f' as [|f']; [lia|].
      destruct s as [|q r]; [discriminate|].
      rewrite parse_members_cons in *.
      destruct (q =? 34); [|discriminate].
      rewrite parse_members_step in *.
      destruct (scanstring r []) as [[k r1]|]; [|discriminate].
      destruct (skip_ws r1) as [|colon r2]; [discriminate|].
      destruct (colon =? 58); [|discriminate].
      destruct (scan_once f (skip_ws r2)) as [[v r3]|] eqn:E; [|discriminate].
      rewrite (IHs _ _ f' ltac:(lia) E).
      destruct (skip_ws r3) as [|c r4]; [discriminate|].
      destruct (c =? 125); [exact H|].
      destruct (c =? 44); [|discriminate].
      apply (IHm _ _ _ f'); [lia|exact H].
Qed.

Lemma skip_ws_length (s : str) : (length (skip_ws s) <= length s)%nat.
Proof.
  induction s as [|c s IH]; cbn [skip_ws]; [lia|].
  destruct (is_json_ws c); cbn [length]; lia.
Qed.

Lemma skip_ws_cons_length (s : str) (c : N) (r : str) :
  skip_ws s = c :: r -> (length r < length s)%nat.
Proof.
  intros H. pose proof (skip_ws_length s) as Hl. rewrite H in Hl.
  cbn [length] in Hl. lia.
Qed.

Lemma scanstring_shorter (s acc x r : str) :
  scanstring s acc = Some (x, r) -> (length r < length s)%nat.
Proof.
  intros H.
  destruct (scanstring_consumed _ _ _ _ _ (Nat.le_refl _) H)
    as (con & -> & _ & Hne).
  rewrite length_app. destruct con; [congruence|]. cbn [length]. lia.
Qed.

Lemma scan_literal_shorter (s : str) (v : json) (r : str) :
  scan_literal s = Some (v, r) -> (length r < length s)%nat.
Proof.
  intros H. destruct (scan_literal_consumed _ _ _ H) as (con & -> & _ & Hne).
  rewrite length_app. destruct con; [congruence|]. cbn [length]. lia.
Qed.

(** A result is reached with as many units of fuel as it takes
    characters. *)
Lemma fuel_bound (f : nat) :
  (forall s v r, scan_once f s = Some (v, r) ->
     (length r < length s)%nat /\
     scan_once (length s - length r) s = Some (v, r)) /\
  (forall s acc v r, parse_items f s acc = Some (v, r) ->
     (length r < length s)%nat /\
     parse_items (length s - length r) s acc = Some (v, r)) /\
  (forall s acc v r, parse_members f s acc = Some (v, r) ->
     (length r < length s)%nat /\
     parse_members (length s - length r) s acc = Some (v, r)).
Proof.
  induction f as [|f (IHs & IHi & IHm)].
  - repeat split; intros; discriminate.
  - split; [|split].
    + intros s v r H. destruct s as [|c r0]; [discriminate|].
      rewrite scan_once_cons in H.
      destruct (c =? 34) eqn:E34.
      { destruct (scanstring r0 []) as [[x r']|] eqn:Es; [|discriminate].
        injection H as <- <-. pose proof (scanstring_shorter _ _ _ _ Es).
        split; [cbn [length]; lia|].
        destruct (length (c :: r0) - length r')%nat eqn:El;
          [cbn [length] in El; lia|].
        rewrite scan_once_cons, E34, Es. reflexivity. }
      destruct (c =? 123) eqn:E123.
      { destruct (skip_ws r0) as [|c1 r1] eqn:Esk; [discriminate|].
        pose proof (skip_ws_cons_length _ _ _ Esk).
        destruct (c1 =? 125) eqn:E125.
        - injection H as <- <-. split; [cbn [length]; lia|].
          destruct (length (c :: r0) - length r1)%nat eqn:El;
            [cbn [length] in El; lia|].
          rewrite scan_once_cons, E34, E123, Esk, E125. reflexivity.
        - destruct (IHm _ _ _ _ H) as [Hl Hm].
          cbn [length] in *. split; [lia|].
          destruct (S (length r0) - length r)%nat eqn:El; [lia|].
          rewrite scan_once_cons, E34, E123, Esk, E125.
          refine (proj2 (proj2 (fuel_mono _)) _ _ _ n _ Hm); cbn [length]; lia. }
      destruct (c =? 91) eqn:E91.
      { destruct (skip_ws r0) as [|c1 r1] eqn:Esk; [discriminate|].
        pose proof (skip_ws_cons_length _ _ _ Esk).
        destruct (c1 =? 93) eqn:E93.
        - injection H as <- <-. split; [cbn [length]; lia|].
          destruct (length (c :: r0) - length r1)%nat eqn:El;
            [cbn [length] in El; lia|].
          rewrite scan_once_cons, E34, E123, E91, Esk, E93. reflexivity.
        - destruct (IHi _ _ _ _ H) as [Hl Hm].
          cbn [length] in *. split; [lia|].
          destruct (S (length r0) - length r)%nat eqn:El; [lia|].
          rewrite scan_once_cons, E34, E123, E91, Esk, E93.
          refine (proj1 (proj2 (fuel_mono _)) _ _ _ n _ Hm); cbn [length]; lia. }
      pose proof (scan_literal_shorter _ _ _ H). split; [exact H0|].
      destruct (length (c :: r0) - length r)%nat eqn:El; [lia|].
      rewrite scan_once_cons, E34, E123, E91. exact H.
    + intros s acc v r H. rewrite parse_items_step in H.
      destruct (scan_once f s) as [[v1 r1]|] eqn:E1; [|discriminate].
      destruct (IHs _ _ _ E1) as [Hl1 Hs1].
      destruct (skip_ws r1) as [|c r2] eqn:Esk; [discriminate|].
      pose proof (skip_ws_cons_length _ _ _ Esk).
      destruct (c =? 93) eqn:E93.
      * injection H as <- <-. split; [lia|].
        destruct (length s - length r2)%nat eqn:El; [lia|].
        rewrite parse_items_step.
        rewrite (proj1 (fuel_mono (length s - length r1)) _ _ n ltac:(lia) Hs1), Esk, E93.
        reflexivity.
      * destruct (c =? 44) eqn:E44; [|discriminate].
        destruct (IHi _ _ _ _ H) as [Hl Hm].
        pose proof (skip_ws_length r2).
        split; [lia|].
        destruct (length s - length r)%nat eqn:El; [lia|].
        rewrite parse_items_step.
        rewrite (proj1 (fuel_mono (length s - length r1)) _ _ n ltac:(lia) Hs1), Esk, E93, E44.
        refine (proj1 (proj2 (fuel_mono _)) _ _ _ n _ Hm); cbn [length]; lia.
    + intros s acc v r H. destruct s as [|q r0]; [discriminate|].
      rewrite parse_members_cons in H.
      destruct (N.eqb_spec q 34) as [->|]; [|discriminate].
      rewrite parse_members_step in H.
      destruct (scanstring r0 []) as [[k r1]|] eqn:Ek; [|discriminate].
      pose proof (scanstring_shorter _ _ _ _ Ek).
      destruct (skip_ws r1) as [|colon r2] eqn:Esk1; [discriminate|].
      pose proof (skip_ws_cons_length _ _ _ Esk1).
      destruct (colon =? 58) eqn:E58; [|discriminate].
      destruct (scan_once f (skip_ws r2)) as [[v1 r3]|] eqn:E1; [|discriminate].
      destruct (IHs _ _ _ E1) as [Hl1 Hs1].
      pose proof (skip_ws_length r2).
      destruct (skip_ws r3) as [|c r4] eqn:Esk3; [discriminate|].
      pose proof (skip_ws_cons_length _ _ _ Esk3).
      destruct (c =? 125) eqn:E125.
      * injection H as <- <-. cbn [length]. split; [lia|].
        destruct (S (length r0) - length r4)%nat eqn:El; [lia|].
        rewrite parse_members_step, Ek, Esk1, E58.
        rewrite (proj1 (fuel_mono (length (skip_ws r2) - length r3)) _ _ n ltac:(lia) Hs1), Esk3, E125.
        reflexivity.
      * destruct (c =? 44) eqn:E44; [|discriminate].
        destruct (IHm _ _ _ _ H) as [Hl Hm].
        pose proof (skip_ws_length r4).
        cbn [length]. split; [lia|].
        destruct (S (length r0) - length r)%nat eqn:El; [lia|].
        rewrite parse_members_step, Ek, Esk1, E58.
        rewrite (proj1 (fuel_mono (length (skip_ws r2) - length r3)) _ _ n ltac:(lia) Hs1), Esk3, E125, E44.
        refine (proj2 (proj2 (fuel_mono _)) _ _ _ n _ Hm); cbn [length]; lia.
Qed.

(** The fuel that [loads] gives to the decoder is enough: a value that
    some amount of fuel reads is read by [loads], and a text that
    [loads] rejects is rejected with every amount of fuel. *)
Theorem loads_fuel_adequate (s : str) (fuel : nat) (v : json) (r : str) :
  scan_once fuel (skip_ws s) = Some (v, r) ->
  scan_once (S (length s)) (skip_ws s) = Some (v, r).
Proof.
  intros H. destruct (proj1 (fuel_bound fuel) _ _ _ H) as [Hl Hs].
  pose proof (skip_ws_length s).
  refine (proj1 (fuel_mono _) _ _ (S (length s)) _ Hs). lia.
Qed.

Corollary loads_rejects_for_every_fuel (s : str) :
  loads s = None ->
  forall fuel v r,
    scan_once fuel (skip_ws s) = Some (v, r) -> skip_ws r <> [].
Proof.
  unfold loads. intros H fuel v r Hs.
  rewrite (loads_fuel_adequate _ _ _ _ Hs) in H.
  destruct (skip_ws r); [discriminate | discriminate].
Qed.

End Fuel.

(* ===================================================================== *)
(** ** The loop over the chunks *)
(* ===================================================================== *)

Module ExtractLoop.

Import GeminiExtractor DictFacts Notions Reconcile.

Lemma reconcile_pages (raw_text : str) (page : json) (records : list dict) :
  reconcile raw_text page = Ok records ->
  Forall (fun r => dict_get SOURCE_PAGE r = Some page) records.
Proof.
  assert (Hrec : forall parsed,
             Forall (fun r => dict_get SOURCE_PAGE r = Some page)
                    (records_of parsed page)).
  { intros parsed. destruct parsed; simpl; try constructor.
    - apply List.Forall_forall. intros r Hin. apply in_flat_map in Hin.
      destruct Hin as (item & _ & Hin).
      destruct item; simpl in Hin; try contradiction.
      destruct Hin as [<-|[]]. apply stamp_source_page.
    - apply stamp_source_page.
    - constructor. }
  unfold reconcile.
  destruct (loads raw_text) as [parsed|].
  - intros [= <-]. apply Hrec.
  - destruct (Re.search SPAN raw_text) as [m|].
    + destruct (loads (Re.group0 m)) as [parsed|]; [|discriminate].
      intros [= <-]. apply Hrec.
    + intros [= <-]. constructor; [reflexivity | constructor].
Qed.

Section Loop.

Variable generate_content : Oracle.oracle.


Lemma from_records (Q : dict -> Prop) (chunks : list dict) :
  (forall chunk r, In chunk chunks ->
     dict_get SOURCE_PAGE r = Some (page_number_of chunk) -> Q r) ->
  forall n acc, Forall Q acc ->
  match snd (extract_metrics_from generate_content n acc chunks) with
  | Ok records => Forall Q records
  | Raise _ => True
  end.
Proof.
  induction chunks as [|chunk chunks IH]; intros HQ n acc Hacc; simpl.
  - exact Hacc.
  - destruct (generate_content n _) as [[t|]|e]; simpl; auto.
    destruct (reconcile _ _) as [records|e] eqn:E; simpl; auto.
    apply IH.
    + intros c r Hin. apply HQ. now right.
    + apply List.Forall_app. split; [exact Hacc|].
      apply reconcile_pages in E.
      eapply List.Forall_impl; [|exact E].
      intros r Hr. apply (HQ chunk); [now left | exact Hr].
Qed.


(** X2: Every record that [extract_metrics] returns has a source_page, and
    it is the page number of one of the chunks ([None] for a chunk
    without page number), whatever the response said about it. *)
Theorem records_carry_a_chunk_page (calls : nat) (text_chunks : list dict) :
  match snd (extract_metrics generate_content calls text_chunks) with
  | Ok records =>
      Forall (fun r => exists chunk, In chunk text_chunks /\
                dict_get SOURCE_PAGE r = Some (page_number_of chunk)) records
  | Raise _ => True
  end.
Proof.
  unfold extract_metrics. apply from_records; [|constructor].
  intros chunk r Hin Hr. eauto.
Qed.

End Loop.

End ExtractLoop.

(* ===================================================================== *)
(** ** The loop over the parts *)
(* ===================================================================== *)

Module PartsLoop.

Import GeminiExtractor Pandas Main Store DictFacts Notions Normalizer
       Aggregator ExtractLoop.

Lemma chunk_pages (off : Z) (part : list str) (i : Z) (chunk : dict) :
  In chunk (text_chunks off i part) ->
  exists j, (i <= j < i + Z.of_nat (length part))%Z /\
    page_number_of chunk = JInt (off + j).
Proof.
  revert i. induction part as [|t part IH]; intros i; simpl; [contradiction|].
  intros [<-|Hin].
  - exists i. split; [lia | reflexivity].
  - destruct (IH _ Hin) as (j & Hj & E). exists j. split; [lia | exact E].
Qed.

Lemma source_is_not_source_page : SOURCE <> SOURCE_PAGE.
Proof. discriminate. Qed.

Lemma category_is_not_source_page : CATEGORY <> SOURCE_PAGE.
Proof. discriminate. Qed.

Lemma normalize_cites (file_name : str) (m m' : dict) (p : Z) :
  dict_get SOURCE_PAGE m = Some (JInt p) ->
  normalize file_name m = Ok m' ->
  dict_get SOURCE_PAGE m' = Some (JInt p) /\
  dict_get SOURCE m'
  = Some (JStr (file_name ++ PAGE_INFIX ++ str_of_int p)) /\
  has_known_category m'.
Proof.
  intros Hp. unfold normalize, capitalized_category. rewrite Hp.
  rewrite dict_get_set_other by apply source_is_not_category.
  change (py_str (JInt p)) with (str_of_int p).
  set (m1 := dict_set SOURCE _ m).
  assert (H1 : dict_get SOURCE_PAGE m1 = Some (JInt p)).
  { unfold m1. now rewrite dict_get_set_other by apply source_is_not_source_page. }
  assert (H2 : dict_get SOURCE m1
               = Some (JStr (file_name ++ PAGE_INFIX ++ str_of_int p))).
  { unfold m1. apply dict_get_set_same. }
  assert (H3 : dict_get CATEGORY m1 = dict_get CATEGORY m).
  { unfold m1. now rewrite dict_get_set_other by apply source_is_not_category. }
  assert (Hdefault : forall m2, Ok (dict_set CATEGORY (JStr ENVIRONMENTAL) m1) = Ok m2 ->
            dict_get SOURCE_PAGE m2 = Some (JInt p) /\
            dict_get SOURCE m2
            = Some (JStr (file_name ++ PAGE_INFIX ++ str_of_int p)) /\
            has_known_category m2).
  { intros m2 [= <-]. split; [|split].
    - now rewrite dict_get_set_other by apply category_is_not_source_page.
    - rewrite dict_get_set_other; [exact H2|].
      intros E. symmetry in E. now apply source_is_not_category in E.
    - exists ENVIRONMENTAL. split; [apply dict_get_set_same | reflexivity]. }
  destruct (dict_get CATEGORY m) as [[| | | |s| |]|] eqn:Ec; try discriminate.
  - destruct (mem (capitalize s) _) eqn:Em.
    + intros [= <-]. split; [exact H1|]. split; [exact H2|].
      exists s. split; [now rewrite H3 | exact Em].
    + apply Hdefault.
  - destruct (mem (capitalize []) _) eqn:Em; [discriminate Em|].
    apply Hdefault.
Qed.

Lemma normalize_all_cites (file_name : str) (lo hi : Z) (ms ms' : list dict) :
  Forall (fun r => exists p, (lo < p <= hi)%Z /\
            dict_get SOURCE_PAGE r = Some (JInt p)) ms ->
  normalize_all file_name ms = Ok ms' ->
  Forall (cites_page file_name lo hi) ms' /\ Forall has_known_category ms'.
Proof.
  revert ms'. induction ms as [|m ms IH]; intros ms' Hall; simpl.
  - intros [= <-]. split; constructor.
  - inversion Hall as [|? ? (p & Hp & Hm) Hrest]; subst.
    destruct (normalize file_name m) as [m'|e] eqn:En; [|discriminate].
    destruct (normalize_all file_name ms) as [rest'|e]; [|discriminate].
    intros [= <-].
    destruct (normalize_cites _ _ _ _ Hm En) as (A & B & C).
    destruct (IH _ Hrest eq_refl) as [D E].
    split; constructor; auto.
    exists p. auto.
Qed.

Lemma cites_page_wider (file_name : str) (lo hi lo' hi' : Z) (r : dict) :
  (lo' <= lo)%Z -> (hi <= hi')%Z ->
  cites_page file_name lo hi r -> cites_page file_name lo' hi' r.
Proof.
  intros H1 H2 (p & Hp & A & B). exists p. split; [lia | auto].
Qed.

Section Parts.

Variable generate_content : Oracle.oracle.
Variable file_name : str.

(** One turn of the loop: the part fails, and then it has a page, or
    its records are added and the offset moves past its pages. *)
Lemma part_step (idx : nat) (st : progress) (part : list str)
    (rest : list (list str)) :
  exists st1,
    process_parts generate_content file_name idx st (part :: rest)
    = process_parts generate_content file_name (S idx) st1 rest /\
    ((exists e, part <> [] /\
        p_page_offset st1 = p_page_offset st /\
        p_all_metrics st1 = p_all_metrics st /\
        p_errors st1 = p_errors st ++ [(idx, e)])
     \/
     (exists new,
        p_page_offset st1 = (p_page_offset st + Z.of_nat (length part))%Z /\
        p_all_metrics st1 = p_all_metrics st ++ new /\
        p_errors st1 = p_errors st /\
        Forall (cites_page file_name (p_page_offset st)
                  (p_page_offset st + Z.of_nat (length part))) new /\
        Forall has_known_category new)).
Proof.
  cbn [process_parts].
  pose proof (from_records generate_content
                (fun r => exists p,
                   (p_page_offset st < p
                    <= p_page_offset st + Z.of_nat (length part))%Z /\
                   dict_get SOURCE_PAGE r = Some (JInt p))
                (text_chunks (p_page_offset st) 1 part)) as Hrec.
  specialize (Hrec ltac:(intros chunk r Hin Hr;
                         destruct (chunk_pages _ _ _ _ Hin) as (j & Hj & E);
                         exists (p_page_offset st + j)%Z;
                         split; [lia | now rewrite Hr, E])
                   (p_calls st) [] ltac:(constructor)).
  unfold extract_metrics.
  destruct (extract_metrics_from _ _ _ _) as [calls' [metrics|e]] eqn:Ex;
    simpl in Hrec.
  - destruct (normalize_all file_name metrics) as [metrics'|e] eqn:En.
    + eexists. split; [reflexivity|]. right. exists metrics'. simpl.
      destruct (normalize_all_cites _ _ _ _ _ Hrec En). auto.
    + eexists. split; [reflexivity|]. left. exists e. simpl.
      split; [|auto].
      intros ->. simpl in Ex. injection Ex as <- <-. discriminate En.
  - eexists. split; [reflexivity|]. left. exists e. simpl.
    split; [|auto].
    intros ->. discriminate Ex.
Qed.

Lemma parts_invariant (parts : list (list str)) :
  forall (idx : nat) (st : progress),
  exists errs new,
    let st' := process_parts generate_content file_name idx st parts in
    let total := Z.of_nat (length (concat parts)) in
    p_errors st' = p_errors st ++ errs /\
    sublist (map fst errs) (seq idx (length parts)) /\
    p_all_metrics st' = p_all_metrics st ++ new /\
    Forall (cites_page file_name (p_page_offset st)
              (p_page_offset st + total)) new /\
    Forall has_known_category new /\
    (p_page_offset st <= p_page_offset st' <= p_page_offset st + total)%Z /\
    (errs = [] <-> p_page_offset st' = (p_page_offset st + total)%Z).
Proof.
  induction parts as [|part parts IH]; intros idx st.
  - exists [], []. simpl. rewrite !app_nil_r.
    repeat split; try constructor; try lia.
  - destruct (part_step idx st part parts) as (st1 & -> & Hstep).
    destruct (IH (S idx) st1) as (errs & new & He & Hs & Hm & Hc & Hk & Ho & Hiff).
    cbn zeta in *. cbn [concat length seq]. rewrite length_app, Nat2Z.inj_add.
    destruct Hstep as [(e & Hne & E1 & E2 & E3)|(new1 & E1 & E2 & E3 & Hc1 & Hk1)].
    + exists ((idx, e) :: errs), new.
      rewrite He, E3, <- app_assoc. split; [reflexivity|].
      split; [simpl; now apply sublist_skip|].
      rewrite Hm, E2. split; [reflexivity|].
      split.
      { eapply List.Forall_impl; [|exact Hc]. intros r.
        apply cites_page_wider; lia. }
      split; [exact Hk|].
      assert (0 < Z.of_nat (length part))%Z
        by (destruct part; [contradiction | simpl; lia]).
      split; [lia|]. split; [discriminate | lia].
    + exists errs, (new1 ++ new).
      rewrite He, E3. split; [reflexivity|].
      split; [simpl; now apply sublist_cons|].
      rewrite Hm, E2, <- app_assoc. split; [reflexivity|].
      split.
      { apply List.Forall_app. split.
        - eapply List.Forall_impl; [|exact Hc1]. intros r.
          apply cites_page_wider; lia.
        - eapply List.Forall_impl; [|exact Hc]. intros r.
          apply cites_page_wider; lia. }
      split; [apply List.Forall_app; auto|].
      split; [lia|]. rewrite Hiff. lia.
Qed.

(** X3: The page offset counts the pages of the parts that succeeded: at
    the end of the loop it equals the number of pages of all the parts
    exactly when no part was reported with an error.  After a failed
    part the pages that follow are numbered too low. *)
Theorem offset_is_exact_iff_no_part_failed (idx : nat) (st : progress)
    (parts : list (list str)) :
  let st' := process_parts generate_content file_name idx st parts in
  p_errors st' = p_errors st <->
  p_page_offset st'
  = (p_page_offset st + Z.of_nat (length (concat parts)))%Z.
Proof.
  destruct (parts_invariant parts idx st)
    as (errs & new & He & _ & _ & _ & _ & _ & Hiff).
  cbn zeta in *. rewrite <- Hiff, He. split.
  - intros E. rewrite <- (app_nil_r (p_errors st)) in E at 2.
    now apply app_inv_head in E.
  - intros ->. apply app_nil_r.
Qed.

(** X4: The errors that the loop reports are added after the earlier ones;
    each names a part by its number, counted from [idx], no part is
    named twice and the numbers come in the order of the parts. *)
Theorem failed_parts_are_reported_once (idx : nat) (st : progress)
    (parts : list (list str)) :
  exists errs,
    p_errors (process_parts generate_content file_name idx st parts)
    = p_errors st ++ errs /\
    sublist (map fst errs) (seq idx (length parts)).
Proof.
  destruct (parts_invariant parts idx st) as (errs & new & He & Hs & _).
  exists errs. split; assumption.
Qed.

(** X5: Every record that the loop of the page collects cites a page of the
    document: its source_page is a number from 1 to the number of pages
    of all the parts, and its source is the file name, [" - page "] and
    that number. *)
Theorem collected_records_cite_a_page (calls : nat)
    (parts : list (list str)) :
  Forall (cites_page file_name 0 (Z.of_nat (length (concat parts))))
    (p_all_metrics
       (process_parts generate_content file_name 1
          (Progress calls 0 [] []) parts)).
Proof.
  destruct (parts_invariant parts 1%nat (Progress calls 0 [] []))
    as (errs & new & _ & _ & Hm & Hc & _).
  cbn zeta in *. rewrite Hm. exact Hc.
Qed.

(** Every record that the loop of the page collects has a category that
    is a string and capitalizes to Environmental, Social or
    Governance. *)
Lemma collected_records_have_a_known_category (calls : nat)
    (parts : list (list str)) :
  Forall has_known_category
    (p_all_metrics
       (process_parts generate_content file_name 1
          (Progress calls 0 [] []) parts)).
Proof.
  destruct (parts_invariant parts 1%nat (Progress calls 0 [] []))
    as (errs & new & _ & _ & Hm & _ & Hk & _).
  cbn zeta in *. rewrite Hm. exact Hk.
Qed.

End Parts.

End PartsLoop.

(* ===================================================================== *)
(** ** What the pages write *)
(* ===================================================================== *)

Module PageFrames.

Import GeminiExtractor Pandas Main Store DictFacts Notions Aggregator
       TableCache.

(** X7: A run of the extraction page leaves the comparison artifacts alone,
    changes the environment only by the key of the sidebar, never
    lowers the count of requests, and writes a table only when it ends
    with the table saved: then it writes that one table, under the stem
    of the uploaded name with the extension .csv. *)
Theorem extraction_writes_at_most_one_table
    (generate_content : Oracle.oracle) (api_key : str) (pages_per_part : nat)
    (uploaded_file : option upload) (w : world) :
  let (w', o) :=
    extraction_page generate_content api_key pages_per_part uploaded_file w in
  cached_json w' = cached_json w /\
  environ w' = environ (sidebar api_key w) /\
  (calls w <= calls w')%nat /\
  match o with
  | Saved df _ =>
      exists file, uploaded_file = Some file /\
        results w'
        = <[Paths.stem (name file) ++ CSV_SUFFIX := df]> (results w)
  | _ => results w' = results w
  end.
Proof.
  unfold extraction_page.
  assert (Hc : cached_json (sidebar api_key w) = cached_json w)
    by (destruct api_key; reflexivity).
  pose proof (sidebar_calls api_key w) as Hn.
  pose proof (sidebar_results api_key w) as Hr.
  destruct uploaded_file as [file|]; [|repeat split; auto; lia].
  destruct api_key as [|c key]; [repeat split; auto; lia|].
  set (w0 := sidebar (c :: key) w) in *.
  destruct (results w0 !! _) as [df|]; [repeat split; auto; lia|].
  destruct (split_pdf _ _) as [pdf_parts|e]; [|repeat split; auto; lia].
  destruct (init _ _) as [k|e]; [|repeat split; auto; lia].
  unfold combine_and_save.
  pose proof (process_parts_calls generate_content (name file) pdf_parts 1
                (Progress (calls w0) 0 [] [])) as Hp.
  cbn [p_calls] in Hp.
  set (st := process_parts _ _ _ _ _) in *.
  assert (Hle : (calls w <= p_calls st)%nat) by lia.
  destruct (p_all_metrics st) as [|m ms].
  - cbn. auto.
  - destruct (select _ _) as [df|e]; cbn.
    + repeat split; auto.
      exists file. split; reflexivity.
    + auto.
Qed.

Import CompareMetrics.

(** X8: A run of the comparison page never touches the tables or the
    environment.  It asks the oracle at most once; the answer is stored,
    under the name built from the category and the selection, only when
    it decodes as JSON; an answer that does not decode, and a failed
    request, cost the request and leave the cache as it was; every
    other run leaves the world as it was. *)
Theorem comparison_writes_at_most_one_artifact
    (generate_content : Oracle.oracle) (selected_files : list str)
    (category : str) (button : bool) (w : world) :
  let (w', o) :=
    compare_metrics_page generate_content selected_files category button w in
  results w' = results w /\ environ w' = environ w /\
  match o with
  | Compared common_metrics =>
      calls w' = S (calls w) /\
      cached_json w'
      = <[cache_file category selected_files := common_metrics]> (cached_json w)
  | InvalidJson | CompareMetrics.Crashed _ =>
      calls w' = S (calls w) /\ cached_json w' = cached_json w
  | _ => w' = w
  end.
Proof.
  unfold compare_metrics_page.
  destruct (csv_files w); [auto|].
  destruct selected_files as [|f fs]; [auto|].
  destruct (cached_json w !! _); [auto|].
  destruct button; [|auto].
  destruct (environ w) as [[|c k]|] eqn:Ee; auto.
  destruct (_ <? 2)%nat; [auto|].
  destruct (generate_content _ _) as [[t|]|e]; cbn; auto.
  destruct (loads _); cbn; auto.
Qed.

Lemma dataframes_length (w : world) (category : str)
    (selected_files : list str) :
  (length (dataframes w category selected_files) <= length selected_files)%nat.
Proof.
  unfold dataframes.
  induction selected_files as [|f fs IH]; [reflexivity|].
  change (omap (load_filtered w category) (f :: fs))
    with (match load_filtered w category f with
          | Some df => df :: omap (load_filtered w category) fs
          | None => omap (load_filtered w category) fs
          end).
  destruct (load_filtered w category f); cbn [length]; lia.
Qed.

(** X9: With fewer than two files selected the page never asks the oracle
    and stores nothing, whatever is stored and whether or not the
    button is pressed. *)
Theorem fewer_than_two_files_change_nothing
    (generate_content : Oracle.oracle) (selected_files : list str)
    (category : str) (button : bool) (w : world) :
  (length selected_files < 2)%nat ->
  fst (compare_metrics_page generate_content selected_files category button w)
  = w.
Proof.
  intros Hlen. unfold compare_metrics_page.
  destruct (csv_files w); [reflexivity|].
  destruct selected_files as [|f fs] eqn:Es; [reflexivity|]. rewrite <- Es in *.
  destruct (cached_json w !! _); [reflexivity|].
  destruct button; [|reflexivity].
  destruct (environ w) as [[|c k]|]; try reflexivity.
  pose proof (dataframes_length w category selected_files) as Hd.
  destruct (_ <? 2)%nat eqn:E; [reflexivity|].
  apply Nat.ltb_ge in E. lia.
Qed.

Lemma fewer_than_two_files_change_nothing_witness :
  fst (compare_metrics_page (always EMPTY_LIST) [A_CSV] Main.ENVIRONMENTAL
         true two_tables)
  = two_tables.
Proof.
  apply (fewer_than_two_files_change_nothing (always EMPTY_LIST) [A_CSV]
           Main.ENVIRONMENTAL true two_tables).
  simpl. lia.
Defined.

(** X10: Without a key in the environment the page never asks the oracle and
    stores nothing; a comparison that is in the cache is still shown. *)
Theorem comparison_without_key_changes_nothing
    (generate_content : Oracle.oracle) (selected_files : list str)
    (category : str) (button : bool) (w : world) :
  environ w = None \/ environ w = Some [] ->
  fst (compare_metrics_page generate_content selected_files category button w)
  = w.
Proof.
  intros He. unfold compare_metrics_page.
  destruct (csv_files w); [reflexivity|].
  destruct selected_files as [|f fs]; [reflexivity|].
  destruct (cached_json w !! _); [reflexivity|].
  destruct button; [|reflexivity].
  destruct He as [-> | ->]; reflexivity.
Qed.

Lemma comparison_without_key_changes_nothing_witness :
  fst (compare_metrics_page (always EMPTY_LIST) [A_CSV; B_CSV]
         Main.ENVIRONMENTAL true keyless_tables)
  = keyless_tables.
Proof.
  apply (comparison_without_key_changes_nothing (always EMPTY_LIST)
           [A_CSV; B_CSV] Main.ENVIRONMENTAL true keyless_tables).
  left. reflexivity.
Defined.

End PageFrames.

(* ===================================================================== *)
(** ** The comparison page: cache names, fences and filtered tables *)
(* ===================================================================== *)

Module CacheNames.

Import Pandas Store CompareMetrics DictFacts Notions Patterns.

Lemma break_at_absent (c : N) (s : str) :
  free_of [c] s = true -> Paths.break_at c s = None.
Proof.
  induction s as [|x s IH]; intros H; [reflexivity|].
  apply free_of_cons in H as [Hx H]. cbn [existsb] in Hx.
  apply orb_false_iff in Hx as [Hx _].
  cbn [Paths.break_at]. rewrite Hx, IH by exact H. reflexivity.
Qed.

Lemma free_of_one (c d : N) (s : str) :
  free_of [c; d] s = true -> free_of [c] s = true /\ free_of [d] s = true.
Proof.
  unfold free_of. rewrite !forallb_forall. intros H.
  split; intros x Hx; specialize (H x Hx); apply negb_true_iff in H;
    cbn [existsb] in *; apply negb_true_iff;
    apply orb_false_iff in H as [H1 H]; apply orb_false_iff in H as [H2 _];
    now rewrite ?H1, ?H2.
Qed.

Lemma free_of_rev (chars : list N) (s : str) :
  free_of chars s = true -> free_of chars (rev s) = true.
Proof. apply free_of_incl. intros c Hc. now apply in_rev. Qed.

Lemma some_char_is_no_dot (s : str) :
  s <> [] -> free_of [46] s = true ->
  existsb (fun c => negb (c =? 46)) s = true.
Proof.
  destruct s as [|x s]; [congruence|]. intros _ H.
  apply free_of_cons in H as [Hx _]. cbn [existsb] in Hx.
  apply orb_false_iff in Hx as [Hx _].
  cbn [existsb]. now rewrite Hx.
Qed.

(** The root of a name [a.csv] is [a], for a name [a] without dot and
    slash. *)
Lemma splitext_root_csv (a : str) :
  a <> [] -> free_of [46; 47] a = true ->
  Paths.splitext_root (a ++ Main.CSV_SUFFIX) = a.
Proof.
  intros Hne H. apply free_of_one in H as [Hdot Hslash].
  unfold Paths.splitext_root. rewrite rev_app_distr.
  change (rev Main.CSV_SUFFIX) with ([118; 115; 99] ++ [46]).
  rewrite <- app_assoc. cbn [app Paths.break_at N.eqb Pos.eqb existsb orb].
  rewrite break_at_absent by now apply free_of_rev.
  rewrite some_char_is_no_dot.
  - apply rev_involutive.
  - intros E. apply Hne. rewrite <- (rev_involutive a), E. reflexivity.
  - now apply free_of_rev.
Qed.

Lemma replace_char_app (old : N) (new a b : str) :
  replace_char old new (a ++ b) = replace_char old new a ++ replace_char old new b.
Proof. apply flat_map_app. Qed.

Lemma free_of_join (chars : list N) (a b c : str) :
  free_of chars a = true -> free_of chars b = true -> free_of chars c = true ->
  free_of chars (a ++ b ++ c) = true.
Proof.
  unfold free_of. rewrite !forallb_app. now intros -> -> ->.
Qed.

(** X11: The name of the cache file does not tell selections apart: two
    tables [a.csv] and [b.csv], the one table [a_b.csv] and the one
    table [a b.csv] all lead to the same name, for names [a] and [b]
    without dot and slash. *)
Theorem selections_share_a_cache_file (category a b : str) :
  a <> [] -> b <> [] ->
  free_of [46; 47] a = true -> free_of [46; 47] b = true ->
  cache_file category [a ++ Main.CSV_SUFFIX; b ++ Main.CSV_SUFFIX]
  = cache_file category [a ++ UNDERSCORE ++ b ++ Main.CSV_SUFFIX] /\
  cache_file category [a ++ [32] ++ b ++ Main.CSV_SUFFIX]
  = cache_file category [a ++ UNDERSCORE ++ b ++ Main.CSV_SUFFIX].
Proof.
  intros Ha Hb Fa Fb.
  assert (Hjoin : forall sep, free_of [46; 47] sep = true ->
            Paths.splitext_root (a ++ sep ++ b ++ Main.CSV_SUFFIX)
            = a ++ sep ++ b).
  { intros sep Fs.
    replace (a ++ sep ++ b ++ Main.CSV_SUFFIX)
      with ((a ++ sep ++ b) ++ Main.CSV_SUFFIX)
      by now rewrite <- !app_assoc.
    apply splitext_root_csv.
    - destruct a; [congruence | discriminate].
    - now apply free_of_join. }
  unfold cache_file, safe_fnames. cbn [map join].
  rewrite !splitext_root_csv by assumption.
  rewrite !Hjoin by reflexivity.
  rewrite !replace_char_app. split; reflexivity.
Qed.

Lemma selections_share_a_cache_file_witness :
  cache_file Main.ENVIRONMENTAL [A_CSV; B_CSV]
  = cache_file Main.ENVIRONMENTAL [u "a_b.csv"] /\
  cache_file Main.ENVIRONMENTAL [u "a b.csv"]
  = cache_file Main.ENVIRONMENTAL [u "a_b.csv"].
Proof.
  apply (selections_share_a_cache_file Main.ENVIRONMENTAL (u "a") (u "b"));
    (discriminate || reflexivity).
Defined.

End CacheNames.

Module Fences.

Import CompareMetrics Notions Patterns.

Lemma search_fenced_absent (s : str) :
  free_of [96] s = true -> Re.search FENCED s = None.
Proof.
  induction s as [|c s IH]; intros H; [reflexivity|].
  apply free_of_cons in H as [Hc H].
  cbn [Re.search]. rewrite fenced_not_here by exact Hc. auto.
Qed.

Lemma fenced_objects_not_here (c : N) (s : str) :
  existsb (N.eqb c) [96] = false ->
  Re.match_here MainJson.FENCED_OBJECTS (c :: s) = None.
Proof.
  cbn [existsb]. intros H. apply orb_false_iff in H as [H _].
  unfold Re.match_here, MainJson.FENCED_OBJECTS, CompareMetrics.TICKS.
  cbn [Re.exec Re.lits]. now rewrite H.
Qed.

Lemma search_fenced_objects_absent (s : str) :
  free_of [96] s = true -> Re.search MainJson.FENCED_OBJECTS s = None.
Proof.
  induction s as [|c s IH]; intros H; [reflexivity|].
  apply free_of_cons in H as [Hc H].
  cbn [Re.search]. rewrite fenced_objects_not_here by exact Hc. auto.
Qed.

(** X13: A text without a backquote has no fence: both [extract_json]
    helpers return it stripped of the white space around it. *)
Theorem text_without_backquote_is_stripped (text : str) :
  free_of [96] text = true ->
  extract_json text = strip text /\ MainJson.extract_json text = strip text.
Proof.
  intros H. unfold extract_json, MainJson.extract_json.
  now rewrite search_fenced_absent, search_fenced_objects_absent.
Qed.

Lemma text_without_backquote_is_stripped_witness :
  extract_json (u " [1, 2] ") = u "[1, 2]" /\
  MainJson.extract_json (u " [1, 2] ") = u "[1, 2]".
Proof.
  apply (text_without_backquote_is_stripped (u " [1, 2] ")). reflexivity.
Defined.

End Fences.

Module FilteredTables.

Import Pandas Store CompareMetrics DictFacts Notions.

Lemma filter_sublist (A : Type) (f : A -> bool) (l : list A) :
  sublist (List.filter f l) l.
Proof.
  induction l as [|x l IH]; simpl; [constructor|].
  destruct (f x); [now apply sublist_skip | now apply sublist_cons].
Qed.

(** X12: What is sent to the oracle: every table is what is left of the
    stored table of a selected file, with its columns and with some of
    its rows in their order, and every row has a category that is a
    string and equals the chosen category when both are lowered. *)
Theorem only_the_chosen_category_is_sent (w : world) (category : str)
    (selected_files : list str) :
  Forall (fun df =>
            Forall (fun r => exists s,
                      dict_get Main.CATEGORY r = Some (JStr s) /\
                      lower s = lower category) (rows df) /\
            exists fname stored,
              In fname selected_files /\
              results w !! fname = Some stored /\
              columns df = columns stored /\
              sublist (rows df) (rows stored))
         (dataframes w category selected_files).
Proof.
  apply List.Forall_forall. intros df Hin.
  apply list_elem_of_In, list_elem_of_omap in Hin.
  destruct Hin as (fname & Hf & Hload). apply list_elem_of_In in Hf.
  unfold load_filtered in Hload.
  destruct (results w !! fname) as [stored|] eqn:Es; [|discriminate].
  destruct (forallb _ _); [|discriminate].
  destruct (has_str_accessor stored); [|discriminate].
  injection Hload as <-. split.
  - apply List.Forall_forall. intros r Hr. cbn [filter_category rows] in Hr.
    apply filter_In in Hr as [_ Hr].
    destruct (dict_get Main.CATEGORY r) as [[| | | |s| |]|]; try discriminate.
    exists s. split; [reflexivity|]. now apply str_eqb_eq.
  - exists fname, stored. repeat split; auto.
    cbn [filter_category rows]. apply filter_sublist.
Qed.

End FilteredTables.

(* ===================================================================== *)
(** ** The tables of the common metrics *)
(* ===================================================================== *)

Module Display.

Import CompareDisplay Notions DictFacts.

(** *** Columns *)

Lemma column_length (k : str) (es vs : list json) :
  column k es = Ok vs -> length vs = length es.
Proof.
  revert vs. induction es as [|entry es IH]; intros vs; cbn [column].
  - now intros [= <-].
  - destruct (get_or k (JStr []) entry) as [v|e]; cbn [bind]; [|discriminate].
    destruct (column k es) as [vs'|e]; cbn [bind]; [|discriminate].
    intros [= <-]. cbn [length]. f_equal. now apply IH.
Qed.

Lemma column_exn (k : str) (es : list json) (e : exn) :
  column k es = Raise e -> e = AttributeError.
Proof.
  induction es as [|entry es IH]; cbn [column]; [discriminate|].
  destruct entry; cbn [get_or bind]; try (now intros [= <-]).
  destruct (column k es) as [vs'|e']; cbn [bind]; [discriminate|].
  intros [= <-]. now apply IH.
Qed.

Lemma column_fields (k : str) (items vs : list json) :
  column k items = Ok vs -> vs = map (field_of k) items.
Proof.
  revert vs. induction items as [|entry items IH]; intros vs; cbn [column].
  - now intros [= <-].
  - destruct entry; cbn [get_or bind]; try discriminate.
    destruct (column k items) as [vs'|e]; cbn [bind]; [|discriminate].
    intros [= <-]. cbn [map field_of]. f_equal. now apply IH.
Qed.

Lemma column_of_dicts (k : str) (items : list json) :
  forallb is_dict items = true -> column k items = Ok (map (field_of k) items).
Proof.
  induction items as [|entry items IH]; cbn [forallb column map]; [reflexivity|].
  intros H. apply andb_prop in H as [H1 H2].
  destruct entry; try discriminate. cbn [get_or bind].
  now rewrite IH.
Qed.

Lemma iter_exn (v : json) (e : exn) : iter v = Raise e -> e = TypeError.
Proof. destruct v; cbn [iter]; try discriminate; now intros [= <-]. Qed.

(** What can be iterated and gives a column is a list, or it is
    empty. *)
Lemma iterated_length (entries : json) (es vs : list json) (k : str)
    (n : nat) :
  (forall items, entries = JArr items -> (length items <= n)%nat) ->
  iter entries = Ok es -> column k es = Ok vs -> (length vs <= n)%nat.
Proof.
  intros Hb Hi Hc. rewrite (column_length _ _ _ Hc).
  destruct entries; cbn [iter] in Hi; try discriminate; injection Hi as <-.
  - destruct s as [|c s]; [simpl; lia | discriminate Hc].
  - now apply Hb.
  - destruct members as [|m members]; [simpl; lia | discriminate Hc].
Qed.

Lemma pad_length (n : nat) (l : list json) :
  (length l <= n)%nat -> length (pad n l) = n.
Proof. intros H. unfold pad. rewrite length_app, repeat_length. lia. Qed.

(** *** Tables *)

Lemma table_get_set_same (k : str) (col : list json) (t : table) :
  table_get k (table_set k col t) = Some col.
Proof.
  induction t as [|[k' c'] t IH]; simpl.
  - now rewrite str_eqb_refl.
  - destruct (str_eqb k' k) eqn:E; simpl; rewrite E; auto.
Qed.

Lemma table_get_set_other (k k0 : str) (col : list json) (t : table) :
  k0 <> k -> table_get k (table_set k0 col t) = table_get k t.
Proof.
  intros Hne. induction t as [|[k' c'] t IH]; simpl.
  - apply str_eqb_neq in Hne. now rewrite Hne.
  - destruct (str_eqb k' k0) eqn:E; simpl.
    + apply str_eqb_eq in E. subst k'.
      apply str_eqb_neq in Hne. now rewrite Hne.
    + now rewrite IH.
Qed.

Lemma table_set_regular (n : nat) (k : str) (col : list json) (t : table) :
  length col = n ->
  Forall (fun kc => length (snd kc) = n) t ->
  Forall (fun kc => length (snd kc) = n) (table_set k col t).
Proof.
  intros Hc. induction t as [|[k' c'] t IH]; intros H; simpl.
  - constructor; [exact Hc | constructor].
  - inversion H as [|? ? H1 H2]; subst.
    destruct (str_eqb k' k); constructor; auto.
Qed.

Lemma DataFrame_id (t t' : table) : DataFrame t = Ok t' -> t' = t.
Proof.
  destruct t as [|[k col] rest]; simpl; [now intros [= <-]|].
  destruct (forallb _ rest); [now intros [= <-] | discriminate].
Qed.

Lemma DataFrame_regular (n : nat) (t : table) :
  Forall (fun kc => length (snd kc) = n) t -> DataFrame t = Ok t.
Proof.
  destruct t as [|[k col] rest]; simpl; [reflexivity|].
  intros H. inversion H as [|? ? H1 H2]; subst. simpl.
  replace (forallb _ rest) with true; [reflexivity|].
  symmetry. apply forallb_forall. intros kc Hin.
  rewrite List.Forall_forall in H2. rewrite (H2 kc Hin). apply Nat.eqb_refl.
Qed.

(** *** The longest list *)

Lemma fold_max_bounds (l : list nat) (n : nat) :
  (n <= fold_left Nat.max l n)%nat /\
  Forall (fun x => (x <= fold_left Nat.max l n)%nat) l.
Proof.
  revert n. induction l as [|x l IH]; intros n; simpl.
  - split; [lia | constructor].
  - destruct (IH (Nat.max n x)) as [A B]. split; [lia|].
    constructor; [lia | exact B].
Qed.

Lemma max_of_bounds (l : list nat) (n : nat) :
  max_of l = Ok n -> Forall (fun x => (x <= n)%nat) l.
Proof.
  destruct l as [|x l]; simpl; [discriminate|]. intros [= <-].
  destruct (fold_max_bounds l x) as [A B]. constructor; assumption.
Qed.

Lemma max_of_exn (l : list nat) (e : exn) :
  max_of l = Raise e -> l = [] /\ e = ValueError.
Proof. destruct l; simpl; [now intros [= <-] | discriminate]. Qed.

Lemma list_lengths_bound (d : dict) (keys : list str) (n : nat) :
  max_of (list_lengths d keys) = Ok n ->
  forall key items, In key keys -> dict_get key d = Some (JArr items) ->
    (length items <= n)%nat.
Proof.
  intros Hm key items Hin Hget. apply max_of_bounds in Hm.
  rewrite List.Forall_forall in Hm. apply Hm.
  unfold list_lengths. apply in_flat_map. exists key.
  split; [exact Hin|]. rewrite Hget. now left.
Qed.

(** *** The loop over the dataset keys *)

Ltac step_fill H :=
  match type of H with
  | bind ?r _ = _ =>
      let E := fresh "E" in
      destruct r eqn:E; cbn [bind] in H; [|discriminate H]
  end.

Lemma entries_bound (d : dict) (key : str) (n : nat) :
  (forall items, dict_get key d = Some (JArr items) -> (length items <= n)%nat) ->
  forall items,
    match dict_get key d with Some v => v | None => JArr [] end = JArr items ->
    (length items <= n)%nat.
Proof.
  intros H items. destruct (dict_get key d) as [v|].
  - intros ->. now apply H.
  - intros [= <-]. simpl. lia.
Qed.

Lemma fill_regular (d : dict) (n : nat) (keys : list str) :
  (forall key items, In key keys -> dict_get key d = Some (JArr items) ->
     (length items <= n)%nat) ->
  forall t t',
    Forall (fun kc => length (snd kc) = n) t ->
    fill d n keys t = Ok t' ->
    Forall (fun kc => length (snd kc) = n) t'.
Proof.
  induction keys as [|key keys IH]; intros Hb t t' Ht H; cbn [fill] in H.
  - now injection H as <-.
  - cbv zeta in H.
    assert (Hk : forall items,
               match dict_get key d with Some v => v | None => JArr [] end
               = JArr items -> (length items <= n)%nat).
    { apply entries_bound. intros items. apply Hb. now left. }
    do 6 step_fill H.
    apply IH in H; [exact H | intros k items Hin; apply Hb; now right |].
    repeat apply table_set_regular; try exact Ht;
      apply pad_length; eapply iterated_length; eauto.
Qed.

Lemma fill_exn (d : dict) (n : nat) (keys : list str) (e : exn) :
  forall t, fill d n keys t = Raise e -> e = AttributeError \/ e = TypeError.
Proof.
  induction keys as [|key keys IH]; intros t H; cbn [fill] in H;
    [discriminate|].
  cbv zeta in H.
  destruct (iter _) eqn:E0; cbn [bind] in H;
    [|injection H as <-; right; eapply iter_exn; eauto].
  repeat match type of H with
         | bind ?r _ = _ =>
             let E := fresh "E" in
             destruct r eqn:E; cbn [bind] in H;
               [|injection H as <-; left; eapply column_exn; eauto]
         end.
  eapply IH; eauto.
Qed.

Lemma fill_of_lists (d : dict) (n : nat) (keys : list str) :
  forallb (fun key => match dict_get key d with
                      | Some (JArr items) => forallb is_dict items
                      | _ => false
                      end) keys = true ->
  forall t, exists t', fill d n keys t = Ok t'.
Proof.
  induction keys as [|key keys IH]; intros H t; cbn [fill].
  - eauto.
  - cbn [forallb] in H. apply andb_prop in H as [H1 H2]. cbv zeta.
    destruct (dict_get key d) as [[| | | | |items|]|]; try discriminate.
    cbn [iter bind]. rewrite !column_of_dicts by exact H1. cbn [bind].
    now apply IH.
Qed.

(** *** One group *)

(** X15: The only [ValueError] of a group is the maximum of nothing: it is
    raised exactly when the group has dataset keys and none of their
    values is a list.  The columns of the table never differ in
    length. *)
Theorem value_error_iff_no_dataset_is_a_list (d : dict) :
  snd (display_group (JObj d)) = Some ValueError <->
  dataset_keys d <> [] /\ list_lengths d (dataset_keys d) = [].
Proof.
  unfold display_group.
  destruct (dataset_keys d) as [|key keys] eqn:Ek.
  - simpl. split; [discriminate | intros [H _]; congruence].
  - destruct (max_of _) as [n|e] eqn:Em.
    + assert (Hl : list_lengths d (key :: keys) <> []).
      { intros E. rewrite E in Em. discriminate. }
      destruct (fill d n (key :: keys) []) as [t|e] eqn:Ef; cbn [bind].
      * rewrite (DataFrame_regular n).
        -- simpl. split; [discriminate | intros [_ H]; contradiction].
        -- eapply fill_regular; [| |exact Ef]; [|constructor].
           intros k items. eapply list_lengths_bound; eauto.
      * simpl. split; [|intros [_ H]; contradiction].
        intros [= ->]. apply fill_exn in Ef. destruct Ef; discriminate.
    + apply max_of_exn in Em as [El ->]. simpl.
      split; [intros _; split; [discriminate | exact El] | reflexivity].
Qed.

Lemma value_error_iff_no_dataset_is_a_list_witness :
  snd (display_group (JObj KEYED_GROUP)) = Some ValueError.
Proof.
  apply (proj2 (value_error_iff_no_dataset_is_a_list KEYED_GROUP)).
  split; [vm_compute; discriminate | reflexivity].
Defined.

Lemma well_formed_group_is_shown (group : json) :
  well_formed_group group = true -> exists out, shown_in_full group out.
Proof.
  destruct group as [| | | | | |d]; try discriminate.
  unfold well_formed_group, shown_in_full, display_group.
  fold (shown_name d).
  destruct (dataset_keys d) as [|key keys] eqn:Ek.
  { intros _. eexists. split; [reflexivity|]. exists d. split; [reflexivity|].
    left. split; [exact Ek | reflexivity]. }
  intros H.
  destruct (max_of _) as [n|e] eqn:Em.
  - destruct (fill_of_lists d n _ H []) as [t Ef]. rewrite Ef. cbn [bind].
    rewrite (DataFrame_regular n).
    + eexists. split; [reflexivity|]. exists d. split; [reflexivity|].
      right. split; [rewrite Ek; discriminate|]. exists t. reflexivity.
    + eapply fill_regular; [| |exact Ef]; [|constructor].
      intros k items. eapply list_lengths_bound; eauto.
  - apply max_of_exn in Em as [El _]. exfalso.
    cbn [forallb] in H. apply andb_prop in H as [H _].
    cbn [list_lengths flat_map] in El.
    destruct (dict_get key d) as [[| | | | |items|]|]; discriminate.
Qed.

Lemma shown_in_full_length (group : json) (out : list shown) :
  shown_in_full group out -> length out = 2%nat.
Proof. intros (_ & d & _ & [[_ ->] | (_ & t & ->)]); reflexivity. Qed.

(** X16: Groups as the prompt asks for them are all shown: when every group
    is a dict whose datasets are lists of dicts, no exception is raised,
    and what is on the screen is, group after group in their order, the
    subheader with the name of the group and then the warning that the
    group has no datasets, when it has no dataset key, or else its
    table: two things for each group. *)
Theorem well_formed_groups_are_shown (groups : list json) :
  forallb well_formed_group groups = true ->
  exists outs,
    display_common_metrics_tables (JArr groups) = (concat outs, None) /\
    length (concat outs) = (2 * length groups)%nat /\
    Forall2 (fun group out =>
               display_group group = (out, None) /\
               exists d, group = JObj d /\
                 ((dataset_keys d = [] /\
                   out = [Subheader (shown_name d); NoDatasets (shown_name d)]) \/
                  (dataset_keys d <> [] /\
                   exists t, out = [Subheader (shown_name d); Dataframe t])))
            groups outs.
Proof.
  unfold display_common_metrics_tables. cbn [iter].
  induction groups as [|group groups IH]; cbn [forallb display_groups].
  - exists []. repeat split. constructor.
  - intros H. apply andb_prop in H as [H1 H2].
    destruct (well_formed_group_is_shown _ H1) as (out & Hg).
    pose proof (shown_in_full_length _ _ Hg) as Hl.
    destruct (IH H2) as (outs & -> & Hlen & HF).
    exists (out :: outs).
    destruct Hg as [Hd Hg]. rewrite Hd. cbn [concat].
    split; [reflexivity|]. split.
    + rewrite length_app, Hlen, Hl. cbn [length]. lia.
    + constructor; [|exact HF]. split; [exact Hd | exact Hg].
Qed.

Lemma well_formed_groups_are_shown_witness :
  exists outs,
    display_common_metrics_tables (JArr [JObj GHG_GROUP; JObj []])
    = (concat outs, None) /\
    length (concat outs) = 4%nat /\
    Forall2 shown_in_full [JObj GHG_GROUP; JObj []] outs.
Proof.
  apply (well_formed_groups_are_shown [JObj GHG_GROUP; JObj []]).
  reflexivity.
Defined.

(** What is shown for the two groups of the example. *)
Lemma example_groups_shown :
  display_common_metrics_tables (JArr [JObj GHG_GROUP; JObj []])
  = ([Subheader (JStr (u "GHG emissions")); Dataframe GHG_TABLE;
      Subheader (JStr UNNAMED_METRIC); NoDatasets (JStr UNNAMED_METRIC)], None).
Proof. vm_compute. reflexivity. Qed.

(** *** What the table holds *)

Lemma column_names_differ (key key' f suf f' suf' : str) :
  In (f, suf) FIELDS -> In (f', suf') FIELDS ->
  key ++ suf = key' ++ suf' -> key = key' /\ f = f'.
Proof.
  intros H H' E.
  assert (Hend : firstn 3 (rev suf) = firstn 3 (rev suf')).
  { apply (f_equal (fun s => firstn 3 (rev s))) in E.
    rewrite !rev_app_distr in E.
    cbn [In FIELDS] in H, H'.
    repeat (destruct H as [H|H]; [injection H as <- <-|]); try contradiction;
    repeat (destruct H' as [H'|H']; [injection H' as <- <-|]);
      try contradiction; exact E. }
  cbn [In FIELDS] in H, H'.
  repeat (destruct H as [H|H]; [injection H as <- <-|]); try contradiction;
  repeat (destruct H' as [H'|H']; [injection H' as <- <-|]);
    try contradiction; try discriminate Hend;
    (split; [now apply app_inv_tail in E | reflexivity]).
Qed.

Lemma fill_columns (d : dict) (n : nat) (keys : list str) :
  forall t t', fill d n keys t = Ok t' ->
  (forall name,
     (forall key f suf, In key keys -> In (f, suf) FIELDS ->
        name <> key ++ suf) ->
     table_get name t' = table_get name t) /\
  (forall key f suf, In key keys -> In (f, suf) FIELDS ->
     exists es vs,
       iter (match dict_get key d with Some v => v | None => JArr [] end)
       = Ok es /\
       column f es = Ok vs /\
       table_get (key ++ suf) t' = Some (pad n vs)).
Proof.
  induction keys as [|key keys IH]; intros t t' H; cbn [fill] in H.
  - injection H as <-. split; [reflexivity | intros ? ? ? []].
  - cbv zeta in H.
    destruct (iter _) as [l|] eqn:E0; cbn [bind] in H; [|discriminate H].
    destruct (column METRIC_NAME l) as [l0|] eqn:E1; cbn [bind] in H;
      [|discriminate H].
    destruct (column VALUE l) as [l1|] eqn:E2; cbn [bind] in H;
      [|discriminate H].
    destruct (column UNIT l) as [l2|] eqn:E3; cbn [bind] in H;
      [|discriminate H].
    destruct (column YEAR l) as [l3|] eqn:E4; cbn [bind] in H;
      [|discriminate H].
    destruct (column SOURCE l) as [l4|] eqn:E5; cbn [bind] in H;
      [|discriminate H].
    destruct (IH _ _ H) as [Hframe Hcols]. clear IH H.
    assert (Hother : forall name,
              (forall f suf, In (f, suf) FIELDS -> name <> key ++ suf) ->
              table_get name
                (table_set (key ++ SOURCE_SUFFIX) (pad n l4)
                (table_set (key ++ YEAR_SUFFIX) (pad n l3)
                (table_set (key ++ UNIT_SUFFIX) (pad n l2)
                (table_set (key ++ VALUE_SUFFIX) (pad n l1)
                (table_set (key ++ METRIC_NAME_SUFFIX) (pad n l0) t)))))
              = table_get name t).
    { intros name Hn.
      rewrite !table_get_set_other; [reflexivity| | | | |];
        intros Heq; symmetry in Heq; (eapply Hn; [|exact Heq]);
        cbn [In FIELDS]; eauto 10. }
    split.
    + intros name Hn. rewrite Hframe.
      * apply Hother. intros f suf. apply Hn. now left.
      * intros k f suf Hin. apply Hn. now right.
    + intros k f suf Hin Hf.
      destruct (List.in_dec (List.list_eq_dec N.eq_dec) k keys) as [Hk|Hk];
        [now apply Hcols|].
      destruct Hin as [<-|Hin]; [|contradiction].
      rewrite Hframe.
      2:{ intros k' f' suf' Hin' Hf' Heq.
          apply (column_names_differ _ _ _ _ _ _ Hf Hf') in Heq as [-> _].
          contradiction. }
      assert (Hne : forall f' suf', In (f', suf') FIELDS -> suf' <> suf ->
                      key ++ suf' <> key ++ suf).
      { intros f' suf' _ Hs Heq. now apply app_inv_head in Heq. }
      exists l.
      cbn [In FIELDS] in Hf.
      repeat (destruct Hf as [Hf|Hf]; [injection Hf as <- <-|]);
        try contradiction.
      * exists l0. split; [exact E0|]. split; [assumption|].
        rewrite !table_get_set_other by (intros Heq; apply app_inv_head in Heq; discriminate Heq).
        apply table_get_set_same.
      * exists l1. split; [exact E0|]. split; [assumption|].
        rewrite !table_get_set_other by (intros Heq; apply app_inv_head in Heq; discriminate Heq).
        apply table_get_set_same.
      * exists l2. split; [exact E0|]. split; [assumption|].
        rewrite !table_get_set_other by (intros Heq; apply app_inv_head in Heq; discriminate Heq).
        apply table_get_set_same.
      * exists l3. split; [exact E0|]. split; [assumption|].
        rewrite !table_get_set_other by (intros Heq; apply app_inv_head in Heq; discriminate Heq).
        apply table_get_set_same.
      * exists l4. split; [exact E0|]. split; [assumption|].
        apply table_get_set_same.
Qed.

(** X17: The table that is shown for a group holds, for every dataset key
    whose value is a list and for each of the five fields, a column
    named by the key and the field: the field of every entry in the
    order of the list ([""] where an entry has none), then [""] up to
    the length of the longest list of the group. *)
Theorem shown_table_holds_the_entries (d : dict) (t : table) :
  In (Dataframe t) (fst (display_group (JObj d))) ->
  exists n,
    max_of (list_lengths d (dataset_keys d)) = Ok n /\
    forall key items f suf,
      In key (dataset_keys d) -> dict_get key d = Some (JArr items) ->
      In (f, suf) FIELDS ->
      table_get (key ++ suf) t
      = Some (map (field_of f) items
              ++ repeat (JStr []) (n - length items)).
Proof.
  unfold display_group.
  destruct (dataset_keys d) as [|key0 keys] eqn:Ek.
  { simpl. intros [H|[H|[]]]; discriminate. }
  destruct (max_of _) as [n|e] eqn:Em.
  2:{ simpl. intros [H|[]]; discriminate. }
  destruct (fill d n (key0 :: keys) []) as [t'|e] eqn:Ef; cbn [bind].
  2:{ simpl. intros [H|[]]; discriminate. }
  destruct (DataFrame t') as [df|e] eqn:Ed.
  2:{ simpl. intros [H|[]]; discriminate. }
  apply DataFrame_id in Ed. subst df.
  simpl. intros [H|[H|[]]]; [discriminate|]. injection H as ->.
  exists n. split; [reflexivity|].
  intros key items f suf Hin Hget Hf.
  destruct (fill_columns _ _ _ _ _ Ef) as [_ Hcols].
  destruct (Hcols key f suf Hin Hf) as (es & vs & Hi & Hc & Hg).
  rewrite Hget in Hi. cbn [iter] in Hi. injection Hi as <-.
  apply column_fields in Hc. subst vs. rewrite Hg. unfold pad.
  now rewrite length_map.
Qed.

Lemma shown_table_holds_the_entries_witness :
  exists n,
    max_of (list_lengths GHG_GROUP (dataset_keys GHG_GROUP)) = Ok n /\
    forall key items f suf,
      In key (dataset_keys GHG_GROUP) ->
      dict_get key GHG_GROUP = Some (JArr items) ->
      In (f, suf) FIELDS ->
      table_get (key ++ suf) GHG_TABLE
      = Some (map (field_of f) items
              ++ repeat (JStr []) (n - length items)).
Proof.
  apply (shown_table_holds_the_entries GHG_GROUP GHG_TABLE).
  right. left. reflexivity.
Defined.

End Display.

(* ===================================================================== *)
(** ** The comparison page: what is shown after the outcome *)
(* ===================================================================== *)

Module ShownResults.

Import Pandas Store CompareMetrics CompareDisplay Notions Comparator.

(** X18: An answer that decodes to a value with a truth value of [True] and
    without a length (a number that is not zero, or [true]) is stored in
    the cache, and the page then fails with [TypeError] at
    [len(common_metrics)]: in the run that made the request and in
    every later run with that selection, which shows the stored value
    without asking the oracle again. *)
Theorem cached_number_fails_on_every_run (generate_content : Oracle.oracle)
    (selected_files : list str) (category : str) (w w1 : world) (v : json) :
  compare_metrics_page generate_content selected_files category true w
  = (w1, Compared v) ->
  truthy v = true -> len v = Raise TypeError ->
  step3 (Compared v) = ([], Some TypeError) /\
  forall generate_content' button,
    compare_metrics_page generate_content' selected_files category button w1
    = (w1, Loaded v) /\
    step3 (Loaded v) = ([], Some TypeError).
Proof.
  intros Hrun Ht Hl.
  assert (Hs : display_results v = ([], Some TypeError)).
  { unfold display_results. now rewrite Ht, Hl. }
  split; [exact Hs|]. intros g' button. split; [|exact Hs].
  destruct (compared_run _ _ _ _ _ _ _ Hrun) as (Hr & Hsel & Hc & _).
  now apply cached_comparison.
Qed.

Lemma cached_number_fails_on_every_run_witness :
  step3 (Compared (JInt 42)) = ([], Some TypeError) /\
  forall generate_content' button,
    compare_metrics_page generate_content' [A_CSV; B_CSV] Main.ENVIRONMENTAL
      button after_number
    = (after_number, Loaded (JInt 42)) /\
    step3 (Loaded (JInt 42)) = ([], Some TypeError).
Proof.
  apply (cached_number_fails_on_every_run (always NUMBER) [A_CSV; B_CSV]
           Main.ENVIRONMENTAL two_tables after_number (JInt 42));
    vm_compute; reflexivity.
Defined.

End ShownResults.

(* ===================================================================== *)
(** ** app/mainModel1.py: parse_gemini_output and flatten_metrics *)
(* ===================================================================== *)

Module OneRequestPage.

Import GeminiExtractor MainModel1 Notions StripFacts Patterns Roundtrip
       StringCodec Tokens Consumed.

(** *** The span and what it decodes to *)

Lemma star_some (R : Type) (cls : N -> bool) (s : str)
    (k : str -> option R) (x : R) :
  Re.star cls s k = Some x -> exists a b, s = a ++ b /\ k b = Some x.
Proof.
  induction s as [|c s IH]; cbn [Re.star]; intros H.
  - exists [], []. auto.
  - destruct (cls c).
    + destruct (Re.star cls s k) as [y|] eqn:E.
      * injection H as ->. destruct (IH eq_refl) as (a & b & -> & Hk).
        exists (c :: a), b. auto.
      * exists [], (c :: s). auto.
    + exists [], (c :: s). auto.
Qed.

Lemma closed_by (open close : N) (s' : str) (m : Re.match_obj) :
  Re.star Re.any s'
    (fun s0 =>
       match s0 with
       | [] => None
       | x :: s3 =>
           if x =? close
           then Some (Re.MatchObj
                        (firstn (length (open :: s') - length s3) (open :: s'))
                        (Some (firstn (length (open :: s') - length s3)
                                 (open :: s'))))
           else None
       end) = Some m ->
  exists rest, Re.group0 m = open :: rest.
Proof.
  intros H. apply star_some in H as (a & b & -> & Hk).
  destruct b as [|x s3]; [discriminate|].
  destruct (x =? close); [|discriminate]. injection Hk as <-.
  cbn [Re.group0 length]. rewrite length_app. cbn [length].
  replace (S (length a + S (length s3)) - length s3)%nat
    with (S (S (length a))) by lia.
  cbn [firstn]. eauto.
Qed.

Lemma span_group_head (s : str) (m : Re.match_obj) :
  Re.search SPAN s = Some m ->
  exists rest, Re.group0 m = 91 :: rest \/ Re.group0 m = 123 :: rest.
Proof.
  induction s as [|c s IH]; cbn [Re.search].
  - discriminate.
  - destruct (Re.match_here SPAN (c :: s)) as [m'|] eqn:E; [|exact IH].
    intros [= ->]. unfold Re.match_here, SPAN in E. cbn [Re.exec] in E.
    destruct (c =? 91) eqn:E91.
    + apply N.eqb_eq in E91. subst c.
      destruct (Re.star Re.any s _) as [m1|] eqn:Es in E.
      * injection E as ->. apply closed_by in Es as [rest Hr]. eauto.
      * cbn [N.eqb Pos.eqb] in E. discriminate.
    + destruct (c =? 123) eqn:E123; [|discriminate].
      apply N.eqb_eq in E123. subst c.
      apply closed_by in E as [rest Hr]. eauto.
Qed.

Lemma parse_items_list (fuel : nat) :
  forall s acc v r, parse_items fuel s acc = Some (v, r) -> is_list v = true.
Proof.
  induction fuel as [|fuel IH]; intros s acc v r; [discriminate|].
  rewrite parse_items_step.
  destruct (scan_once fuel s) as [[v0 r0]|]; [|discriminate].
  destruct (skip_ws r0) as [|c r1]; [discriminate|].
  destruct (c =? 93); [now intros [= <- <-]|].
  destruct (c =? 44); [apply IH | discriminate].
Qed.

Lemma parse_members_dict (fuel : nat) :
  forall s acc v r, parse_members fuel s acc = Some (v, r) -> is_dict v = true.
Proof.
  induction fuel as [|fuel IH]; intros s acc v r; [discriminate|].
  destruct s as [|q s]; [discriminate|].
  rewrite Fuel.parse_members_cons.
  destruct (q =? 34); [|discriminate].
  rewrite parse_members_step.
  destruct (scanstring s []) as [[k r1]|]; [|discriminate].
  destruct (skip_ws r1) as [|colon r2]; [discriminate|].
  destruct (colon =? 58); [|discriminate].
  destruct (scan_once fuel _) as [[v0 r3]|]; [|discriminate].
  destruct (skip_ws r3) as [|c r4]; [discriminate|].
  destruct (c =? 125); [now intros [= <- <-]|].
  destruct (c =? 44); [apply IH | discriminate].
Qed.

Lemma loads_of_span (c : N) (rest : str) (v : json) :
  c = 91 \/ c = 123 -> loads (c :: rest) = Some v ->
  is_list v || is_dict v = true.
Proof.
  intros Hc. unfold loads.
  assert (Hs : skip_ws (c :: rest) = c :: rest)
    by (destruct Hc as [-> | ->]; reflexivity).
  rewrite Hs. cbn [length].
  destruct (scan_once (S (S (length rest))) (c :: rest)) as [[v0 r0]|] eqn:E;
    [|discriminate].
  rewrite scan_once_cons in E.
  destruct (skip_ws r0); [|discriminate]. intros [= <-].
  destruct Hc as [-> | ->]; cbn [N.eqb Pos.eqb] in E.
  - destruct (skip_ws rest) as [|c1 r1]; [discriminate|].
    destruct (c1 =? 93); [now injection E as <- _|].
    apply parse_items_list in E. now rewrite E.
  - destruct (skip_ws rest) as [|c1 r1]; [discriminate|].
    destruct (c1 =? 125); [now injection E as <- _|].
    apply parse_members_dict in E. rewrite E. apply orb_true_r.
Qed.

(** X19: Whatever [parse_gemini_output] is given, it returns a list or a
    dict; when it warns that the output is not valid JSON, it returns
    the empty dict. *)
Theorem parsed_output_is_a_list_or_a_dict (output : json) :
  let (v, warned) := parse_gemini_output output in
  is_list v || is_dict v = true /\
  if warned then v = JObj [] else True.
Proof.
  destruct output as [| | | |s| |]; cbn [parse_gemini_output];
    try (split; [reflexivity | exact I]).
  destruct (Re.search SPAN _) as [m|] eqn:Es; [|split; [reflexivity | exact I]].
  destruct (loads (Re.group0 m)) as [v|] eqn:El; [|split; reflexivity].
  split; [|exact I].
  apply span_group_head in Es as [rest [Hr|Hr]]; rewrite Hr in El;
    (eapply loads_of_span; [|exact El]); auto.
Qed.

(** *** A fenced list *)

Lemma free_of_lf_join (sep : str) (parts : list str) :
  free_of [10] sep = true ->
  Forall (fun p => free_of [10] p = true) parts ->
  free_of [10] (join sep parts) = true.
Proof.
  intros Hsep. induction 1 as [|p parts Hp _ IH]; [reflexivity|].
  destruct parts as [|q parts]; [exact Hp|].
  change (join sep (p :: q :: parts)) with (p ++ sep ++ join sep (q :: parts)).
  rewrite !free_of_app, Hp, Hsep, IH. reflexivity.
Qed.

Lemma encode_string_no_lf (s : str) :
  forallb is_scalar s = true -> free_of [10] (encode_string s) = true.
Proof.
  intros Hs. unfold encode_string.
  pose proof (scanstring_encoded s [] [] Hs) as H.
  destruct (scanstring_consumed _ _ _ _ _ (Nat.le_refl _) H)
    as (con & E & Hf & _).
  rewrite app_nil_r in E. rewrite <- E in Hf.
  apply free_of_lf_cons; [reflexivity | exact Hf].
Qed.

Lemma dumps_no_lf (v : json) :
  plain v = true -> free_of [10] (dumps v) = true.
Proof.
  induction v as [ | b | z | l | s | items IH | members IH]
    using json_induction; intros Hp.
  - reflexivity.
  - destruct b; reflexivity.
  - cbn [dumps].
    destruct (scan_literal_consumed _ _ _ (scan_literal_int z))
      as (con & E & Hf & _).
    rewrite app_nil_r in E. now rewrite E.
  - cbn [dumps plain] in *. unfold is_float_literal in Hp.
    destruct (scan_literal l) as [[[| | |l'| | |] [|c r]]|] eqn:E;
      try discriminate.
    destruct (scan_literal_consumed _ _ _ E) as (con & Ec & Hf & _).
    rewrite app_nil_r in Ec. now rewrite Ec.
  - apply encode_string_no_lf. exact Hp.
  - cbn [dumps plain] in *.
    apply free_of_lf_cons; [reflexivity|].
    rewrite free_of_app. rewrite free_of_lf_join; [reflexivity..|].
    apply Forall_map.
    revert Hp. induction IH as [|x items Hx _ IHi]; intros Hp; [constructor|].
    cbn [forallb] in Hp. apply andb_prop in Hp as [H1 H2].
    constructor; auto.
  - cbn [dumps plain] in *. apply andb_prop in Hp as [Hp _].
    apply free_of_lf_cons; [reflexivity|].
    rewrite free_of_app. rewrite free_of_lf_join; [reflexivity..|].
    apply Forall_map.
    revert Hp. induction IH as [|[k x] members Hx _ IHm]; intros Hp;
      [constructor|].
    cbn [forallb fst snd] in Hp. apply andb_prop in Hp as [H1 H2].
    apply andb_prop in H1 as [Hk Hv].
    constructor; [|auto].
    cbn [fst snd]. rewrite !free_of_app, encode_string_no_lf by exact Hk.
    cbn [snd] in Hx. now rewrite Hx.
Qed.

Lemma ticks_not_at_eol (body rest r : str) (c1 : N) :
  c1 <> 96 -> c1 <> 10 -> free_of [10] body = true ->
  strip_prefix CompareMetrics.TICKS (body ++ c1 :: 10 :: rest) = Some r ->
  at_eol r = false.
Proof.
  intros H96 H10 Hf. apply N.eqb_neq in H10.
  assert (N96 : (96 =? c1) = false) by (apply N.eqb_neq; congruence).
  unfold CompareMetrics.TICKS.
  destruct body as [|a [|b [|c body]]]; cbn [app strip_prefix].
  - now rewrite N96.
  - destruct (96 =? a); [now rewrite N96 | discriminate].
  - destruct (96 =? a); [|discriminate].
    destruct (96 =? b); [now rewrite N96 | discriminate].
  - destruct (96 =? a); [|discriminate].
    destruct (96 =? b); [|discriminate].
    destruct (96 =? c); [|discriminate].
    intros [= <-].
    apply free_of_cons in Hf as [_ Hf]. apply free_of_cons in Hf as [_ Hf].
    apply free_of_cons in Hf as [_ Hf].
    destruct body as [|y body]; cbn [app at_eol]; [exact H10|].
    apply free_of_cons in Hf as [Hy _]. cbn [existsb] in Hy.
    now apply orb_false_iff in Hy as [Hy _].
Qed.

(** Inside a line nothing is removed up to a character that is neither
    a backquote nor a line feed. *)
Lemma sub_fences_copy (c1 : N) (rest body : str) :
  c1 <> 96 -> c1 <> 10 -> free_of [10] body = true ->
  sub_fences 0 false (body ++ c1 :: 10 :: rest)
  = body ++ c1 :: sub_fences 0 false (10 :: rest).
Proof.
  intros H96 H10. induction body as [|x body IH]; intros Hf.
  - cbn [app]. change (sub_fences 0 false (c1 :: 10 :: rest))
      with (match strip_prefix CompareMetrics.TICKS (c1 :: 10 :: rest) with
            | Some r =>
                if false && starts_ci CompareMetrics.JSON_TAG r
                then sub_fences 6 false (10 :: rest)
                else if at_eol r then sub_fences 2 false (10 :: rest)
                else c1 :: sub_fences 0 (c1 =? 10) (10 :: rest)
            | None => c1 :: sub_fences 0 (c1 =? 10) (10 :: rest)
            end).
    apply N.eqb_neq in H10. rewrite H10.
    destruct (strip_prefix _ _) as [r|] eqn:E; [|reflexivity].
    apply (ticks_not_at_eol [] rest r c1) in E;
      [now rewrite E | assumption | now apply N.eqb_neq | reflexivity].
  - pose proof Hf as Hf'. apply free_of_cons in Hf' as [Hx Hb].
    cbn [existsb] in Hx. apply orb_false_iff in Hx as [Hx _].
    cbn [app].
    change (sub_fences 0 false (x :: body ++ c1 :: 10 :: rest))
      with (match strip_prefix CompareMetrics.TICKS
                    (x :: body ++ c1 :: 10 :: rest) with
            | Some r =>
                if false && starts_ci CompareMetrics.JSON_TAG r
                then sub_fences 6 false (body ++ c1 :: 10 :: rest)
                else if at_eol r
                     then sub_fences 2 false (body ++ c1 :: 10 :: rest)
                     else x :: sub_fences 0 (x =? 10) (body ++ c1 :: 10 :: rest)
            | None => x :: sub_fences 0 (x =? 10) (body ++ c1 :: 10 :: rest)
            end).
    rewrite Hx, IH by exact Hb.
    destruct (strip_prefix _ _) as [r|] eqn:E; [|reflexivity].
    apply (ticks_not_at_eol (x :: body) rest r c1) in E;
      [now rewrite E | assumption..].
Qed.

Lemma strip_between (a b : N) (mid : str) :
  isspace a = false -> isspace b = false ->
  strip (a :: mid ++ [b]) = a :: mid ++ [b].
Proof.
  intros Ha Hb. unfold strip. rewrite lstrip_head by exact Ha.
  apply (rstrip_last (a :: mid) b Hb).
Qed.

Lemma strip_lines (body : str) :
  strip (10 :: 91 :: body ++ [93; 10]) = 91 :: body ++ [93].
Proof.
  unfold strip.
  change (lstrip (10 :: 91 :: body ++ [93; 10])) with (91 :: body ++ [93; 10]).
  replace (91 :: body ++ [93; 10]) with (((91 :: body) ++ [93]) ++ [10])
    by (cbn [app]; now rewrite <- app_assoc).
  rewrite rstrip_app by reflexivity.
  change (rstrip [10]) with (@nil N). now rewrite app_nil_r.
Qed.

Lemma cleaned_fenced_list (body : str) :
  free_of [10] body = true ->
  strip (sub_fences 0 true
           (strip (fenced [] (91 :: body ++ [93]) [])))
  = 91 :: body ++ [93].
Proof.
  intros Hf. unfold fenced, OPEN_FENCE, CLOSE_FENCE.
  cbn [app].
  replace (96 :: 96 :: 96 :: 106 :: 115 :: 111 :: 110 :: 10 :: 91
           :: (body ++ [93]) ++ [10; 96; 96; 96])
    with (96 :: ([96; 96; 106; 115; 111; 110; 10; 91] ++ body
                 ++ [93; 10; 96; 96]) ++ [96])
    by (cbn [app]; now rewrite <- !app_assoc).
  rewrite strip_between by reflexivity.
  replace (96 :: ([96; 96; 106; 115; 111; 110; 10; 91] ++ body
                  ++ [93; 10; 96; 96]) ++ [96])
    with (96 :: 96 :: 96 :: 106 :: 115 :: 111 :: 110 :: 10 :: 91
          :: body ++ 93 :: 10 :: [96; 96; 96])
    by (cbn [app]; now rewrite <- !app_assoc).
  change (sub_fences 0 true
            (96 :: 96 :: 96 :: 106 :: 115 :: 111 :: 110 :: 10 :: 91
             :: body ++ 93 :: 10 :: [96; 96; 96]))
    with (10 :: 91 :: sub_fences 0 false (body ++ 93 :: 10 :: [96; 96; 96])).
  rewrite sub_fences_copy by (discriminate || exact Hf).
  change (sub_fences 0 false [10; 96; 96; 96]) with [10].
  apply strip_lines.
Qed.

(** X20: A response that is nothing but a fence tagged json around the JSON
    text of a list is parsed to that list, without a warning. *)
Theorem fenced_list_is_parsed (items : list json) :
  plain (JArr items) = true ->
  parse_gemini_output (JStr (fenced [] (dumps (JArr items)) []))
  = (JArr items, false).
Proof.
  intros Hp. cbn [parse_gemini_output].
  change (dumps (JArr items))
    with (91 :: join ITEM_SEP (map dumps items) ++ [93]).
  rewrite cleaned_fenced_list.
  - rewrite (span_at_bracket _ []) by reflexivity. cbn [Re.group0].
    change (91 :: join ITEM_SEP (map dumps items) ++ [93])
      with (dumps (JArr items)).
    now rewrite loads_dumps.
  - pose proof (dumps_no_lf (JArr items) Hp) as H.
    change (dumps (JArr items))
      with (91 :: join ITEM_SEP (map dumps items) ++ [93]) in H.
    apply free_of_cons in H as [_ H]. rewrite free_of_app in H.
    now apply andb_prop in H as [H _].
Qed.

Lemma fenced_list_is_parsed_witness :
  parse_gemini_output (JStr (fenced [] SCOPE1_RESPONSE []))
  = (JArr [JObj SCOPE1], false).
Proof.
  apply (fenced_list_is_parsed [JObj SCOPE1]). reflexivity.
Defined.

(** *** Flattening *)

Lemma in_dict_items (r : dict) (items : list json) :
  In r (dict_items items) <-> In (JObj r) items.
Proof.
  unfold dict_items. rewrite in_flat_map. split.
  - intros (item & Hin & Hr). destruct item; try contradiction.
    destruct Hr as [<-|[]]. exact Hin.
  - intros Hin. exists (JObj r). split; [exact Hin | now left].
Qed.

(** X21: [flatten_metrics] returns a list of dicts as it is.  Of a dict it
    returns the values that are dicts and the dicts inside the values
    that are lists, and nothing else: no record of a deeper level and
    no value of another type. *)
Theorem flatten_metrics_keeps_the_records (ds : list dict)
    (members : dict) (r : dict) :
  flatten_metrics (JArr (map JObj ds)) = ds /\
  (In r (flatten_metrics (JObj members)) <->
   exists k v, In (k, v) members /\
     (v = JObj r \/ exists items, v = JArr items /\ In (JObj r) items)).
Proof.
  split.
  - cbn [flatten_metrics]. unfold dict_items.
    induction ds as [|d ds IH]; [reflexivity|].
    cbn [map flat_map app]. now rewrite IH.
  - cbn [flatten_metrics]. rewrite in_flat_map. split.
    + intros ([k v] & Hin & Hr). exists k, v. split; [exact Hin|].
      cbn [snd] in Hr. destruct v; try contradiction.
      * right. exists items. split; [reflexivity|]. now apply in_dict_items.
      * left. destruct Hr as [<-|[]]. reflexivity.
    + intros (k & v & Hin & [->|(items & -> & Hr)]).
      * exists (k, JObj r). split; [exact Hin | now left].
      * exists (k, JArr items). split; [exact Hin|]. cbn [snd].
        now apply in_dict_items.
Qed.

End OneRequestPage.

(* ===================================================================== *)
(** ** app/main.py: extract_json *)
(* ===================================================================== *)

Module MainCleanup.

Import Notions Patterns.

(** A pattern fails when what follows it fails on every rest of the
    text. *)
Lemma exec_none (R : Type) (r : Re.re) :
  forall (s : str) (g : option str) (k : str -> option str -> option R),
    (forall a s' g', s = a ++ s' -> k s' g' = None) ->
    Re.exec r s g k = None.
Proof.
  induction r as [|c|r1 IH1 r2 IH2|r1 IH1 r2 IH2|r1 IH1|cls|r1 IH1];
    intros s g k H; cbn [Re.exec].
  - apply (H []). reflexivity.
  - destruct s as [|x s]; [reflexivity|].
    destruct (x =? c); [|reflexivity]. apply (H [x]). reflexivity.
  - apply IH1. intros a s' g' ->. apply IH2. intros a' s'' g'' ->.
    apply (H (a ++ a')). now rewrite app_assoc.
  - rewrite IH1 by exact H. apply IH2. exact H.
  - rewrite IH1 by exact H. apply (H []). reflexivity.
  - apply star_none. intros b1 b2 ->. apply (H b1). reflexivity.
  - apply IH1. intros a s' g' E. apply (H a). exact E.
Qed.

Lemma exec_requires (R : Type) (c : N) (r : Re.re) :
  requires c r = true ->
  forall (s : str) (g : option str) (k : str -> option str -> option R),
    free_of [c] s = true -> Re.exec r s g k = None.
Proof.
  induction r as [|x|r1 IH1 r2 IH2|r1 IH1 r2 IH2|r1 IH1|cls|r1 IH1];
    cbn [requires]; intros Hr s g k Hs; try discriminate; cbn [Re.exec].
  - apply N.eqb_eq in Hr. subst x. destruct s as [|y s]; [reflexivity|].
    apply free_of_cons in Hs as [Hy _]. cbn [existsb] in Hy.
    apply orb_false_iff in Hy as [Hy _]. now rewrite Hy.
  - apply orb_true_iff in Hr as [Hr|Hr]; [now apply IH1|].
    apply exec_none. intros a s' g' ->. apply IH2; [exact Hr|].
    now apply free_of_suffix in Hs.
  - apply andb_prop in Hr as [H1 H2]. rewrite IH1 by assumption.
    now apply IH2.
  - now apply IH1.
Qed.

Lemma search_requires (c : N) (r : Re.re) (s : str) :
  requires c r = true -> free_of [c] s = true -> Re.search r s = None.
Proof.
  intros Hr. induction s as [|x s IH]; intros Hs; cbn [Re.search];
    unfold Re.match_here; rewrite (exec_requires _ c) by assumption;
    [reflexivity|].
  apply IH. now apply free_of_cons in Hs as [_ Hs].
Qed.

(** X14: [extract_json] of main.py unwraps a fence only around a list that
    holds an object: a text without an opening brace, or without a
    closing brace, is returned stripped of the white space around it,
    fences included. *)
Theorem main_extract_json_needs_an_object (text : str) :
  free_of [123] text = true \/ free_of [125] text = true ->
  MainJson.extract_json text = strip text.
Proof.
  intros [H|H]; unfold MainJson.extract_json.
  - now rewrite (search_requires 123) by (reflexivity || exact H).
  - now rewrite (search_requires 125) by (reflexivity || exact H).
Qed.

Lemma main_extract_json_needs_an_object_witness :
  MainJson.extract_json FENCED_EMPTY = FENCED_EMPTY /\
  CompareMetrics.extract_json FENCED_EMPTY = EMPTY_LIST.
Proof.
  split.
  - apply (main_extract_json_needs_an_object FENCED_EMPTY).
    left. reflexivity.
  - reflexivity.
Defined.

End MainCleanup.

(* ===================================================================== *)
(** ** The rows of a stored table *)
(* ===================================================================== *)

Module StoredRows.

Import GeminiExtractor Pandas Main Store DictFacts Notions Aggregator
       PartsLoop.

(** X6: Every row of a table that the extraction page saves has a category
    that capitalizes to Environmental, Social or Governance, and a
    source made of the name of the uploaded file, [" - page "] and a
    page number from 1 on. *)
Theorem stored_rows_are_normalised (generate_content : Oracle.oracle)
    (api_key : str) (pages_per_part : nat) (file : upload) (w w' : world)
    (df : frame) (errors : list (nat * exn)) :
  extraction_page generate_content api_key pages_per_part (Some file) w
  = (w', Saved df errors) ->
  Forall (normalised_row (name file)) (rows df).
Proof.
  unfold extraction_page.
  destruct api_key as [|c key]; [discriminate|].
  destruct (results _ !! _); [discriminate|].
  destruct (split_pdf _ _) as [pdf_parts|e]; [|discriminate].
  destruct (init _ _) as [k|e]; [|discriminate].
  unfold combine_and_save.
  destruct (parts_invariant generate_content (name file) pdf_parts 1%nat
              (Progress (calls (sidebar (c :: key) w)) 0 [] []))
    as (errs & new & _ & _ & Hm & Hc & Hk & _).
  cbn zeta in *. cbn [p_all_metrics p_page_offset app] in Hm, Hc.
  destruct (p_all_metrics _) as [|m ms]; [discriminate|].
  rewrite select_DataFrame.
  destruct (forallb _ columns_order); [|discriminate].
  intros [= _ <- _]. subst new.
  change (Forall (normalised_row (name file))
            (map (restrict columns_order) (m :: ms))).
  rewrite List.Forall_forall in Hc, Hk.
  apply List.Forall_map, List.Forall_forall. intros r0 Hin.
  destruct (Hk r0 Hin) as (s & Hs & Hmem).
  destruct (Hc r0 Hin) as (p & Hp & _ & Hsrc).
  split.
  - exists s. split; [|exact Hmem]. now rewrite restrict_get.
  - exists p. split; [lia|]. now rewrite restrict_get.
Qed.

Lemma stored_rows_are_normalised_witness :
  Forall (normalised_row (name REPORT)) (rows SCOPE1_TABLE).
Proof.
  apply (stored_rows_are_normalised (always SCOPE1_RESPONSE) KEY 5 REPORT
           fresh after_scope1 SCOPE1_TABLE []).
  vm_compute. reflexivity.
Defined.

Import TableCache.

(** X22: The stored tables are told apart by the stem of the file name
    alone: after a run saved the table of one document, a run on any
    document whose name has the same stem, whatever its pages, shows
    that table and asks the oracle nothing. *)
Theorem same_stem_is_served_the_stored_table
    (generate_content : Oracle.oracle) (api_key : str) (pages_per_part : nat)
    (file file' : upload) (w w1 : world) (df : frame)
    (errors : list (nat * exn)) :
  extraction_page generate_content api_key pages_per_part (Some file) w
  = (w1, Saved df errors) ->
  Paths.stem (name file') = Paths.stem (name file) ->
  forall generate_content' pages_per_part',
    extraction_page generate_content' api_key pages_per_part' (Some file') w1
    = (w1, Cached df).
Proof.
  intros Hrun Hstem g' p'.
  destruct (saving_run _ _ _ _ _ _ _ _ Hrun) as (_ & He & Hk & Hr).
  rewrite <- Hstem in Hr.
  rewrite (cached_run g' api_key p' file' w1 df Hk Hr).
  f_equal. destruct api_key as [|c k]; [congruence|].
  destruct w1; simpl in *. unfold set_environ. simpl. now rewrite He.
Qed.

Lemma same_stem_is_served_the_stored_table_witness :
  extraction_page (always NO_DATA) KEY 7 (Some OTHER_REPORT) after_scope1
  = (after_scope1, Cached SCOPE1_TABLE).
Proof.
  apply (same_stem_is_served_the_stored_table (always SCOPE1_RESPONSE) KEY 5
           REPORT OTHER_REPORT fresh after_scope1 SCOPE1_TABLE []
           ltac:(vm_compute; reflexivity) ltac:(vm_compute; reflexivity)
           (always NO_DATA) 7%nat).
Defined.

End StoredRows.
